(** * Tegra matrix keyboard controller driver: scan engine

    A shallow embedding of [drivers/input/keyboard/tegra-kbc.c]: the scan
    decoder, the ghost filter, the key state tracker, the polling timer, the
    interrupt handler, the wake key mask set-up and the device stop path.

    The driver state [struct tegra_kbc] is a record.  The handles it holds
    (the register window, the input device, the interrupt line, the timer,
    the clock) are modelled by what the driver can observe or cause through
    them: a register file together with the log of bus accesses, the list of
    events handed to the input core, the disable depth of the interrupt
    line, the pending delay of the timer, the enable count of the clock. *)

From Stdlib Require Import ZArith Lia Bool.
From stdpp Require Import base tactics option list functions gmap.

Local Open Scope Z_scope.

(** ** Register map and constants of the driver *)

Definition KBC_CONTROL_0 : Z := 0x0.
Definition KBC_CONTROL_FIFO_CNT_INT_EN : Z := Z.shiftl 1 3.
Definition KBC_CONTROL_KBC_EN : Z := Z.shiftl 1 0.

Definition KBC_INT_0 : Z := 0x4.
Definition KBC_INT_FIFO_CNT_INT_STATUS : Z := Z.shiftl 1 2.
Definition KBC_INT_KEYPRESS_INT_STATUS : Z := Z.shiftl 1 0.

Definition KBC_KP_ENT0_0 : Z := 0x30.
Definition KBC_KP_ENT1_0 : Z := 0x34.
Definition KBC_ROW0_MASK_0 : Z := 0x38.

Definition KBC_ROW_SHIFT : Z := 3.

(** Modelled from the spec: the header [linux/input/tegra_kbc.h] is not part
    of the sources.  MAX_SIMULTANEOUS_KEYS is the number of byte lanes of the
    FIFO entry registers, four per 32-bit word; the driver has the two words
    [KBC_KP_ENT0_0] and [KBC_KP_ENT1_0], which [tegra_kbc_start] drains
    together. *)
Definition KBC_MAX_KPENT : nat := 8.

(** Modelled from the spec: the macro [MATRIX_SCAN_CODE] comes from
    [linux/input/matrix_keypad.h], which is not part of the sources; a scan
    code is [(row << ROW_SHIFT) | column]. *)
Definition MATRIX_SCAN_CODE (row col row_shift : Z) : Z :=
  Z.lor (Z.shiftl row row_shift) col.

(** Conversions to the C integer types the driver stores values in. *)
Definition u8 (x : Z) : Z := x mod 2 ^ 8.
Definition u32 (x : Z) : Z := x mod 2 ^ 32.

(** ** Data *)

(** One access of the register window, in program order. *)
Inductive bus_op : Type :=
  | BusRead (offset : Z)
  | BusWrite (value offset : Z).

(** What the driver hands to the input core: [input_report_key],
    [input_event(.., EV_MSC, MSC_SCAN, ..)] and [input_sync]. *)
Inductive input_ev : Type :=
  | EvKey (code value : Z)
  | EvMscScan (value : Z)
  | EvSync.

(** The expiry a timer was armed with, relative to [jiffies] at the time
    of [mod_timer]: a number of jiffies, or [msecs_to_jiffies] of a number
    of milliseconds. *)
Inductive expiry : Type :=
  | Jiffies (n : Z)
  | Msecs (n : Z).

Record tegra_kbc_wake_key : Type := WakeKey { wk_row : Z; wk_col : Z }.

Global Instance tegra_kbc_wake_key_inhabited : Inhabited tegra_kbc_wake_key :=
  populate (WakeKey 0 0).

(** The part of the platform data the modelled functions read.  The array
    [wake_cfg] and its count [wake_cnt] are one list. *)
Record tegra_kbc_platform_data : Type := PlatformData {
  wake_cfg : list tegra_kbc_wake_key
}.

Definition wake_cnt (p : tegra_kbc_platform_data) : Z :=
  Z.of_nat (length (wake_cfg p)).

Record tegra_kbc : Type := TegraKbc {
  mmio : Z → Z;                  (* register file, by byte offset *)
  bus : list bus_op;             (* accesses made through [mmio] *)
  idev : list input_ev;          (* events given to the input device *)
  irq : nat;                     (* disable depth of the interrupt line *)
  repoll_dly : Z;
  cp_dly_jiffies : Z;
  use_fn_map : bool;
  use_ghost_filter : bool;
  keypress_caused_wake : bool;
  pdata : tegra_kbc_platform_data;
  keycode : list Z;
  current_keys : list Z;
  num_pressed_keys : nat;
  timer : option expiry;         (* [Some d]: pending, armed with [d] *)
  clk : nat;                     (* enable count of the clock *)
  is_open : Z
}.

Definition set_mmio (f : (Z → Z) → Z → Z) (k : tegra_kbc) : tegra_kbc :=
  TegraKbc (f (mmio k)) (bus k) (idev k) (irq k) (repoll_dly k)
    (cp_dly_jiffies k) (use_fn_map k) (use_ghost_filter k)
    (keypress_caused_wake k) (pdata k) (keycode k) (current_keys k)
    (num_pressed_keys k) (timer k) (clk k) (is_open k).

Definition set_bus (f : list bus_op → list bus_op) (k : tegra_kbc) : tegra_kbc :=
  TegraKbc (mmio k) (f (bus k)) (idev k) (irq k) (repoll_dly k)
    (cp_dly_jiffies k) (use_fn_map k) (use_ghost_filter k)
    (keypress_caused_wake k) (pdata k) (keycode k) (current_keys k)
    (num_pressed_keys k) (timer k) (clk k) (is_open k).

Definition set_idev (f : list input_ev → list input_ev) (k : tegra_kbc) : tegra_kbc :=
  TegraKbc (mmio k) (bus k) (f (idev k)) (irq k) (repoll_dly k)
    (cp_dly_jiffies k) (use_fn_map k) (use_ghost_filter k)
    (keypress_caused_wake k) (pdata k) (keycode k) (current_keys k)
    (num_pressed_keys k) (timer k) (clk k) (is_open k).

Definition set_irq (f : nat → nat) (k : tegra_kbc) : tegra_kbc :=
  TegraKbc (mmio k) (bus k) (idev k) (f (irq k)) (repoll_dly k)
    (cp_dly_jiffies k) (use_fn_map k) (use_ghost_filter k)
    (keypress_caused_wake k) (pdata k) (keycode k) (current_keys k)
    (num_pressed_keys k) (timer k) (clk k) (is_open k).

Definition set_keypress_caused_wake (b : bool) (k : tegra_kbc) : tegra_kbc :=
  TegraKbc (mmio k) (bus k) (idev k) (irq k) (repoll_dly k)
    (cp_dly_jiffies k) (use_fn_map k) (use_ghost_filter k)
    b (pdata k) (keycode k) (current_keys k)
    (num_pressed_keys k) (timer k) (clk k) (is_open k).

Definition set_current_keys (c : list Z) (k : tegra_kbc) : tegra_kbc :=
  TegraKbc (mmio k) (bus k) (idev k) (irq k) (repoll_dly k)
    (cp_dly_jiffies k) (use_fn_map k) (use_ghost_filter k)
    (keypress_caused_wake k) (pdata k) (keycode k) c
    (num_pressed_keys k) (timer k) (clk k) (is_open k).

Definition set_num_pressed_keys (n : nat) (k : tegra_kbc) : tegra_kbc :=
  TegraKbc (mmio k) (bus k) (idev k) (irq k) (repoll_dly k)
    (cp_dly_jiffies k) (use_fn_map k) (use_ghost_filter k)
    (keypress_caused_wake k) (pdata k) (keycode k) (current_keys k)
    n (timer k) (clk k) (is_open k).

Definition set_timer (t : option expiry) (k : tegra_kbc) : tegra_kbc :=
  TegraKbc (mmio k) (bus k) (idev k) (irq k) (repoll_dly k)
    (cp_dly_jiffies k) (use_fn_map k) (use_ghost_filter k)
    (keypress_caused_wake k) (pdata k) (keycode k) (current_keys k)
    (num_pressed_keys k) t (clk k) (is_open k).

Definition set_clk (f : nat → nat) (k : tegra_kbc) : tegra_kbc :=
  TegraKbc (mmio k) (bus k) (idev k) (irq k) (repoll_dly k)
    (cp_dly_jiffies k) (use_fn_map k) (use_ghost_filter k)
    (keypress_caused_wake k) (pdata k) (keycode k) (current_keys k)
    (num_pressed_keys k) (timer k) (f (clk k)) (is_open k).

Definition set_is_open (o : Z) (k : tegra_kbc) : tegra_kbc :=
  TegraKbc (mmio k) (bus k) (idev k) (irq k) (repoll_dly k)
    (cp_dly_jiffies k) (use_fn_map k) (use_ghost_filter k)
    (keypress_caused_wake k) (pdata k) (keycode k) (current_keys k)
    (num_pressed_keys k) (timer k) (clk k) o.

(** ** The monad of driver operations: state passing over [tegra_kbc] *)

Definition kbc_op (A : Type) : Type := tegra_kbc → A * tegra_kbc.

Definition op_ret {A} (a : A) : kbc_op A := λ k, (a, k).
Definition op_bind {A B} (c : kbc_op A) (f : A → kbc_op B) : kbc_op B :=
  λ k, let '(a, k') := c k in f a k'.
Definition op_get : kbc_op tegra_kbc := λ k, (k, k).
Definition op_modify (f : tegra_kbc → tegra_kbc) : kbc_op unit := λ k, (tt, f k).
Definition exec {A} (c : kbc_op A) (k : tegra_kbc) : tegra_kbc := (c k).2.

Notation "'do' x <- c ; f" := (op_bind c (λ x, f))
  (at level 10, x name, c at level 100, f at level 200,
   format "'[v' 'do'  x  <-  c ; '/' f ']'").
Notation "'do_' c ; f" := (op_bind c (λ _, f))
  (at level 10, c at level 100, f at level 200,
   format "'[v' 'do_'  c ; '/' f ']'").

(** [for (i = lo; i < lo + n; i++) body], over the locals [L]. *)
Fixpoint for_op {L} (body : nat → L → kbc_op L) (i n : nat) (l : L) : kbc_op L :=
  match n with
  | O => op_ret l
  | S n' => do l' <- body i l; for_op body (S i) n' l'
  end.

Fixpoint for_ {L} (body : nat → L → L) (i n : nat) (l : L) : L :=
  match n with
  | O => l
  | S n' => for_ body (S i) n' (body i l)
  end.

(** ** Primitives the driver calls

    Arrays are lists and an array read [a[i]] is the total lookup
    [a !!! i]; the driver keeps every index below the declared size of
    its array. *)

(** [readl] returns what the register file holds; the file holds what was
    last stored by [writel].  How the controller itself reacts to an access
    (write-1-to-clear of the status bits, the FIFO moving on) is the
    hardware's; the model keeps the access in [bus]. *)
Definition readl (offset : Z) : kbc_op Z :=
  λ k, (mmio k offset, set_bus (λ b, b ++ [BusRead offset]) k).

Definition writel (value offset : Z) : kbc_op unit :=
  λ k, (tt, set_bus (λ b, b ++ [BusWrite value offset])
              (set_mmio (λ m, <[offset := value]> m) k)).

Definition input_report_key (input : list input_ev) (code value : Z) : list input_ev :=
  input ++ [EvKey code value].

Definition input_event_msc_scan (input : list input_ev) (value : Z) : list input_ev :=
  input ++ [EvMscScan value].

Definition input_sync (input : list input_ev) : list input_ev :=
  input ++ [EvSync].

Definition mod_timer (e : expiry) : kbc_op unit := op_modify (set_timer (Some e)).

Definition del_timer_sync : kbc_op unit := op_modify (set_timer None).

(** [disable_irq] nests: each call adds one to the disable depth. *)
Definition disable_irq : kbc_op unit := op_modify (set_irq S).

(** [clk_disable_unprepare] takes one from the enable count and leaves a
    count of zero as it is. *)
Definition clk_disable_unprepare : kbc_op unit := op_modify (set_clk Nat.pred).

(** [memcpy] of [n] array elements. *)
Definition memcpy {A} (dst src : list A) (n : nat) : list A :=
  take n src ++ drop n dst.

(** ** The driver *)

(** Locals of [tegra_kbc_report_keys]. *)
Record report_locals : Type := Locals {
  scancodes : list Z;
  keycodes : list Z;
  val : Z;
  num_down : nat;
  fn_keypress : bool;
  key_in_same_row : bool;
  key_in_same_col : bool
}.

(** The automatic arrays [scancodes] and [keycodes] start with whatever the
    stack holds; [stack_frame] gives that content, slot by slot. *)
Record stack_frame : Type := StackFrame {
  stack_scancodes : nat → Z;
  stack_keycodes : nat → Z
}.

Definition auto_array (content : nat → Z) : list Z :=
  map content (seq 0 KBC_MAX_KPENT).

Section Driver.

(** Constants of headers that are not part of the sources:
    [KBC_MAX_ROW] and [KBC_MAX_KEY] of [linux/input/tegra_kbc.h], which
    depend on the SoC, and [KEY_FN] of the input event codes. *)
Variable KBC_MAX_ROW : nat.
Variable KBC_MAX_KEY : Z.
Variable KEY_FN : Z.

Definition tegra_kbc_report_released_keys_search
    (old_keycode : Z) (new_keycodes : list Z) : nat → nat → nat :=
  fix search (j remaining : nat) : nat :=
    match remaining with
    | O => j
    | S r =>
        if old_keycode =? new_keycodes !!! j then j
        else search (S j) r
    end.

Definition tegra_kbc_report_released_keys (input : list input_ev)
    (old_keycodes : list Z) (old_num_keys : nat)
    (new_keycodes : list Z) (new_num_keys : nat) : list input_ev :=
  for_ (λ i input,
          let j := tegra_kbc_report_released_keys_search
                     (old_keycodes !!! i) new_keycodes O new_num_keys in
          if (j =? new_num_keys)%nat
          then input_report_key input (old_keycodes !!! i) 0
          else input)
       O old_num_keys input.

Definition tegra_kbc_report_pressed_keys (input : list input_ev)
    (scancodes keycodes : list Z) (num_pressed_keys : nat) : list input_ev :=
  for_ (λ i input,
          let input := input_event_msc_scan input (scancodes !!! i) in
          input_report_key input (keycodes !!! i) 1)
       O num_pressed_keys input.

(** Body of the loop over the key entries, lines 141-161: what one entry
    [val] does to the locals, and the loop body, which reads a new word
    every fourth entry. *)
Definition report_keys_entry (kbc : tegra_kbc) (val : Z) (l : report_locals)
    : report_locals :=
  let l :=
    if negb (Z.land val 0x80 =? 0) then
      let col := Z.land val 0x07 in
      let row := Z.land (Z.shiftr val 3) 0x0f in
      let scancode := u8 (MATRIX_SCAN_CODE row col KBC_ROW_SHIFT) in
      let scancodes := <[num_down l := scancode]> (scancodes l) in
      let keycodes :=
        <[num_down l := keycode kbc !!! Z.to_nat scancode]> (keycodes l) in
      if (keycodes !!! num_down l =? KEY_FN) && use_fn_map kbc
      then Locals scancodes keycodes val (num_down l) true
             (key_in_same_row l) (key_in_same_col l)
      else Locals scancodes keycodes val (S (num_down l)) (fn_keypress l)
             (key_in_same_row l) (key_in_same_col l)
    else l in
  Locals (scancodes l) (keycodes l) (Z.shiftr val 8) (num_down l)
    (fn_keypress l) (key_in_same_row l) (key_in_same_col l).

Definition report_keys_decode (i : nat) (l : report_locals) : kbc_op report_locals :=
  do val <- (if (i mod 4 =? 0)%nat
             then readl (KBC_KP_ENT0_0 + Z.of_nat i)
             else op_ret (val l));
  do kbc <- op_get;
  op_ret (report_keys_entry kbc val l).

(** Inner and outer loop of the ghost check, lines 170-188. *)
Definition report_keys_ghost_inner (curr_col curr_row : Z) (j : nat)
    (l : report_locals) : report_locals :=
  let col := u8 (Z.land (scancodes l !!! j) 0x07) in
  let row := u8 (Z.shiftr (scancodes l !!! j) KBC_ROW_SHIFT) in
  let same_col := if col =? curr_col then true else key_in_same_col l in
  let same_row := if row =? curr_row then true else key_in_same_row l in
  Locals (scancodes l) (keycodes l) (val l) (num_down l) (fn_keypress l)
    same_row same_col.

Definition report_keys_ghost (i : nat) (l : report_locals) : report_locals :=
  let curr_col := u8 (Z.land (scancodes l !!! i) 0x07) in
  let curr_row := u8 (Z.shiftr (scancodes l !!! i) KBC_ROW_SHIFT) in
  for_ (report_keys_ghost_inner curr_col curr_row)
       (i + 1) (num_down l - (i + 1)) l.

(** Body of the Fn translation loop, lines 196-199. *)
Definition report_keys_fn (keycode : list Z) (i : nat) (l : report_locals)
    : report_locals :=
  let scancodes :=
    <[i := u8 (scancodes l !!! i + KBC_MAX_KEY)]> (scancodes l) in
  let keycodes :=
    <[i := keycode !!! Z.to_nat (scancodes !!! i)]> (keycodes l) in
  Locals scancodes keycodes (val l) (num_down l) (fn_keypress l)
    (key_in_same_row l) (key_in_same_col l).

Definition tegra_kbc_report_keys (fr : stack_frame) : kbc_op unit :=
  let l := Locals (auto_array (stack_scancodes fr))
             (auto_array (stack_keycodes fr)) 0 O false false false in
  do l <- for_op report_keys_decode O KBC_MAX_KPENT l;
  do kbc <- op_get;
  let l :=
    if use_ghost_filter kbc && (3 <=? num_down l)%nat
    then for_ report_keys_ghost O (num_down l) l
    else l in
  let l :=
    if fn_keypress l
    then for_ (report_keys_fn (keycode kbc)) O (num_down l) l
    else l in
  if key_in_same_col l && key_in_same_row l then op_ret tt
  else
    do_ op_modify (set_idev (λ input,
          tegra_kbc_report_released_keys input
            (current_keys kbc) (num_pressed_keys kbc)
            (keycodes l) (num_down l)));
    do_ op_modify (set_idev (λ input,
          tegra_kbc_report_pressed_keys input
            (scancodes l) (keycodes l) (num_down l)));
    do_ op_modify (set_idev input_sync);
    do_ op_modify (set_current_keys
          (memcpy (current_keys kbc) (keycodes l) KBC_MAX_KPENT));
    op_modify (set_num_pressed_keys (num_down l)).

Definition tegra_kbc_set_fifo_interrupt (enable : bool) : kbc_op unit :=
  do val <- readl KBC_CONTROL_0;
  let val :=
    if enable then Z.lor val KBC_CONTROL_FIFO_CNT_INT_EN
    else Z.land val (u32 (Z.lnot KBC_CONTROL_FIFO_CNT_INT_EN)) in
  writel val KBC_CONTROL_0.

Definition tegra_kbc_keypress_timer (fr : stack_frame) : kbc_op unit :=
  do v <- readl KBC_INT_0;
  let val := Z.land (Z.shiftr v 4) 0xf in
  if negb (val =? 0) then
    do_ tegra_kbc_report_keys fr;
    do kbc <- op_get;
    let dly := if val =? 1 then repoll_dly kbc else 1 in
    mod_timer (Msecs dly)
  else
    do kbc <- op_get;
    do_ op_modify (set_idev (λ input,
          for_ (λ i input, input_report_key input (current_keys kbc !!! i) 0)
               O (num_pressed_keys kbc) input));
    do_ op_modify (set_idev input_sync);
    do_ op_modify (set_num_pressed_keys O);
    tegra_kbc_set_fifo_interrupt true.

Definition tegra_kbc_isr : kbc_op unit :=
  do val <- readl KBC_INT_0;
  do_ writel val KBC_INT_0;
  if negb (Z.land val KBC_INT_FIFO_CNT_INT_STATUS =? 0) then
    do_ tegra_kbc_set_fifo_interrupt false;
    do kbc <- op_get;
    mod_timer (Jiffies (cp_dly_jiffies kbc))
  else if negb (Z.land val KBC_INT_KEYPRESS_INT_STATUS =? 0) then
    op_modify (set_keypress_caused_wake true)
  else op_ret tt.

(** [BUG_ON] stops the kernel: the function has no result then. *)
Definition tegra_kbc_setup_wakekeys (filter : bool) (kbc : tegra_kbc)
    : option tegra_kbc :=
  let pdata := pdata kbc in
  if wake_cnt pdata >? KBC_MAX_KEY then None
  else
    let rst_val :=
      if filter && negb (wake_cnt pdata =? 0) then u32 (Z.lnot 0) else 0 in
    Some (exec
      (do_ for_op (λ i _, writel rst_val (KBC_ROW0_MASK_0 + Z.of_nat i * 4))
             O KBC_MAX_ROW tt;
       if filter then
         for_op (λ i _,
                   let w := wake_cfg pdata !!! i in
                   let addr := wk_row w * 4 + KBC_ROW0_MASK_0 in
                   do val <- readl addr;
                   let val := Z.land val (u32 (Z.lnot (Z.shiftl 1 (wk_col w)))) in
                   writel val addr)
                O (Z.to_nat (wake_cnt pdata)) tt
       else op_ret tt) kbc).

Definition tegra_kbc_stop : kbc_op unit :=
  do val <- readl KBC_CONTROL_0;
  let val := Z.land val (u32 (Z.lnot 1)) in
  do_ writel val KBC_CONTROL_0;
  do_ disable_irq;
  do_ del_timer_sync;
  do_ clk_disable_unprepare;
  op_modify (set_is_open 0).

End Driver.

(** ** The sample, as the specification describes it *)

(** The four byte lanes of a 32-bit FIFO word, lowest first. *)
Definition word_lanes (w : Z) : list Z :=
  map (λ n, Z.land (Z.shiftr w (8 * n)) 0xff) [0; 1; 2; 3].

(** One read cycle: the lanes of [KBC_KP_ENT0_0], then those of
    [KBC_KP_ENT1_0]. *)
Definition fifo_lanes (k : tegra_kbc) : list Z :=
  word_lanes (mmio k KBC_KP_ENT0_0) ++ word_lanes (mmio k KBC_KP_ENT1_0).

(** A byte lane: bit 7 valid, bits 0-2 column, bits 3-6 row. *)
Definition lane_valid (b : Z) : bool := Z.testbit b 7.
Definition lane_col (b : Z) : Z := Z.land b 0x07.
Definition lane_row (b : Z) : Z := Z.land (Z.shiftr b 3) 0x0f.
Definition lane_scancode (b : Z) : Z :=
  MATRIX_SCAN_CODE (lane_row b) (lane_col b) KBC_ROW_SHIFT.

(** Row and column of a scan code. *)
Definition scancode_row (s : Z) : Z := Z.shiftr s KBC_ROW_SHIFT.
Definition scancode_col (s : Z) : Z := Z.land s 0x07.

(** [has_pair R l]: some two entries of [l], at different places, are
    related by [R] (the earlier one first). *)
Fixpoint has_pair {A} (R : A → A → bool) (l : list A) : bool :=
  match l with
  | [] => false
  | x :: t => existsb (R x) t || has_pair R t
  end.

(** Some unordered pair of entries has the same [f]. *)
Definition pair_sharing (f : Z → Z) (l : list Z) : Prop :=
  ∃ i j s t, i ≠ j ∧ l !! i = Some s ∧ l !! j = Some t ∧ f s = f t.

Definition row_collision (sc : list Z) : bool :=
  has_pair (λ s t, scancode_row s =? scancode_row t) sc.
Definition column_collision (sc : list Z) : bool :=
  has_pair (λ s t, scancode_col s =? scancode_col t) sc.

(** [a[0..n)], read the way the driver reads it. *)
Definition array_prefix (a : list Z) (n : nat) : list Z :=
  map (λ i, a !!! i) (seq 0 n).

Definition CurrentKeys (k : tegra_kbc) : list Z :=
  array_prefix (current_keys k) (num_pressed_keys k).

Section Sample.

Variable KBC_MAX_KEY : Z.
Variable KEY_FN : Z.

(** The lane holds the alternate-layer key and the Fn map is in use. *)
Definition lane_is_fn (k : tegra_kbc) (b : Z) : bool :=
  (keycode k !!! Z.to_nat (lane_scancode b) =? KEY_FN) && use_fn_map k.

(** Scan codes of the sample once the alternate-layer key is consumed:
    the matrix positions that are down. *)
Definition sample_positions (k : tegra_kbc) : list Z :=
  map lane_scancode
    (List.filter (λ b, lane_valid b && negb (lane_is_fn k b)) (fifo_lanes k)).

Definition sample_fn (k : tegra_kbc) : bool :=
  existsb (λ b, lane_valid b && lane_is_fn k b) (fifo_lanes k).

(** The reported set: scan codes and output codes, in FIFO order.  The
    scan codes are [unsigned char]. *)
Definition alternate_layer (s : Z) : Z := u8 (s + KBC_MAX_KEY).

Definition sample_scancodes (k : tegra_kbc) : list Z :=
  if sample_fn k then map alternate_layer (sample_positions k)
  else sample_positions k.

Definition sample_keycodes (k : tegra_kbc) : list Z :=
  map (λ s, keycode k !!! Z.to_nat s) (sample_scancodes k).

Definition sample_ghosted (k : tegra_kbc) : bool :=
  use_ghost_filter k && (3 <=? length (sample_positions k))%nat
  && row_collision (sample_positions k)
  && column_collision (sample_positions k).

(** What the decode loop leaves in the locals. *)
Definition decoded (k : tegra_kbc) (l : report_locals) : Prop :=
  num_down l = length (sample_positions k) ∧
  take (num_down l) (scancodes l) = sample_positions k ∧
  take (num_down l) (keycodes l)
    = map (λ s, keycode k !!! Z.to_nat s) (sample_positions k) ∧
  fn_keypress l = sample_fn k ∧
  length (scancodes l) = KBC_MAX_KPENT ∧
  length (keycodes l) = KBC_MAX_KPENT ∧
  key_in_same_row l = false ∧
  key_in_same_col l = false.

(** The event batch of a reported sample, from the keys held before. *)
Definition key_absent (new : list Z) (c : Z) : bool :=
  negb (bool_decide (c ∈ new)).

Definition release_events (held new : list Z) : list input_ev :=
  map (λ c, EvKey c 0) (List.filter (key_absent new) held).

Definition press_events (scancodes keycodes : list Z) : list input_ev :=
  concat (zip_with (λ s c, [EvMscScan s; EvKey c 1]) scancodes keycodes).

Definition sample_batch (k : tegra_kbc) : list input_ev :=
  release_events (CurrentKeys k) (sample_keycodes k)
  ++ press_events (sample_scancodes k) (sample_keycodes k)
  ++ [EvSync].

End Sample.

(** The keys the event sink holds down: pressed, and not released since. *)
Definition sink_step (held : gset Z) (e : input_ev) : gset Z :=
  match e with
  | EvKey c v => if v =? 0 then held ∖ {[c]} else {[c]} ∪ held
  | _ => held
  end.

Definition sink_held (events : list input_ev) : gset Z :=
  foldl sink_step ∅ events.

(** [CurrentKeys] is the set of keys the sink holds down. *)
Definition keys_in_sync (k : tegra_kbc) : Prop :=
  list_to_set (CurrentKeys k) = sink_held (idev k).

(** What the device stop path is about: the controller enable bit, whether
    the interrupt line is masked, the pending timer, and [is_open]. *)
Definition device_state (k : tegra_kbc) : bool * bool * option expiry * Z :=
  (negb (Z.land (mmio k KBC_CONTROL_0) KBC_CONTROL_KBC_EN =? 0),
   bool_decide (0 < irq k)%nat,
   timer k, is_open k).

(** What one wake key does to the mask word at [offset]: it clears its
    column bit if the word is the mask register of its row. *)
Definition clear_wake_bit (offset : Z) (v : Z) (w : tegra_kbc_wake_key) : Z :=
  if decide (wk_row w * 4 + KBC_ROW0_MASK_0 = offset)
  then Z.land v (u32 (Z.lnot (Z.shiftl 1 (wk_col w))))
  else v.

Global Instance tegra_kbc_wake_key_eq_dec : EqDecision tegra_kbc_wake_key.
Proof. solve_decision. Defined.

(** ** Operations of the scan engine, as steps of the driver state *)

Inductive kbc_step (KBC_MAX_KEY KEY_FN : Z) : tegra_kbc → tegra_kbc → Prop :=
  | step_report_keys fr k :
      kbc_step KBC_MAX_KEY KEY_FN k
        (exec (tegra_kbc_report_keys KBC_MAX_KEY KEY_FN fr) k)
  | step_keypress_timer fr k :
      kbc_step KBC_MAX_KEY KEY_FN k
        (exec (tegra_kbc_keypress_timer KBC_MAX_KEY KEY_FN fr) k)
  | step_isr k :
      kbc_step KBC_MAX_KEY KEY_FN k (exec tegra_kbc_isr k)
  | step_stop k :
      kbc_step KBC_MAX_KEY KEY_FN k (exec tegra_kbc_stop k).

Inductive kbc_run (KBC_MAX_KEY KEY_FN : Z) : tegra_kbc → tegra_kbc → Prop :=
  | run_done k : kbc_run KBC_MAX_KEY KEY_FN k k
  | run_step k k' k'' :
      kbc_step KBC_MAX_KEY KEY_FN k k' →
      kbc_run KBC_MAX_KEY KEY_FN k' k'' →
      kbc_run KBC_MAX_KEY KEY_FN k k''.

(** ** Example states

    A Tegra 2 set-up: 16 rows of 8 columns, so [KBC_MAX_KEY] is 128;
    [KEY_FN] is 0x1d0.  The key map sends the scan code 2 to [KEY_FN] and
    every other index [i] to [1000 + i]. *)

Definition example_keymap : list Z :=
  map (λ i, if (i =? 2)%nat then 0x1d0 else 1000 + Z.of_nat i) (seq 0 256).

Definition example_regs (int_0 kp_ent0 kp_ent1 : Z) : Z → Z :=
  λ offset,
    if offset =? KBC_INT_0 then int_0
    else if offset =? KBC_KP_ENT0_0 then kp_ent0
    else if offset =? KBC_KP_ENT1_0 then kp_ent1
    else 0.

Definition example_kbc (int_0 kp_ent0 kp_ent1 : Z) (ghost_filter : bool)
    (events : list input_ev) (held : list Z) : tegra_kbc :=
  TegraKbc (example_regs int_0 kp_ent0 kp_ent1) [] events O 5 3
    true ghost_filter false (PlatformData [WakeKey 1 2; WakeKey 3 4])
    example_keymap (held ++ replicate (KBC_MAX_KPENT - length held) 0)
    (length held) None 1%nat 1.

Definition example_frame : stack_frame := StackFrame (λ _, 0) (λ _, 0).

(** ** Pin set-up and power management

    The remaining functions of the driver that touch the controller: the
    check and the programming of the pin configuration, and the suspend and
    resume paths. *)

Definition KBC_CONTROL_KEYPRESS_INT_EN : Z := Z.shiftl 1 1.
Definition KBC_ROW_CFG0_0 : Z := 0x8.
Definition KBC_COL_CFG0_0 : Z := 0x18.
Definition KBC_TO_CNT_0 : Z := 0x24.

(** [enum tegra_pin_type] and [struct tegra_kbc_pin_cfg] of
    [linux/input/tegra_kbc.h], which is not part of the sources.
    [PIN_CFG_invalid] stands for a value outside the enumeration, the
    [default] case of [tegra_kbc_check_pin_cfg]. *)
Inductive tegra_pin_type : Type :=
  | PIN_CFG_IGNORE
  | PIN_CFG_COL
  | PIN_CFG_ROW
  | PIN_CFG_invalid.

Record tegra_kbc_pin_cfg : Type := PinCfg {
  pc_type : tegra_pin_type;
  pc_num : Z
}.

Global Instance tegra_kbc_pin_cfg_inhabited : Inhabited tegra_kbc_pin_cfg :=
  populate (PinCfg PIN_CFG_IGNORE 0).

(** The driver state together with what the power management path reads
    and writes beside it: the fields [cp_to_wkup_dly] and [wakeup_key] of
    [struct tegra_kbc], whether the device may wake the system
    ([device_may_wakeup]), the number of users of the input device
    ([idev->users]) and the wake enable depth of the interrupt line. *)
Record tegra_kbc_device : Type := KbcDevice {
  kbc : tegra_kbc;
  cp_to_wkup_dly : Z;
  wakeup_key : Z;
  may_wakeup : bool;
  users : nat;
  irq_wake : nat
}.

Definition set_kbc (k : tegra_kbc) (d : tegra_kbc_device) : tegra_kbc_device :=
  KbcDevice k (cp_to_wkup_dly d) (wakeup_key d) (may_wakeup d) (users d)
    (irq_wake d).

(** [enable_irq] takes one from the disable depth. *)
Definition enable_irq : kbc_op unit := op_modify (set_irq Nat.pred).

Section Pins.

(** Constants of [linux/input/tegra_kbc.h]. *)
Variable KBC_MAX_GPIO : nat.
Variable KBC_MAX_ROW : nat.
Variable KBC_MAX_COL : nat.

(** The loop of [tegra_kbc_check_pin_cfg] from pin [i] on, [n] pins to
    go; the result is the return value and [*num_rows].  The messages of
    [dev_err] are left out. *)
Fixpoint tegra_kbc_check_pin_cfg_from (pin_cfg : list tegra_kbc_pin_cfg)
    (i n : nat) (num_rows : nat) : bool * nat :=
  match n with
  | O => (true, num_rows)
  | S n' =>
      let pin := pin_cfg !!! i in
      match pc_type pin with
      | PIN_CFG_ROW =>
          if Z.of_nat KBC_MAX_ROW <=? pc_num pin then (false, num_rows)
          else tegra_kbc_check_pin_cfg_from pin_cfg (S i) n' (S num_rows)
      | PIN_CFG_COL =>
          if Z.of_nat KBC_MAX_COL <=? pc_num pin then (false, num_rows)
          else tegra_kbc_check_pin_cfg_from pin_cfg (S i) n' num_rows
      | PIN_CFG_IGNORE =>
          tegra_kbc_check_pin_cfg_from pin_cfg (S i) n' num_rows
      | PIN_CFG_invalid => (false, num_rows)
      end
  end.

Definition tegra_kbc_check_pin_cfg (pin_cfg : list tegra_kbc_pin_cfg)
    : bool * nat :=
  tegra_kbc_check_pin_cfg_from pin_cfg O KBC_MAX_GPIO O.

(** Body of the loop of [tegra_kbc_config_pins], for pin [i] of
    [pdata->pin_cfg]. *)
Definition tegra_kbc_config_pin (pin_cfg : list tegra_kbc_pin_cfg) (i : nat)
    (_ : unit) : kbc_op unit :=
  let r_shft := 5 * (Z.of_nat i mod 6) in
  let c_shft := 4 * (Z.of_nat i mod 8) in
  let r_mask := u32 (Z.shiftl 0x1f r_shft) in
  let c_mask := u32 (Z.shiftl 0x0f c_shft) in
  let r_offs := Z.of_nat i / 6 * 4 + KBC_ROW_CFG0_0 in
  let c_offs := Z.of_nat i / 8 * 4 + KBC_COL_CFG0_0 in
  do row_cfg <- readl r_offs;
  do col_cfg <- readl c_offs;
  let row_cfg := Z.land row_cfg (u32 (Z.lnot r_mask)) in
  let col_cfg := Z.land col_cfg (u32 (Z.lnot c_mask)) in
  let num := pc_num (pin_cfg !!! i) in
  let row_cfg :=
    match pc_type (pin_cfg !!! i) with
    | PIN_CFG_ROW =>
        Z.lor row_cfg (u32 (Z.shiftl (Z.lor (Z.shiftl num 1) 1) r_shft))
    | _ => row_cfg
    end in
  let col_cfg :=
    match pc_type (pin_cfg !!! i) with
    | PIN_CFG_COL =>
        Z.lor col_cfg (u32 (Z.shiftl (Z.lor (Z.shiftl num 1) 1) c_shft))
    | _ => col_cfg
    end in
  do_ writel row_cfg r_offs;
  writel col_cfg c_offs.

Definition tegra_kbc_config_pins (pin_cfg : list tegra_kbc_pin_cfg)
    : kbc_op unit :=
  for_op (tegra_kbc_config_pin pin_cfg) O KBC_MAX_GPIO tt.

End Pins.

(** The field of pin [i] in the row and the column configuration
    registers: five bits per pin, six pins per row word; four bits per
    pin, eight pins per column word. *)
Definition row_cfg_field (m : Z → Z) (i : nat) : Z :=
  Z.land (Z.shiftr (m (Z.of_nat i / 6 * 4 + KBC_ROW_CFG0_0))
            (5 * (Z.of_nat i mod 6))) 0x1f.

Definition col_cfg_field (m : Z → Z) (i : nat) : Z :=
  Z.land (Z.shiftr (m (Z.of_nat i / 8 * 4 + KBC_COL_CFG0_0))
            (4 * (Z.of_nat i mod 8))) 0x0f.

(** Bit [n] of the register at [offset] belongs to the row field, or to
    the column field, of pin [i]. *)
Definition row_cfg_bit (i : nat) (offset n : Z) : bool :=
  (offset =? Z.of_nat i / 6 * 4 + KBC_ROW_CFG0_0)
  && (5 * (Z.of_nat i mod 6) <=? n) && (n <? 5 * (Z.of_nat i mod 6) + 5).

Definition col_cfg_bit (i : nat) (offset n : Z) : bool :=
  (offset =? Z.of_nat i / 8 * 4 + KBC_COL_CFG0_0)
  && (4 * (Z.of_nat i mod 8) <=? n) && (n <? 4 * (Z.of_nat i mod 8) + 4).

(** What [tegra_kbc_config_pins] puts into the fields of a pin: the pin
    number shifted up by one with the low bit set, in the field that goes
    with the type of the pin, and 0 in the other. *)
Definition pin_cfg_code (p : tegra_kbc_pin_cfg) : Z :=
  Z.lor (Z.shiftl (pc_num p) 1) 1.

(** A pin whose number fits its field: below 16 for a row, below 8 for a
    column. *)
Definition pin_fits (p : tegra_kbc_pin_cfg) : Prop :=
  0 <= pc_num p ∧
  (pc_type p = PIN_CFG_ROW → pc_num p < 16) ∧
  (pc_type p = PIN_CFG_COL → pc_num p < 8).

(** A pin the check accepts. *)
Definition pin_cfg_ok (KBC_MAX_ROW KBC_MAX_COL : nat) (p : tegra_kbc_pin_cfg)
    : bool :=
  match pc_type p with
  | PIN_CFG_ROW => pc_num p <? Z.of_nat KBC_MAX_ROW
  | PIN_CFG_COL => pc_num p <? Z.of_nat KBC_MAX_COL
  | PIN_CFG_IGNORE => true
  | PIN_CFG_invalid => false
  end.

(** The pins before the first one that [ok] rejects. *)
Fixpoint accepted_pins (ok : tegra_kbc_pin_cfg → bool)
    (l : list tegra_kbc_pin_cfg) : list tegra_kbc_pin_cfg :=
  match l with
  | [] => []
  | p :: t => if ok p then p :: accepted_pins ok t else []
  end.

Definition pin_is_row (p : tegra_kbc_pin_cfg) : bool :=
  match pc_type p with PIN_CFG_ROW => true | _ => false end.

Definition pin_is_col (p : tegra_kbc_pin_cfg) : bool :=
  match pc_type p with PIN_CFG_COL => true | _ => false end.

Section PowerManagement.

Variable KBC_MAX_ROW : nat.
Variable KBC_MAX_KEY : Z.

(** [tegra_kbc_start] resets the controller and drains its FIFO, which
    depends on how the hardware answers; the resume path takes it as it
    comes. *)
Variable tegra_kbc_start : kbc_op Z.

Definition tegra_kbc_set_keypress_interrupt (enable : bool) : kbc_op unit :=
  do val <- readl KBC_CONTROL_0;
  let val :=
    if enable then Z.lor val KBC_CONTROL_KEYPRESS_INT_EN
    else Z.land val (u32 (Z.lnot KBC_CONTROL_KEYPRESS_INT_EN)) in
  writel val KBC_CONTROL_0.

(** The result is the return value and the device; there is none when
    [tegra_kbc_setup_wakekeys] stops at its [BUG_ON].  The mutex of the
    input device and [msleep] are left out. *)
Definition tegra_kbc_suspend (d : tegra_kbc_device)
    : option (Z * tegra_kbc_device) :=
  if is_open (kbc d) =? 0 then Some (0, d)
  else if may_wakeup d then
    let '(to_cnt, k) :=
      (do_ disable_irq;
       do_ del_timer_sync;
       do_ tegra_kbc_set_fifo_interrupt false;
       do_ writel 0x7 KBC_INT_0;
       do to_cnt <- readl KBC_TO_CNT_0;
       do_ writel 0 KBC_TO_CNT_0;
       op_ret to_cnt) (kbc d) in
    match tegra_kbc_setup_wakekeys KBC_MAX_ROW KBC_MAX_KEY true k with
    | None => None
    | Some k =>
        let k :=
          exec (do_ op_modify (set_keypress_caused_wake false);
                do_ tegra_kbc_set_keypress_interrupt true;
                enable_irq) k in
        Some (0, KbcDevice k to_cnt (wakeup_key d) (may_wakeup d) (users d)
                   (S (irq_wake d)))
    end
  else if (0 <? users d)%nat then Some (0, set_kbc (exec tegra_kbc_stop (kbc d)) d)
  else Some (0, d).

Definition tegra_kbc_resume (d : tegra_kbc_device)
    : option (Z * tegra_kbc_device) :=
  if is_open (kbc d) =? 0 then
    let '(err, k) := tegra_kbc_start (kbc d) in Some (err, set_kbc k d)
  else if may_wakeup d then
    match tegra_kbc_setup_wakekeys KBC_MAX_ROW KBC_MAX_KEY false (kbc d) with
    | None => None
    | Some k =>
        let k :=
          exec (do_ tegra_kbc_set_keypress_interrupt false;
                do_ writel (cp_to_wkup_dly d) KBC_TO_CNT_0;
                do_ tegra_kbc_set_fifo_interrupt true;
                do kbc <- op_get;
                if keypress_caused_wake kbc && negb (wakeup_key d =? 0) then
                  do_ op_modify (set_idev (λ input,
                        input_report_key input (wakeup_key d) 1));
                  do_ op_modify (set_idev (λ input,
                        input_report_key input (wakeup_key d) 0));
                  op_modify (set_idev input_sync)
                else op_ret tt) k in
        Some (0, KbcDevice k (cp_to_wkup_dly d) (wakeup_key d) (may_wakeup d)
                   (users d) (Nat.pred (irq_wake d)))
    end
  else if (0 <? users d)%nat then
    let '(err, k) := tegra_kbc_start (kbc d) in Some (err, set_kbc k d)
  else Some (0, d).

End PowerManagement.

(** Two driver states that differ at most in the register file and in
    the log of bus accesses. *)
Definition same_but_registers (k k' : tegra_kbc) : Prop :=
  idev k' = idev k ∧ irq k' = irq k ∧ repoll_dly k' = repoll_dly k ∧
  cp_dly_jiffies k' = cp_dly_jiffies k ∧ use_fn_map k' = use_fn_map k ∧
  use_ghost_filter k' = use_ghost_filter k ∧
  keypress_caused_wake k' = keypress_caused_wake k ∧ pdata k' = pdata k ∧
  keycode k' = keycode k ∧ current_keys k' = current_keys k ∧
  num_pressed_keys k' = num_pressed_keys k ∧ timer k' = timer k ∧
  clk k' = clk k ∧ is_open k' = is_open k.

(** The arrays of the driver state keep their declared size. *)
Definition keys_in_bounds (k : tegra_kbc) : Prop :=
  length (current_keys k) = KBC_MAX_KPENT ∧
  (num_pressed_keys k ≤ KBC_MAX_KPENT)%nat.

(** Example pin configuration: pins 0-2 are the rows 0-2, pins 3-4 the
    columns 0-1, the other pins are not used. *)
Definition example_pin_cfg : list tegra_kbc_pin_cfg :=
  [PinCfg PIN_CFG_ROW 0; PinCfg PIN_CFG_ROW 1; PinCfg PIN_CFG_ROW 2;
   PinCfg PIN_CFG_COL 0; PinCfg PIN_CFG_COL 1]
  ++ replicate 19 (PinCfg PIN_CFG_IGNORE 0).

Definition example_device (k : tegra_kbc) : tegra_kbc_device :=
  KbcDevice k 0 0x8f true 1 O.

Ltac kbc_pm_ops :=
  cbv beta iota zeta delta
    [exec op_bind op_ret op_get op_modify readl writel mod_timer
     del_timer_sync disable_irq enable_irq clk_disable_unprepare
     tegra_kbc_set_fifo_interrupt tegra_kbc_set_keypress_interrupt];
  cbn [fst snd].

Ltac kbc_fields :=
  cbn [mmio bus idev irq repoll_dly cp_dly_jiffies use_fn_map
    use_ghost_filter keypress_caused_wake pdata keycode current_keys
    num_pressed_keys timer clk is_open
    set_mmio set_bus set_idev set_irq set_keypress_caused_wake
    set_current_keys set_num_pressed_keys set_timer set_clk set_is_open].

Ltac kbc_ops :=
  cbv beta iota zeta delta
    [exec op_bind op_ret op_get op_modify readl writel mod_timer
     del_timer_sync disable_irq clk_disable_unprepare
     tegra_kbc_set_fifo_interrupt];
  cbn [fst snd].


(** ** Bit-level facts about byte lanes and scan codes *)



Lemma testbit_const_255 n : 0 <= n → Z.testbit 255 n = (n <? 8).
Proof. intros. change 255 with (Z.ones 8). by apply Z.testbit_ones_nonneg. Qed.

Lemma testbit_const_128 n : Z.testbit 128 n = (n =? 7).
Proof.
  change 128 with (2 ^ 7). destruct (Z.eqb_spec n 7) as [->|Hne].
  - apply Z.pow2_bits_true; lia.
  - apply Z.pow2_bits_false; lia.
Qed.

Lemma land_128_testbit v : negb (Z.land v 0x80 =? 0) = Z.testbit v 7.
Proof.
  destruct (Z.testbit v 7) eqn:Hb.
  - apply negb_true_iff, Z.eqb_neq. intros H0.
    assert (Z.testbit (Z.land v 128) 7 = true) as Ht
      by (rewrite Z.land_spec, Hb, testbit_const_128; done).
    rewrite H0, Z.testbit_0_l in Ht. done.
  - apply negb_false_iff, Z.eqb_eq, Z.bits_inj'. intros n Hn.
    rewrite Z.land_spec, testbit_const_128, Z.testbit_0_l.
    destruct (Z.eqb_spec n 7) as [->|]; [by rewrite Hb|by rewrite andb_false_r].
Qed.

(** A lane's fields only depend on its own byte. *)
Lemma lane_valid_byte v : lane_valid (Z.land v 0xff) = Z.testbit v 7.
Proof.
  unfold lane_valid. rewrite Z.land_spec, testbit_const_255 by lia.
  by rewrite andb_true_r.
Qed.

Lemma lane_col_byte v : lane_col (Z.land v 0xff) = Z.land v 0x07.
Proof. unfold lane_col. by rewrite <- Z.land_assoc. Qed.

Lemma lane_row_byte v : lane_row (Z.land v 0xff) = Z.land (Z.shiftr v 3) 0x0f.
Proof. unfold lane_row. by rewrite Z.shiftr_land, <- Z.land_assoc. Qed.

Lemma lane_col_range b : 0 <= lane_col b < 8.
Proof.
  unfold lane_col. change 7 with (Z.ones 3).
  rewrite Z.land_ones by lia. apply Z.mod_pos_bound. lia.
Qed.

Lemma lane_row_range b : 0 <= lane_row b < 16.
Proof.
  unfold lane_row. change 15 with (Z.ones 4).
  rewrite Z.land_ones by lia. apply Z.mod_pos_bound. lia.
Qed.

(** For a column below 8 the scan code is [row * 8 + col]: the bits of the
    two fields do not overlap. *)
Lemma land_row_col_disjoint row col :
  0 <= col < 8 → Z.land (row * 8) col = 0.
Proof.
  intros Hc. apply Z.bits_inj'. intros n Hn.
  rewrite Z.land_spec, Z.testbit_0_l. destruct (Z.ltb_spec n 3).
  - replace (row * 8) with (row * 2 ^ 3) by lia.
    rewrite Z.mul_pow2_bits_low; [done|lia].
  - rewrite (Z.bits_above_log2 col n), andb_false_r; [done|lia|].
    destruct (decide (col = 0)) as [->|]; [simpl; lia|].
    apply Z.log2_lt_pow2; [lia|].
    assert (2 ^ 3 <= 2 ^ n) by (apply Z.pow_le_mono_r; lia). lia.
Qed.

Lemma MATRIX_SCAN_CODE_add row col :
  0 <= col < 8 →
  MATRIX_SCAN_CODE row col KBC_ROW_SHIFT = row * 8 + col.
Proof.
  intros Hc. unfold MATRIX_SCAN_CODE, KBC_ROW_SHIFT.
  rewrite Z.shiftl_mul_pow2 by lia. change (2 ^ 3) with 8.
  rewrite <- Z.lxor_lor, <- Z.add_nocarry_lxor;
    auto using land_row_col_disjoint.
Qed.

Lemma lane_scancode_add b : lane_scancode b = lane_row b * 8 + lane_col b.
Proof. apply MATRIX_SCAN_CODE_add, lane_col_range. Qed.

Lemma lane_scancode_range b : 0 <= lane_scancode b < 128.
Proof.
  rewrite lane_scancode_add.
  pose proof (lane_row_range b). pose proof (lane_col_range b). lia.
Qed.

Lemma lane_scancode_u8 b : u8 (lane_scancode b) = lane_scancode b.
Proof.
  unfold u8. apply Z.mod_small. pose proof (lane_scancode_range b).
  change (2 ^ 8) with 256. lia.
Qed.

(** The encoding of a matrix position as a scan code can be read back. *)
Lemma scancode_row_lane b : scancode_row (lane_scancode b) = lane_row b.
Proof.
  unfold scancode_row, KBC_ROW_SHIFT. rewrite lane_scancode_add.
  rewrite Z.shiftr_div_pow2 by lia. change (2 ^ 3) with 8.
  pose proof (lane_col_range b).
  rewrite Z.div_add_l by lia. rewrite Z.div_small by lia. lia.
Qed.

Lemma scancode_col_lane b : scancode_col (lane_scancode b) = lane_col b.
Proof.
  unfold scancode_col. rewrite lane_scancode_add.
  change 7 with (Z.ones 3). rewrite Z.land_ones by lia.
  change (2 ^ 3) with 8. pose proof (lane_col_range b).
  rewrite Z.add_comm, Z.mod_add by lia. apply Z.mod_small. lia.
Qed.

Lemma scancode_fields_u8 b :
  u8 (Z.land (lane_scancode b) 0x07) = scancode_col (lane_scancode b) ∧
  u8 (Z.shiftr (lane_scancode b) KBC_ROW_SHIFT) = scancode_row (lane_scancode b).
Proof.
  fold (scancode_col (lane_scancode b)). fold (scancode_row (lane_scancode b)).
  rewrite scancode_col_lane, scancode_row_lane.
  pose proof (lane_col_range b). pose proof (lane_row_range b).
  unfold u8. change (2 ^ 8) with 256. split; apply Z.mod_small; lia.
Qed.

(** ** Loops *)

Lemma for__ext {L} (f g : nat → L → L) i n l :
  (∀ j x, f j x = g j x) → for_ f i n l = for_ g i n l.
Proof.
  intros Hfg. revert i l. induction n as [|n IH]; intros i l; [done|].
  simpl. by rewrite Hfg, IH.
Qed.

(** A loop that only appends to a log appends the pieces in index order. *)
Lemma for__append {E} (f : nat → list E) i n (log : list E) :
  for_ (λ j log, log ++ f j) i n log = log ++ concat (map f (seq i n)).
Proof.
  revert i log. induction n as [|n IH]; intros i log; simpl.
  - by rewrite app_nil_r.
  - by rewrite IH, <- app_assoc.
Qed.

Lemma array_prefix_take (a : list Z) n :
  (n ≤ length a)%nat → array_prefix a n = take n a.
Proof.
  intros Hn. unfold array_prefix. apply list_eq. intros i.
  rewrite list_lookup_fmap. destruct (decide (i < n)%nat) as [Hi|Hi].
  - rewrite lookup_seq_lt by done. simpl. rewrite lookup_take_lt by done.
    symmetry. apply list_lookup_lookup_total_lt. lia.
  - rewrite lookup_seq_ge by lia. simpl. symmetry.
    apply lookup_ge_None_2. rewrite length_take. lia.
Qed.

Lemma array_prefix_length a n : length (array_prefix a n) = n.
Proof. unfold array_prefix. by rewrite length_map, length_seq. Qed.

Lemma array_prefix_app_l (l r : list Z) :
  array_prefix (l ++ r) (length l) = l.
Proof.
  rewrite array_prefix_take by (rewrite length_app; lia).
  by rewrite take_app_length.
Qed.

(** ** The decode loop *)

(** The entries are decoded against the key map and the Fn setting, which
    bus accesses leave alone. *)
Lemma report_keys_entry_set_bus KEY_FN f k v l :
  report_keys_entry KEY_FN (set_bus f k) v l = report_keys_entry KEY_FN k v l.
Proof. reflexivity. Qed.

Section DecodeFacts.

Variable KEY_FN : Z.
Variable k : tegra_kbc.

Let byte (v : Z) : Z := Z.land v 0xff.
Let keep (b : Z) : bool := lane_valid b && negb (lane_is_fn KEY_FN k b).
Let lookup_key (b : Z) : Z := keycode k !!! Z.to_nat (lane_scancode b).

(** One entry, read through its byte lane. *)
Lemma report_keys_entry_lane v l :
  (num_down l < length (keycodes l))%nat →
  report_keys_entry KEY_FN k v l =
    if lane_valid (byte v) then
      let scs := <[num_down l := lane_scancode (byte v)]> (scancodes l) in
      let kcs := <[num_down l := lookup_key (byte v)]> (keycodes l) in
      if lane_is_fn KEY_FN k (byte v)
      then Locals scs kcs (Z.shiftr v 8) (num_down l) true
             (key_in_same_row l) (key_in_same_col l)
      else Locals scs kcs (Z.shiftr v 8) (S (num_down l)) (fn_keypress l)
             (key_in_same_row l) (key_in_same_col l)
    else Locals (scancodes l) (keycodes l) (Z.shiftr v 8) (num_down l)
           (fn_keypress l) (key_in_same_row l) (key_in_same_col l).
Proof.
  intros Hn. unfold report_keys_entry, byte, lookup_key.
  rewrite land_128_testbit, lane_valid_byte.
  destruct (Z.testbit v 7); [|done].
  assert (u8 (MATRIX_SCAN_CODE (Z.land (Z.shiftr v 3) 15) (Z.land v 7)
                KBC_ROW_SHIFT) = lane_scancode (Z.land v 255)) as ->.
  { rewrite <- lane_scancode_u8. unfold lane_scancode.
    by rewrite lane_row_byte, lane_col_byte. }
  rewrite list_lookup_total_insert_eq by done.
  unfold lane_is_fn. by destruct (_ && _).
Qed.

Lemma report_keys_entries vs : ∀ l,
  (num_down l + length vs ≤ length (scancodes l))%nat →
  length (scancodes l) = length (keycodes l) →
  let l' := foldl (λ l v, report_keys_entry KEY_FN k v l) l vs in
  let kept := List.filter keep (map byte vs) in
  num_down l' = (num_down l + length kept)%nat ∧
  take (num_down l') (scancodes l')
    = take (num_down l) (scancodes l) ++ map lane_scancode kept ∧
  take (num_down l') (keycodes l')
    = take (num_down l) (keycodes l) ++ map lookup_key kept ∧
  fn_keypress l'
    = fn_keypress l
      || existsb (λ b, lane_valid b && lane_is_fn KEY_FN k b) (map byte vs) ∧
  length (scancodes l') = length (scancodes l) ∧
  length (keycodes l') = length (keycodes l) ∧
  key_in_same_row l' = key_in_same_row l ∧
  key_in_same_col l' = key_in_same_col l.
Proof.
  induction vs as [|v vs IH]; intros l Hlen Heq; simpl.
  - rewrite !app_nil_r, orb_false_r, Nat.add_0_r. done.
  - simpl in Hlen.
    rewrite report_keys_entry_lane by lia.
    assert (keep (byte v)
            = lane_valid (byte v) && negb (lane_is_fn KEY_FN k (byte v)))
      as Hk by done.
    rewrite Hk.
    destruct (lane_valid (byte v)) eqn:Hv; simpl;
      [destruct (lane_is_fn KEY_FN k (byte v)) eqn:Hfn; simpl|];
      (match goal with |- context [foldl _ ?l0 vs] =>
         destruct (IH l0) as (H1 & H2 & H3 & H4 & H5 & H6 & H7 & H8) end;
       simpl; rewrite ?length_insert; [lia|done|]);
      simpl in *; rewrite ?length_insert in *.
    + rewrite !take_insert_ge in * by lia. by rewrite orb_true_r.
    + rewrite (take_S_r _ _ (lane_scancode (byte v))) in H2
        by (apply list_lookup_insert_eq; lia).
      rewrite (take_S_r _ _ (lookup_key (byte v))) in H3
        by (apply list_lookup_insert_eq; lia).
      rewrite !take_insert_ge in * by lia.
      rewrite <- !app_assoc in *. simpl in *.
      repeat split; try done. lia.
    + done.
Qed.

(** The loop makes two reads, one for each FIFO word, and goes through
    the eight entries they hold. *)
Lemma report_keys_decode_run l :
  for_op (report_keys_decode KEY_FN) O KBC_MAX_KPENT l k =
    (let s v := Z.shiftr v 8 in
     let w0 := mmio k KBC_KP_ENT0_0 in
     let w1 := mmio k KBC_KP_ENT1_0 in
     foldl (λ l v, report_keys_entry KEY_FN k v l) l
       [w0; s w0; s (s w0); s (s (s w0)); w1; s w1; s (s w1); s (s (s w1))],
     set_bus (λ b, b ++ [BusRead KBC_KP_ENT1_0])
       (set_bus (λ b, b ++ [BusRead KBC_KP_ENT0_0]) k)).
Proof.
  unfold KBC_MAX_KPENT, for_op, report_keys_decode, op_bind, op_ret, op_get,
    readl. simpl.
  rewrite !report_keys_entry_set_bus.
  change (KBC_KP_ENT0_0 + Z.of_nat 4) with KBC_KP_ENT1_0.
  change (KBC_KP_ENT0_0 + Z.of_nat 0) with KBC_KP_ENT0_0.
  reflexivity.
Qed.

Lemma fifo_lanes_vals :
  let s v := Z.shiftr v 8 in
  let w0 := mmio k KBC_KP_ENT0_0 in
  let w1 := mmio k KBC_KP_ENT1_0 in
  map byte [w0; s w0; s (s w0); s (s (s w0)); w1; s w1; s (s w1); s (s (s w1))]
  = fifo_lanes k.
Proof.
  unfold fifo_lanes, word_lanes, byte. simpl.
  rewrite !Z.shiftr_shiftr by lia. rewrite !Z.shiftr_0_r. reflexivity.
Qed.

End DecodeFacts.

(** ** The ghost check *)

Lemma has_pair_spec {A} (R : A → A → bool) (l : list A) :
  has_pair R l = true ↔
  ∃ i j x y, (i < j)%nat ∧ l !! i = Some x ∧ l !! j = Some y ∧ R x y = true.
Proof.
  induction l as [|a l IH]; simpl.
  - split; [done|]. intros (i & j & x & y & _ & Hi & _). done.
  - rewrite orb_true_iff, IH, existsb_exists. split.
    + intros [(y & Hy & HR)|(i & j & x & y & Hij & Hi & Hj & HR)].
      * apply list_elem_of_In, list_elem_of_lookup in Hy as [j Hj].
        exists O, (S j), a, y. repeat split; [lia|done..].
      * exists (S i), (S j), x, y. repeat split; [lia|done..].
    + intros (i & j & x & y & Hij & Hi & Hj & HR).
      destruct j as [|j]; [lia|]. destruct i as [|i]; simpl in *.
      * left. exists y. split; [|congruence].
        apply list_elem_of_In, list_elem_of_lookup. eauto.
      * right. exists i, j, x, y. repeat split; [lia|done..].
Qed.

Lemma existsb_ext_elem {A} (f g : A → bool) (l : list A) :
  (∀ y, y ∈ l → f y = g y) → existsb f l = existsb g l.
Proof.
  induction l as [|b l IH]; intros Hfg; simpl; [done|].
  rewrite Hfg by constructor. f_equal. apply IH.
  intros y Hy. apply Hfg. by constructor.
Qed.

Lemma has_pair_ext {A} (R R' : A → A → bool) (l : list A) :
  (∀ x y, x ∈ l → y ∈ l → R x y = R' x y) → has_pair R l = has_pair R' l.
Proof.
  induction l as [|a l IH]; intros HR; simpl; [done|].
  rewrite IH by (intros; apply HR; by constructor). f_equal.
  apply existsb_ext_elem. intros y Hy. apply HR; by repeat constructor.
Qed.

Lemma take_drop_lookup {A} `{Inhabited A} (a : list A) i m :
  (i < length a)%nat →
  take (S m) (drop i a) = a !!! i :: take m (drop (S i) a).
Proof.
  intros Hi. rewrite (drop_S a (a !!! i) i); [done|].
  by apply list_lookup_lookup_total_lt.
Qed.

Lemma report_keys_ghost_inner_run cc cr m : ∀ a l,
  (a + m ≤ length (scancodes l))%nat →
  for_ (report_keys_ghost_inner cc cr) a m l =
    Locals (scancodes l) (keycodes l) (val l) (num_down l) (fn_keypress l)
      (key_in_same_row l
       || existsb (λ s, u8 (Z.shiftr s KBC_ROW_SHIFT) =? cr)
            (take m (drop a (scancodes l))))
      (key_in_same_col l
       || existsb (λ s, u8 (Z.land s 0x07) =? cc)
            (take m (drop a (scancodes l)))).
Proof.
  induction m as [|m IH]; intros a l Hlen.
  - simpl. rewrite !orb_false_r. by destruct l.
  - simpl for_. rewrite IH by (simpl; lia).
    rewrite take_drop_lookup by lia. simpl.
    f_equal.
    + destruct (_ =? cr); simpl; [by rewrite orb_true_r|done].
    + destruct (_ =? cc); simpl; [by rewrite orb_true_r|done].
Qed.

Lemma report_keys_ghost_run m : ∀ i l,
  (i + m = num_down l)%nat → (num_down l ≤ length (scancodes l))%nat →
  for_ report_keys_ghost i m l =
    Locals (scancodes l) (keycodes l) (val l) (num_down l) (fn_keypress l)
      (key_in_same_row l
       || has_pair (λ s t, u8 (Z.shiftr t KBC_ROW_SHIFT)
                           =? u8 (Z.shiftr s KBC_ROW_SHIFT))
            (take m (drop i (scancodes l))))
      (key_in_same_col l
       || has_pair (λ s t, u8 (Z.land t 0x07) =? u8 (Z.land s 0x07))
            (take m (drop i (scancodes l)))).
Proof.
  induction m as [|m IH]; intros i l Hi Hlen.
  - simpl. rewrite !orb_false_r. by destruct l.
  - simpl for_. unfold report_keys_ghost at 2.
    rewrite report_keys_ghost_inner_run by lia.
    rewrite IH by (simpl; lia). simpl.
    rewrite take_drop_lookup by lia. simpl.
    replace (i + 1)%nat with (S i) by lia.
    replace (num_down l - S i)%nat with m by lia.
    by rewrite !orb_assoc.
Qed.

(** On scan codes of byte lanes the driver's comparisons are those of the
    row and column of the matrix position. *)
Lemma ghost_rows_lanes (bs : list Z) :
  has_pair (λ s t, u8 (Z.shiftr t KBC_ROW_SHIFT) =? u8 (Z.shiftr s KBC_ROW_SHIFT))
    (map lane_scancode bs)
  = row_collision (map lane_scancode bs).
Proof.
  apply has_pair_ext. intros x y Hx Hy.
  apply list_elem_of_fmap in Hx as (b & -> & _).
  apply list_elem_of_fmap in Hy as (c & -> & _).
  rewrite (proj2 (scancode_fields_u8 b)), (proj2 (scancode_fields_u8 c)).
  apply Z.eqb_sym.
Qed.

Lemma ghost_cols_lanes (bs : list Z) :
  has_pair (λ s t, u8 (Z.land t 0x07) =? u8 (Z.land s 0x07))
    (map lane_scancode bs)
  = column_collision (map lane_scancode bs).
Proof.
  apply has_pair_ext. intros x y Hx Hy.
  apply list_elem_of_fmap in Hx as (b & -> & _).
  apply list_elem_of_fmap in Hy as (c & -> & _).
  rewrite (proj1 (scancode_fields_u8 b)), (proj1 (scancode_fields_u8 c)).
  apply Z.eqb_sym.
Qed.

(** ** The Fn translation loop *)

Lemma report_keys_fn_run KBC_MAX_KEY kc m : ∀ i l,
  (i + m ≤ length (scancodes l))%nat →
  length (keycodes l) = length (scancodes l) →
  let l' := for_ (report_keys_fn KBC_MAX_KEY kc) i m l in
  (∀ j, scancodes l' !!! j =
        if decide (i ≤ j < i + m)%nat
        then alternate_layer KBC_MAX_KEY (scancodes l !!! j)
        else scancodes l !!! j) ∧
  (∀ j, keycodes l' !!! j =
        if decide (i ≤ j < i + m)%nat
        then kc !!! Z.to_nat (alternate_layer KBC_MAX_KEY (scancodes l !!! j))
        else keycodes l !!! j) ∧
  length (scancodes l') = length (scancodes l) ∧
  length (keycodes l') = length (keycodes l) ∧
  num_down l' = num_down l ∧
  key_in_same_row l' = key_in_same_row l ∧
  key_in_same_col l' = key_in_same_col l.
Proof.
  induction m as [|m IH]; intros i l Hlen Heq.
  - simpl. repeat split; try done; intros j; by rewrite decide_False by lia.
  - simpl for_.
    destruct (IH (S i) (report_keys_fn KBC_MAX_KEY kc i l))
      as (Hs & Hk & Hls & Hlk & Hn & Hr & Hc);
      simpl; rewrite ?length_insert; [lia|done|].
    simpl in *. rewrite ?length_insert in *.
    repeat split; try done.
    + intros j. rewrite Hs.
      destruct (decide (j = i)) as [->|Hne].
      * rewrite decide_False, decide_True by lia.
        by rewrite list_lookup_total_insert_eq by lia.
      * rewrite list_lookup_total_insert_ne by done.
        repeat case_decide; (done || lia).
    + intros j. rewrite Hk.
      destruct (decide (j = i)) as [->|Hne].
      * rewrite decide_False, decide_True by lia.
        by rewrite !list_lookup_total_insert_eq by lia.
      * rewrite !list_lookup_total_insert_ne by done.
        repeat case_decide; (done || lia).
Qed.

Lemma array_prefix_ext (a b : list Z) (f : Z → Z) n :
  (∀ j, (j < n)%nat → b !!! j = f (a !!! j)) →
  array_prefix b n = map f (array_prefix a n).
Proof.
  intros Hj. unfold array_prefix. rewrite map_map.
  apply map_ext_in. intros j [_ Hlt]%in_seq. apply Hj. lia.
Qed.

(** ** The release and press loops *)

Lemma concat_map_guard {A B C} (g : A → B) (p : B → bool) (h : B → C)
    (l : list A) :
  concat (map (λ i, if p (g i) then [h (g i)] else []) l)
  = map h (List.filter p (map g l)).
Proof.
  induction l as [|a l IH]; simpl; [done|].
  destruct (p (g a)); simpl; by rewrite IH.
Qed.

Lemma concat_map_pair {A C} (g h : A → Z) (f : Z → Z → list C) (l : list A) :
  concat (map (λ i, f (g i) (h i)) l)
  = concat (zip_with f (map g l) (map h l)).
Proof. induction l as [|a l IH]; simpl; [done|]. by rewrite IH. Qed.

Lemma report_released_keys_search_spec x (new : list Z) r : ∀ j,
  let j' := tegra_kbc_report_released_keys_search x new j r in
  (j ≤ j' ≤ j + r)%nat ∧
  (j' = (j + r)%nat ↔ ∀ t, (j ≤ t < j + r)%nat → new !!! t ≠ x).
Proof.
  induction r as [|r IH]; intros j; simpl.
  - split; [lia|]. split; [intros _ t Ht; lia|lia].
  - destruct (Z.eqb_spec x (new !!! j)) as [->|Hne].
    + split; [lia|]. split; [lia|]. intros Hall.
      exfalso. apply (Hall j); [lia|done].
    + destruct (IH (S j)) as [Hb Hiff]. split; [lia|].
      replace (j + S r)%nat with (S j + r)%nat by lia.
      rewrite Hiff. split.
      * intros Hall t Ht. destruct (decide (t = j)) as [->|]; [done|].
        apply Hall. lia.
      * intros Hall t Ht. apply Hall. lia.
Qed.

Lemma report_released_keys_search_found x (new : list Z) n :
  (tegra_kbc_report_released_keys_search x new O n =? n)%nat
  = key_absent (array_prefix new n) x.
Proof.
  unfold key_absent.
  destruct (report_released_keys_search_spec x new n O) as [_ Hiff].
  simpl in Hiff. destruct (Nat.eqb_spec
    (tegra_kbc_report_released_keys_search x new O n) n) as [He|He].
  - symmetry. apply negb_true_iff, bool_decide_eq_false.
    intros (j & Hj & Hin)%list_elem_of_fmap.
    apply list_elem_of_In, in_seq in Hin.
    apply (proj1 Hiff He j); [lia|done].
  - symmetry. apply negb_false_iff, bool_decide_eq_true.
    destruct (decide (x ∈ array_prefix new n)) as [|Hnot]; [done|].
    exfalso. apply He, Hiff. intros t Ht Heq. apply Hnot.
    apply list_elem_of_fmap. exists t. split; [done|].
    apply list_elem_of_In, in_seq. lia.
Qed.

Lemma tegra_kbc_report_released_keys_run input old old_num new new_num :
  tegra_kbc_report_released_keys input old old_num new new_num
  = input ++ release_events (array_prefix old old_num)
               (array_prefix new new_num).
Proof.
  unfold tegra_kbc_report_released_keys, release_events.
  rewrite (for__ext _ (λ i input, input ++
    (λ i, if key_absent (array_prefix new new_num) (old !!! i)
          then [EvKey (old !!! i) 0] else []) i)).
  - rewrite for__append. f_equal. unfold array_prefix at 2.
    apply (concat_map_guard (λ i, old !!! i)
             (key_absent (array_prefix new new_num)) (λ c, EvKey c 0)).
  - intros j x. cbv beta. rewrite report_released_keys_search_found.
    destruct (key_absent _ _); [done|by rewrite app_nil_r].
Qed.

Lemma tegra_kbc_report_pressed_keys_run input scs kcs n :
  tegra_kbc_report_pressed_keys input scs kcs n
  = input ++ press_events (array_prefix scs n) (array_prefix kcs n).
Proof.
  unfold tegra_kbc_report_pressed_keys, press_events.
  rewrite (for__ext _ (λ i input, input ++
    (λ i, [EvMscScan (scs !!! i); EvKey (kcs !!! i) 1]) i)).
  - rewrite for__append. f_equal.
    apply (concat_map_pair (λ i, scs !!! i) (λ i, kcs !!! i)
             (λ s c, [EvMscScan s; EvKey c 1])).
  - intros j x. unfold input_report_key, input_event_msc_scan.
    by rewrite <- app_assoc.
Qed.

(** ** One call of [tegra_kbc_report_keys] *)

Lemma auto_array_length c : length (auto_array c) = KBC_MAX_KPENT.
Proof. reflexivity. Qed.

Section ReportFacts.

Variable KBC_MAX_KEY : Z.
Variable KEY_FN : Z.
Variable k : tegra_kbc.

Lemma report_keys_decoded (fr : stack_frame) :
  decoded KEY_FN k
    (foldl (λ l v, report_keys_entry KEY_FN k v l)
       (Locals (auto_array (stack_scancodes fr))
          (auto_array (stack_keycodes fr)) 0 O false false false)
       (let s v := Z.shiftr v 8 in
        let w0 := mmio k KBC_KP_ENT0_0 in
        let w1 := mmio k KBC_KP_ENT1_0 in
        [w0; s w0; s (s w0); s (s (s w0)); w1; s w1; s (s w1); s (s (s w1))])).
Proof.
  match goal with |- decoded _ _ (foldl _ ?l0 ?vs) =>
    destruct (report_keys_entries KEY_FN k vs l0)
      as (Hn & Hs & Hk & Hfn & Hls & Hlk & Hr & Hc) end.
  { cbn [num_down scancodes length]. rewrite auto_array_length.
    unfold KBC_MAX_KPENT. lia. }
  { cbn [keycodes scancodes]. by rewrite !auto_array_length. }
  rewrite fifo_lanes_vals in Hn, Hs, Hk, Hfn.
  cbn [num_down scancodes keycodes fn_keypress key_in_same_row
       key_in_same_col take app orb Nat.add] in Hn, Hs, Hk, Hfn, Hls, Hlk, Hr, Hc.
  rewrite auto_array_length in Hls, Hlk.
  unfold decoded, sample_positions, sample_fn.
  rewrite length_map, map_map. done.
Qed.

Lemma decoded_num_down l :
  decoded KEY_FN k l → (num_down l ≤ length (scancodes l))%nat.
Proof.
  intros (Hn & Hs & _). apply (f_equal length) in Hs.
  rewrite length_take, <- Hn in Hs. lia.
Qed.

(** The locals after the ghost check. *)
Lemma report_keys_ghost_checked l :
  decoded KEY_FN k l →
  let l' := if use_ghost_filter k && (3 <=? num_down l)%nat
            then for_ report_keys_ghost O (num_down l) l else l in
  scancodes l' = scancodes l ∧ keycodes l' = keycodes l ∧
  num_down l' = num_down l ∧ fn_keypress l' = fn_keypress l ∧
  key_in_same_col l' && key_in_same_row l' = sample_ghosted KEY_FN k.
Proof.
  intros Hd. pose proof (decoded_num_down l Hd) as Hle.
  destruct Hd as (Hn & Hs & Hk & Hfn & Hls & Hlk & Hr & Hc).
  unfold sample_ghosted. rewrite <- Hn.
  destruct (use_ghost_filter k && (3 <=? num_down l)%nat) eqn:Hg; cbv zeta.
  - rewrite report_keys_ghost_run by (done || lia).
    cbn [scancodes keycodes num_down fn_keypress key_in_same_row
         key_in_same_col]. rewrite drop_0, Hs, Hr, Hc.
    unfold sample_positions at 1 2.
    rewrite ghost_rows_lanes, ghost_cols_lanes.
    fold (sample_positions KEY_FN k). cbn [orb andb].
    repeat split. apply andb_comm.
  - rewrite Hr, Hc. done.
Qed.

(** The locals after the Fn translation. *)
Lemma report_keys_translated l :
  (num_down l ≤ length (scancodes l))%nat →
  length (keycodes l) = length (scancodes l) →
  array_prefix (scancodes l) (num_down l) = sample_positions KEY_FN k →
  array_prefix (keycodes l) (num_down l)
    = map (λ s, keycode k !!! Z.to_nat s) (sample_positions KEY_FN k) →
  fn_keypress l = sample_fn KEY_FN k →
  let l' := if fn_keypress l
            then for_ (report_keys_fn KBC_MAX_KEY (keycode k)) O (num_down l) l
            else l in
  num_down l' = num_down l ∧
  array_prefix (scancodes l') (num_down l')
    = sample_scancodes KBC_MAX_KEY KEY_FN k ∧
  array_prefix (keycodes l') (num_down l')
    = sample_keycodes KBC_MAX_KEY KEY_FN k ∧
  length (keycodes l') = length (keycodes l) ∧
  key_in_same_row l' = key_in_same_row l ∧
  key_in_same_col l' = key_in_same_col l.
Proof.
  intros Hle Hlen Hs Hk Hfn. unfold sample_keycodes, sample_scancodes.
  rewrite <- Hfn.
  destruct (fn_keypress l); cbv zeta; [|by rewrite Hs, Hk].
  destruct (report_keys_fn_run KBC_MAX_KEY (keycode k) (num_down l) O l)
    as (Hs' & Hk' & Hls & Hlk & Hn & Hr & Hc); [lia|done|].
  rewrite Hn. repeat split; try done.
  - rewrite <- Hs. apply array_prefix_ext. intros j Hj.
    rewrite Hs'. by rewrite decide_True by lia.
  - rewrite <- Hs. unfold array_prefix. rewrite !map_map.
    apply map_ext_in. intros j [_ Hj]%in_seq.
    rewrite Hk'. by rewrite decide_True by lia.
Qed.

End ReportFacts.

(** Two driver states with the same fields are the same. *)
Lemma tegra_kbc_eq (a b : tegra_kbc) :
  mmio a = mmio b → bus a = bus b → idev a = idev b → irq a = irq b →
  repoll_dly a = repoll_dly b → cp_dly_jiffies a = cp_dly_jiffies b →
  use_fn_map a = use_fn_map b → use_ghost_filter a = use_ghost_filter b →
  keypress_caused_wake a = keypress_caused_wake b → pdata a = pdata b →
  keycode a = keycode b → current_keys a = current_keys b →
  num_pressed_keys a = num_pressed_keys b → timer a = timer b →
  clk a = clk b → is_open a = is_open b → a = b.
Proof. destruct a, b; simpl; intros; by subst. Qed.

Section ReportRun.

Variable KBC_MAX_KEY : Z.
Variable KEY_FN : Z.

Lemma tegra_kbc_report_keys_run (fr : stack_frame) (k : tegra_kbc) :
  ∃ rest : list Z,
    exec (tegra_kbc_report_keys KBC_MAX_KEY KEY_FN fr) k =
      let bus' := bus k ++ [BusRead KBC_KP_ENT0_0; BusRead KBC_KP_ENT1_0] in
      if sample_ghosted KEY_FN k then
        TegraKbc (mmio k) bus' (idev k) (irq k) (repoll_dly k)
          (cp_dly_jiffies k) (use_fn_map k) (use_ghost_filter k)
          (keypress_caused_wake k) (pdata k) (keycode k) (current_keys k)
          (num_pressed_keys k) (timer k) (clk k) (is_open k)
      else
        TegraKbc (mmio k) bus'
          (idev k ++ sample_batch KBC_MAX_KEY KEY_FN k)
          (irq k) (repoll_dly k)
          (cp_dly_jiffies k) (use_fn_map k) (use_ghost_filter k)
          (keypress_caused_wake k) (pdata k) (keycode k)
          (sample_keycodes KBC_MAX_KEY KEY_FN k ++ rest)
          (length (sample_keycodes KBC_MAX_KEY KEY_FN k))
          (timer k) (clk k) (is_open k).
Proof.
  unfold tegra_kbc_report_keys, exec, op_bind.
  rewrite report_keys_decode_run.
  pose proof (report_keys_decoded KEY_FN k fr) as Hd.
  match type of Hd with decoded _ _ ?l => set (l1 := l) in * end.
  unfold op_get.
  set (k1 := set_bus _ (set_bus _ k)).
  change (use_ghost_filter k1) with (use_ghost_filter k).
  change (keycode k1) with (keycode k).
  change (current_keys k1) with (current_keys k).
  change (num_pressed_keys k1) with (num_pressed_keys k).
  pose proof (report_keys_ghost_checked KEY_FN k l1 Hd) as Hg.
  pose proof (decoded_num_down KEY_FN k l1 Hd) as Hle.
  destruct Hd as (Hn & Hs & Hk & Hfn & Hls & Hlk & Hr & Hc).
  set (l2 := if use_ghost_filter k && (3 <=? num_down l1)%nat
             then for_ report_keys_ghost O (num_down l1) l1 else l1) in *.
  cbv zeta in Hg. destruct Hg as (Hs2 & Hk2 & Hn2 & Hfn2 & Hgh).
  pose proof (report_keys_translated KBC_MAX_KEY KEY_FN k l2) as Ht.
  cbv zeta in Ht.
  set (l3 := if fn_keypress l2
             then for_ (report_keys_fn KBC_MAX_KEY (keycode k)) O (num_down l2) l2
             else l2) in *.
  destruct Ht as (Hn3 & Hs3 & Hk3 & Hlk3 & Hr3 & Hc3).
  { rewrite Hn2, Hs2. done. }
  { rewrite Hk2, Hs2. congruence. }
  { rewrite Hn2, Hs2. by rewrite array_prefix_take. }
  { rewrite Hn2, Hk2. by rewrite array_prefix_take by lia. }
  { congruence. }
  exists (drop (num_down l3) (keycodes l3) ++ drop KBC_MAX_KPENT (current_keys k)).
  rewrite Hr3, Hc3, Hgh. cbv zeta.
  destruct (sample_ghosted KEY_FN k).
  - unfold op_ret. cbn [snd]. apply tegra_kbc_eq; unfold k1; kbc_fields;
      try done. by rewrite <- app_assoc.
  - unfold op_modify. cbv beta iota zeta. cbn [snd].
    apply tegra_kbc_eq; unfold k1; kbc_fields; try done.
    + by rewrite <- app_assoc.
    + rewrite tegra_kbc_report_pressed_keys_run,
        tegra_kbc_report_released_keys_run.
      rewrite Hs3, Hk3. unfold input_sync, sample_batch, CurrentKeys.
      by rewrite <- !app_assoc.
    + unfold memcpy. rewrite app_assoc. f_equal.
      rewrite firstn_all2 by (rewrite Hlk3, Hk2, Hlk; done).
      rewrite <- Hk3, array_prefix_take
        by (rewrite Hlk3, Hk2, Hlk, Hn3, Hn2, <- Hls; done).
      by rewrite take_drop.
    + rewrite <- Hk3. by rewrite array_prefix_length.
Qed.

End ReportRun.

(** ** The ghost filter, the event batch and the alternate layer *)

Lemma has_pair_sharing (f : Z → Z) (l : list Z) :
  has_pair (λ s t, f s =? f t) l = true ↔ pair_sharing f l.
Proof.
  rewrite has_pair_spec. unfold pair_sharing. split.
  - intros (i & j & x & y & Hij & Hi & Hj & HR%Z.eqb_eq).
    exists i, j, x, y. repeat split; [lia|done..].
  - intros (i & j & x & y & Hij & Hi & Hj & HR).
    destruct (decide (i < j)%nat).
    + exists i, j, x, y. repeat split; [done..|by apply Z.eqb_eq].
    + exists j, i, y, x. repeat split; [lia|done..|by apply Z.eqb_eq].
Qed.

Lemma sample_ghosted_spec KEY_FN k :
  sample_ghosted KEY_FN k = true ↔
  use_ghost_filter k = true ∧ (3 ≤ length (sample_positions KEY_FN k))%nat ∧
  pair_sharing scancode_row (sample_positions KEY_FN k) ∧
  pair_sharing scancode_col (sample_positions KEY_FN k).
Proof.
  unfold sample_ghosted, row_collision, column_collision.
  rewrite !andb_true_iff, !has_pair_sharing, Nat.leb_le. tauto.
Qed.

Lemma CurrentKeys_app (new rest : list Z) k :
  current_keys k = new ++ rest → num_pressed_keys k = length new →
  CurrentKeys k = new.
Proof.
  intros Hc Hn. unfold CurrentKeys. rewrite Hc, Hn.
  apply array_prefix_app_l.
Qed.

(** C1: a decoded sample (the alternate-layer key already consumed) is
    discarded exactly when the ghost filter is enabled, the sample has at
    least 3 entries, some unordered pair of its matrix positions shares a
    row and some unordered pair shares a column.  A discarded sample emits
    no event at all and leaves [current_keys] and [num_pressed_keys] as
    they were; every other sample is reported whole: its batch is emitted
    and [CurrentKeys] becomes its output codes. *)
Theorem ghost_filter_discards_sample (KBC_MAX_KEY KEY_FN : Z)
    (fr : stack_frame) (k : tegra_kbc) :
  let k' := exec (tegra_kbc_report_keys KBC_MAX_KEY KEY_FN fr) k in
  let pos := sample_positions KEY_FN k in
  (sample_ghosted KEY_FN k = true ↔
     use_ghost_filter k = true ∧ (3 ≤ length pos)%nat ∧
     pair_sharing scancode_row pos ∧ pair_sharing scancode_col pos) ∧
  if sample_ghosted KEY_FN k
  then idev k' = idev k ∧ current_keys k' = current_keys k ∧
       num_pressed_keys k' = num_pressed_keys k ∧
       CurrentKeys k' = CurrentKeys k
  else idev k' = idev k ++ sample_batch KBC_MAX_KEY KEY_FN k ∧
       CurrentKeys k' = sample_keycodes KBC_MAX_KEY KEY_FN k.
Proof.
  intros k' pos. split; [apply sample_ghosted_spec|].
  destruct (tegra_kbc_report_keys_run KBC_MAX_KEY KEY_FN fr k) as [rest Hrun].
  fold k' in Hrun. cbv zeta in Hrun.
  destruct (sample_ghosted KEY_FN k); rewrite Hrun.
  - done.
  - split; [done|]. by apply (CurrentKeys_app _ rest).
Qed.

(** C2: the batch of a reported sample is, in this order: one release for
    each entry of [CurrentKeys] whose output code is absent from the new
    set; for each entry of the new set in order, its raw scan code and then
    its press; one synchronization marker.  Afterwards [CurrentKeys] is the
    new set. *)
Theorem report_keys_batch_order (KBC_MAX_KEY KEY_FN : Z)
    (fr : stack_frame) (k : tegra_kbc) :
  sample_ghosted KEY_FN k = false →
  let k' := exec (tegra_kbc_report_keys KBC_MAX_KEY KEY_FN fr) k in
  let new_scancodes := sample_scancodes KBC_MAX_KEY KEY_FN k in
  let new_keycodes := sample_keycodes KBC_MAX_KEY KEY_FN k in
  idev k' =
    idev k
    ++ map (λ c, EvKey c 0)
         (List.filter (λ c, negb (bool_decide (c ∈ new_keycodes)))
            (CurrentKeys k))
    ++ concat (zip_with (λ s c, [EvMscScan s; EvKey c 1])
                 new_scancodes new_keycodes)
    ++ [EvSync] ∧
  length new_scancodes = length new_keycodes ∧
  CurrentKeys k' = new_keycodes.
Proof.
  intros Hg k' scs kcs.
  destruct (tegra_kbc_report_keys_run KBC_MAX_KEY KEY_FN fr k) as [rest Hrun].
  fold k' in Hrun. cbv zeta in Hrun. rewrite Hg in Hrun. rewrite Hrun.
  repeat split.
  - unfold kcs, sample_keycodes. by rewrite length_map.
  - by apply (CurrentKeys_app _ rest).
Qed.




Lemma filter_andb {A} (p q : A → bool) (l : list A) :
  List.filter (λ x, p x && q x) l = List.filter q (List.filter p l).
Proof.
  induction l as [|a l IH]; simpl; [done|].
  destruct (p a); simpl; [|done]. destruct (q a); by rewrite IH.
Qed.

Lemma existsb_andb {A} (p q : A → bool) (l : list A) :
  existsb (λ x, p x && q x) l = existsb q (List.filter p l).
Proof.
  induction l as [|a l IH]; simpl; [done|].
  destruct (p a); simpl; by rewrite IH.
Qed.

Lemma alternate_layer_lane KBC_MAX_KEY b :
  0 <= KBC_MAX_KEY <= 128 →
  alternate_layer KBC_MAX_KEY (lane_scancode b) = lane_scancode b + KBC_MAX_KEY.
Proof.
  intros Hm. unfold alternate_layer, u8. apply Z.mod_small.
  pose proof (lane_scancode_range b). change (2 ^ 8) with 256. lia.
Qed.

(** C5: in a reported sample, the lanes holding the alternate-layer key
    (with the Fn map in use) are removed from the reported set and give no
    event.  If there is such a lane, every remaining entry has [KBC_MAX_KEY]
    added to its scan code, and its output code is looked up at that index;
    if there is none, scan codes and lookups are those of the primary table. *)
Theorem alternate_layer_translation (KBC_MAX_KEY KEY_FN : Z)
    (fr : stack_frame) (k : tegra_kbc) :
  0 <= KBC_MAX_KEY <= 128 →
  sample_ghosted KEY_FN k = false →
  let k' := exec (tegra_kbc_report_keys KBC_MAX_KEY KEY_FN fr) k in
  let down := List.filter lane_valid (fifo_lanes k) in
  let is_fn b :=
    (keycode k !!! Z.to_nat (lane_scancode b) =? KEY_FN) && use_fn_map k in
  let remaining := List.filter (λ b, negb (is_fn b)) down in
  let layer := if existsb is_fn down then KBC_MAX_KEY else 0 in
  let new_scancodes := map (λ b, lane_scancode b + layer) remaining in
  let new_keycodes := map (λ s, keycode k !!! Z.to_nat s) new_scancodes in
  idev k' =
    idev k
    ++ release_events (CurrentKeys k) new_keycodes
    ++ press_events new_scancodes new_keycodes
    ++ [EvSync] ∧
  CurrentKeys k' = new_keycodes.
Proof.
  intros Hm Hg k' down is_fn remaining layer scs kcs.
  destruct (tegra_kbc_report_keys_run KBC_MAX_KEY KEY_FN fr k) as [rest Hrun].
  fold k' in Hrun. cbv zeta in Hrun. rewrite Hg in Hrun.
  assert (idev k' = idev k ++ sample_batch KBC_MAX_KEY KEY_FN k) as He
    by (by rewrite Hrun).
  assert (CurrentKeys k' = sample_keycodes KBC_MAX_KEY KEY_FN k) as Hc
    by (rewrite Hrun; by apply (CurrentKeys_app _ rest)).
  clear Hrun. unfold sample_batch in He.
  assert (sample_scancodes KBC_MAX_KEY KEY_FN k = scs) as Hscs.
  { unfold sample_scancodes, sample_fn, sample_positions, scs, layer,
      remaining, down.
    rewrite existsb_andb, filter_andb.
    change (lane_is_fn KEY_FN k) with is_fn.
    destruct (existsb is_fn _).
    - rewrite map_map. apply map_ext. intros b.
      by apply alternate_layer_lane.
    - apply map_ext. intros b. lia. }
  assert (sample_keycodes KBC_MAX_KEY KEY_FN k = kcs) as Hkcs.
  { unfold sample_keycodes. by rewrite Hscs. }
  rewrite Hscs, Hkcs in He. rewrite Hkcs in Hc. done.
Qed.

(** ** The polling timer *)

Lemma tegra_kbc_keypress_timer_idle (KBC_MAX_KEY KEY_FN : Z)
    (fr : stack_frame) (k : tegra_kbc) :
  Z.land (Z.shiftr (mmio k KBC_INT_0) 4) 0xf = 0 →
  exec (tegra_kbc_keypress_timer KBC_MAX_KEY KEY_FN fr) k =
    let control := Z.lor (mmio k KBC_CONTROL_0) KBC_CONTROL_FIFO_CNT_INT_EN in
    TegraKbc (<[KBC_CONTROL_0 := control]> (mmio k))
      (bus k ++ [BusRead KBC_INT_0; BusRead KBC_CONTROL_0;
                 BusWrite control KBC_CONTROL_0])
      (idev k ++ map (λ c, EvKey c 0) (CurrentKeys k) ++ [EvSync])
      (irq k) (repoll_dly k) (cp_dly_jiffies k) (use_fn_map k)
      (use_ghost_filter k) (keypress_caused_wake k) (pdata k) (keycode k)
      (current_keys k) O (timer k) (clk k) (is_open k).
Proof.
  intros Hval. unfold tegra_kbc_keypress_timer. kbc_ops.
  rewrite Hval. cbn [Z.eqb negb]. kbc_ops.
  apply tegra_kbc_eq; kbc_fields; try done.
  - by rewrite <- !app_assoc.
  - unfold input_sync.
    rewrite (for__ext _ (λ i input, input ++
      (λ i, [EvKey (current_keys k !!! i) 0]) i)) by done.
    rewrite for__append, <- app_assoc. do 2 f_equal.
    unfold CurrentKeys, array_prefix.
    induction (seq 0 (num_pressed_keys k)) as [|i l IH]; simpl; [done|].
    by rewrite IH.
Qed.

Lemma tegra_kbc_keypress_timer_poll (KBC_MAX_KEY KEY_FN : Z)
    (fr : stack_frame) (k : tegra_kbc) :
  Z.land (Z.shiftr (mmio k KBC_INT_0) 4) 0xf ≠ 0 →
  exec (tegra_kbc_keypress_timer KBC_MAX_KEY KEY_FN fr) k =
    let polled := exec (tegra_kbc_report_keys KBC_MAX_KEY KEY_FN fr)
                    (set_bus (λ b, b ++ [BusRead KBC_INT_0]) k) in
    set_timer
      (Some (Msecs (if Z.land (Z.shiftr (mmio k KBC_INT_0) 4) 0xf =? 1
                    then repoll_dly k else 1)))
      polled.
Proof.
  intros Hval. unfold tegra_kbc_keypress_timer. kbc_ops.
  apply Z.eqb_neq in Hval. rewrite Hval. cbn [negb].
  destruct (tegra_kbc_report_keys_run KBC_MAX_KEY KEY_FN fr
              (set_bus (λ b, b ++ [BusRead KBC_INT_0]) k)) as [rest Hrun].
  unfold exec in Hrun.
  destruct (tegra_kbc_report_keys _ _ _ _) as [[] k2]. cbn [snd] in *.
  kbc_ops. unfold exec. cbn [snd].
  replace (repoll_dly k2) with (repoll_dly k); [done|].
  rewrite Hrun. cbv zeta. by destruct (sample_ghosted _ _).
Qed.

(** C3: a timer fire that finds the FIFO empty emits one release for each
    entry of [CurrentKeys], in stored order, and then a sync marker; it
    empties [CurrentKeys], sets the FIFO-threshold interrupt enable bit of
    the control register and does not arm the timer. *)
Theorem keypress_timer_zero_occupancy (KBC_MAX_KEY KEY_FN : Z)
    (fr : stack_frame) (k : tegra_kbc) :
  Z.land (Z.shiftr (mmio k KBC_INT_0) 4) 0xf = 0 →
  let k' := exec (tegra_kbc_keypress_timer KBC_MAX_KEY KEY_FN fr) k in
  idev k' = idev k ++ map (λ c, EvKey c 0) (CurrentKeys k) ++ [EvSync] ∧
  num_pressed_keys k' = O ∧
  CurrentKeys k' = [] ∧
  mmio k' KBC_CONTROL_0
    = Z.lor (mmio k KBC_CONTROL_0) KBC_CONTROL_FIFO_CNT_INT_EN ∧
  Z.testbit (mmio k' KBC_CONTROL_0) 3 = true ∧
  timer k' = timer k.
Proof.
  intros Hval k'. unfold k'.
  rewrite tegra_kbc_keypress_timer_idle by done. cbv zeta.
  unfold CurrentKeys at 2. kbc_fields. rewrite fn_lookup_insert.
  repeat split.
  rewrite Z.lor_spec. unfold KBC_CONTROL_FIFO_CNT_INT_EN.
  change (Z.testbit (Z.shiftl 1 3) 3) with true. apply orb_true_r.
Qed.

(** What the code does on a timer fire that finds the FIFO occupied: it
    decodes, filters and reports the sample and arms the timer again,
    after [repoll_dly] milliseconds when the occupancy count read from
    [KBC_INT_0] is exactly 1, after 1 millisecond when it is larger.  The
    test is on the number of FIFO entries, where the comment in the source
    speaks of the number of keys pressed. *)
Theorem keypress_timer_rearm (KBC_MAX_KEY KEY_FN : Z)
    (fr : stack_frame) (k : tegra_kbc) :
  let occupancy := Z.land (Z.shiftr (mmio k KBC_INT_0) 4) 0xf in
  occupancy ≠ 0 →
  let k' := exec (tegra_kbc_keypress_timer KBC_MAX_KEY KEY_FN fr) k in
  let polled := exec (tegra_kbc_report_keys KBC_MAX_KEY KEY_FN fr)
                  (set_bus (λ b, b ++ [BusRead KBC_INT_0]) k) in
  timer k' = Some (Msecs (if occupancy =? 1 then repoll_dly k else 1)) ∧
  k' = set_timer (timer k') polled.
Proof.
  intros occupancy Hocc k' polled. unfold k'.
  rewrite tegra_kbc_keypress_timer_poll by done. cbv zeta. done.
Qed.

(** ** The interrupt handler and the stop path *)

Lemma tegra_kbc_isr_events k :
  idev (exec tegra_kbc_isr k) = idev k ∧
  current_keys (exec tegra_kbc_isr k) = current_keys k ∧
  num_pressed_keys (exec tegra_kbc_isr k) = num_pressed_keys k.
Proof.
  unfold tegra_kbc_isr. kbc_ops.
  destruct (negb (_ =? 0)); kbc_ops; [done|].
  destruct (negb (_ =? 0)); kbc_ops; done.
Qed.

Lemma land_bit_testbit v (n : Z) :
  0 <= n → negb (Z.land v (Z.shiftl 1 n) =? 0) = Z.testbit v n.
Proof.
  intros Hn. rewrite Z.shiftl_1_l.
  destruct (Z.testbit v n) eqn:Hb.
  - apply negb_true_iff, Z.eqb_neq. intros H0.
    assert (Z.testbit (Z.land v (2 ^ n)) n = true) as Ht
      by (rewrite Z.land_spec, Hb, Z.pow2_bits_true; done).
    rewrite H0, Z.testbit_0_l in Ht. done.
  - apply negb_false_iff, Z.eqb_eq, Z.bits_inj'. intros m Hm.
    rewrite Z.land_spec, Z.testbit_0_l, Z.pow2_bits_eqb by done.
    destruct (Z.eqb_spec n m) as [->|]; [by rewrite Hb|by rewrite andb_false_r].
Qed.

(** C10: the handler reads [KBC_INT_0] and at once writes the value back to
    it, and makes no other write to that register.  When neither the
    FIFO-threshold bit (bit 2) nor the keypress bit (bit 0) is set in the
    value read, these two accesses are all it does: the register file reads
    as before (so the interrupt enables are untouched), no timer is armed,
    and [current_keys], [num_pressed_keys], [keypress_caused_wake] and the
    events sent are unchanged. *)
Theorem isr_acknowledges_status (k : tegra_kbc) :
  let val := mmio k KBC_INT_0 in
  let k' := exec tegra_kbc_isr k in
  (∃ rest,
     bus k' = bus k ++ [BusRead KBC_INT_0; BusWrite val KBC_INT_0] ++ rest ∧
     ∀ v, BusWrite v KBC_INT_0 ∉ rest) ∧
  (Z.testbit val 2 = false → Z.testbit val 0 = false →
     bus k' = bus k ++ [BusRead KBC_INT_0; BusWrite val KBC_INT_0] ∧
     (∀ offset, mmio k' offset = mmio k offset) ∧
     timer k' = timer k ∧
     irq k' = irq k ∧
     current_keys k' = current_keys k ∧
     num_pressed_keys k' = num_pressed_keys k ∧
     keypress_caused_wake k' = keypress_caused_wake k ∧
     idev k' = idev k).
Proof.
  intros val k'. unfold k', tegra_kbc_isr. kbc_ops.
  unfold KBC_INT_FIFO_CNT_INT_STATUS, KBC_INT_KEYPRESS_INT_STATUS.
  rewrite !land_bit_testbit by lia. fold val. split.
  - destruct (Z.testbit val 2); kbc_ops; [|destruct (Z.testbit val 0); kbc_ops].
    + eexists [BusRead KBC_CONTROL_0; BusWrite _ KBC_CONTROL_0].
      kbc_fields. split; [by rewrite <- !app_assoc|].
      intros v Hin. apply list_elem_of_In in Hin. simpl in Hin.
      destruct Hin as [|[|[]]]; discriminate.
    + exists []. kbc_fields. split; [by rewrite <- !app_assoc|].
      intros v Hin. by apply elem_of_nil in Hin.
    + exists []. kbc_fields. split; [by rewrite <- !app_assoc|].
      intros v Hin. by apply elem_of_nil in Hin.
  - intros -> ->. kbc_ops. kbc_fields.
    repeat split; [by rewrite <- !app_assoc|].
    intros offset. destruct (decide (KBC_INT_0 = offset)) as [<-|Hne].
    + by rewrite fn_lookup_insert.
    + by rewrite fn_lookup_insert_ne.
Qed.

Lemma land_not_1_idem v :
  Z.land (Z.land v (u32 (Z.lnot 1))) (u32 (Z.lnot 1)) = Z.land v (u32 (Z.lnot 1)).
Proof. by rewrite <- Z.land_assoc, Z.land_diag. Qed.

(** C9: from any driver state, the stop path clears the controller enable
    bit, leaves the interrupt line masked, the timer cancelled and [is_open]
    at 0.  A second call changes none of this, and stores in the control
    register the value that is already there. *)
Theorem stop_is_idempotent (k : tegra_kbc) :
  let k1 := exec tegra_kbc_stop k in
  let k2 := exec tegra_kbc_stop k1 in
  device_state k1 = (false, true, None, 0) ∧
  device_state k2 = device_state k1 ∧
  ∀ offset, mmio k2 offset = mmio k1 offset.
Proof.
  intros k1 k2. unfold k2, k1, tegra_kbc_stop, device_state. kbc_ops.
  kbc_fields. rewrite !fn_lookup_insert.
  unfold KBC_CONTROL_KBC_EN. rewrite !land_bit_testbit by lia.
  assert (∀ v, Z.testbit (Z.land v (u32 (Z.lnot 1))) 0 = false) as Hbit.
  { intros v. rewrite Z.land_spec.
    change (Z.testbit (u32 (Z.lnot 1)) 0) with false. apply andb_false_r. }
  rewrite !Hbit, !bool_decide_eq_true_2 by lia.
  repeat split. intros offset.
  destruct (decide (KBC_CONTROL_0 = offset)) as [<-|Hne].
  - rewrite !fn_lookup_insert. apply land_not_1_idem.
  - by rewrite !fn_lookup_insert_ne.
Qed.

(** ** [CurrentKeys] and the keys the sink holds *)

Lemma sink_held_app (a b : list input_ev) :
  sink_held (a ++ b) = foldl sink_step (sink_held a) b.
Proof. unfold sink_held. by rewrite foldl_app. Qed.

Lemma sink_releases (held : gset Z) (l : list Z) :
  foldl sink_step held (map (λ c, EvKey c 0) l) = held ∖ list_to_set l.
Proof.
  revert held. induction l as [|c l IH]; intros held; simpl.
  - by rewrite difference_empty_L.
  - by rewrite IH, difference_difference_l_L.
Qed.

Lemma sink_presses (held : gset Z) (f : Z → Z) (scs : list Z) :
  foldl sink_step held (press_events scs (map f scs))
  = list_to_set (map f scs) ∪ held.
Proof.
  revert held. induction scs as [|s scs IH]; intros held.
  - unfold press_events. simpl. by rewrite union_empty_l_L.
  - unfold press_events in *. simpl. rewrite IH.
    by rewrite (union_comm_L {[f s]} (list_to_set _)), union_assoc_L.
Qed.

Lemma release_then_press (cur new : list Z) :
  list_to_set new
  ∪ (list_to_set cur ∖ list_to_set (List.filter (key_absent new) cur))
  = (list_to_set new : gset Z).
Proof.
  apply set_eq. intros x.
  rewrite elem_of_union, elem_of_difference, !elem_of_list_to_set.
  split; [|by left]. intros [Hx|[Hc Hf]]; [done|].
  destruct (decide (x ∈ new)) as [|Hnot]; [done|]. exfalso. apply Hf.
  apply list_elem_of_In, filter_In. split; [by apply list_elem_of_In|].
  unfold key_absent. by rewrite bool_decide_eq_false_2.
Qed.

Lemma report_keys_in_sync (KBC_MAX_KEY KEY_FN : Z) (fr : stack_frame) k :
  keys_in_sync k →
  keys_in_sync (exec (tegra_kbc_report_keys KBC_MAX_KEY KEY_FN fr) k).
Proof.
  unfold keys_in_sync. intros Hkeys.
  destruct (tegra_kbc_report_keys_run KBC_MAX_KEY KEY_FN fr k) as [rest Hrun].
  cbv zeta in Hrun. rewrite Hrun. destruct (sample_ghosted KEY_FN k).
  - exact Hkeys.
  - rewrite (CurrentKeys_app (sample_keycodes KBC_MAX_KEY KEY_FN k) rest)
      by done.
    cbn [idev]. unfold sample_batch, release_events.
    rewrite sink_held_app, !foldl_app, sink_releases.
    unfold sample_keycodes at 3.
    rewrite sink_presses. fold (sample_keycodes KBC_MAX_KEY KEY_FN k).
    cbn [foldl sink_step]. rewrite <- Hkeys.
    symmetry. apply release_then_press.
Qed.

Lemma keys_in_sync_frame k k' :
  current_keys k' = current_keys k →
  num_pressed_keys k' = num_pressed_keys k →
  idev k' = idev k →
  keys_in_sync k → keys_in_sync k'.
Proof.
  unfold keys_in_sync, CurrentKeys. by intros -> -> ->.
Qed.

Lemma kbc_step_in_sync (KBC_MAX_KEY KEY_FN : Z) k k' :
  kbc_step KBC_MAX_KEY KEY_FN k k' → keys_in_sync k → keys_in_sync k'.
Proof.
  intros Hstep Hkeys. destruct Hstep as [fr k|fr k|k|k].
  - by apply report_keys_in_sync.
  - destruct (decide (Z.land (Z.shiftr (mmio k KBC_INT_0) 4) 0xf = 0))
      as [Hz|Hnz].
    + rewrite tegra_kbc_keypress_timer_idle by done. cbv zeta.
      unfold keys_in_sync in *. unfold CurrentKeys at 1.
      cbn [current_keys num_pressed_keys idev].
      rewrite sink_held_app, foldl_app, sink_releases.
      cbn [foldl sink_step array_prefix seq map list_to_set].
      rewrite <- Hkeys. by rewrite difference_diag_L.
    + rewrite tegra_kbc_keypress_timer_poll by done. cbv zeta.
      assert (keys_in_sync (set_bus (λ b, b ++ [BusRead KBC_INT_0]) k))
        as Hbus by (by apply (keys_in_sync_frame k)).
      apply (report_keys_in_sync KBC_MAX_KEY KEY_FN fr) in Hbus.
      revert Hbus. generalize (exec (tegra_kbc_report_keys KBC_MAX_KEY KEY_FN fr)
                        (set_bus (λ b, b ++ [BusRead KBC_INT_0]) k)).
      intros polled Hpolled. by apply (keys_in_sync_frame polled).
  - destruct (tegra_kbc_isr_events k) as (Hi & Hc & Hn).
    by apply (keys_in_sync_frame k).
  - by apply (keys_in_sync_frame k).
Qed.

(** C6: if [CurrentKeys] is the set of output codes the sink holds down
    (a press was sent and no release since), it still is after any sequence
    of operations of the scan engine: reporting a sample, discarding a
    ghosted sample, the timer (with the zero-occupancy release path), the
    interrupt handler and the stop path. *)
Theorem current_keys_track_sink (KBC_MAX_KEY KEY_FN : Z) (k k' : tegra_kbc) :
  keys_in_sync k →
  kbc_run KBC_MAX_KEY KEY_FN k k' →
  keys_in_sync k'.
Proof.
  intros Hkeys Hrun. induction Hrun as [k|k k' k'' Hstep _ IH]; [done|].
  apply IH. by apply (kbc_step_in_sync KBC_MAX_KEY KEY_FN k).
Qed.

(** ** The wake key masks *)

Lemma exec_for_op_S {L} (body : nat → L → kbc_op L) i n l k :
  exec (for_op body i (S n) l) k
  = exec (for_op body (S i) n (body i l k).1) (body i l k).2.
Proof.
  unfold exec. simpl. unfold op_bind. by destruct (body i l k).
Qed.

(** The reset loop stores [rst_val] in the mask register of every row. *)
Lemma wake_mask_reset rst_val n : ∀ i k offset,
  mmio (exec (for_op (λ i _, writel rst_val (KBC_ROW0_MASK_0 + Z.of_nat i * 4))
                i n tt) k) offset
  = if existsb (λ r, offset =? KBC_ROW0_MASK_0 + Z.of_nat r * 4) (seq i n)
    then rst_val else mmio k offset.
Proof.
  induction n as [|n IH]; intros i k offset; [done|].
  rewrite exec_for_op_S, IH. cbn [fst snd writel seq existsb]. kbc_fields.
  destruct (Z.eqb_spec offset (KBC_ROW0_MASK_0 + Z.of_nat i * 4)) as [->|Hne].
  - rewrite fn_lookup_insert. cbn [orb]. by destruct (existsb _ _).
  - by rewrite fn_lookup_insert_ne.
Qed.

(** The filter loop applies [clear_wake_bit] for each wake key in turn. *)
Lemma wake_mask_clear (cfg : list tegra_kbc_wake_key) n : ∀ i k offset,
  (i + n ≤ length cfg)%nat →
  mmio (exec (for_op (λ i _,
                 let w := cfg !!! i in
                 let addr := wk_row w * 4 + KBC_ROW0_MASK_0 in
                 do val <- readl addr;
                 let val := Z.land val (u32 (Z.lnot (Z.shiftl 1 (wk_col w)))) in
                 writel val addr) i n tt) k) offset
  = foldl (clear_wake_bit offset) (mmio k offset) (take n (drop i cfg)).
Proof.
  induction n as [|n IH]; intros i k offset Hlen; [done|].
  rewrite exec_for_op_S, IH by lia.
  rewrite take_drop_lookup by lia. cbn [foldl]. f_equal.
  kbc_ops. kbc_fields. unfold clear_wake_bit. case_decide as Ho.
  - by rewrite <- Ho, fn_lookup_insert.
  - by rewrite fn_lookup_insert_ne.
Qed.

Lemma clear_wake_bit_testbit v (w : tegra_kbc_wake_key) offset c :
  0 <= c < 32 →
  Z.testbit (clear_wake_bit offset v w) c
  = Z.testbit v c
    && negb (bool_decide (wk_row w * 4 + KBC_ROW0_MASK_0 = offset)
             && (wk_col w =? c)).
Proof.
  intros Hc. unfold clear_wake_bit. case_decide as Ho.
  - rewrite bool_decide_eq_true_2 by done. cbn [andb].
    rewrite Z.land_spec. f_equal. unfold u32.
    rewrite Z.mod_pow2_bits_low, Z.lnot_spec by lia. f_equal.
    destruct (Z.eqb_spec (wk_col w) c) as [->|Hne].
    + rewrite Z.shiftl_1_l. apply Z.pow2_bits_true. lia.
    + destruct (decide (0 <= wk_col w)).
      * rewrite Z.shiftl_1_l. apply Z.pow2_bits_false. lia.
      * rewrite Z.shiftl_spec by lia. change 1 with (2 ^ 0).
        apply Z.pow2_bits_false. lia.
  - rewrite bool_decide_eq_false_2 by done. cbn [andb negb].
    by rewrite andb_true_r.
Qed.

Lemma wake_mask_bits (cfg : list tegra_kbc_wake_key) offset c : ∀ v,
  0 <= c < 32 →
  Z.testbit (foldl (clear_wake_bit offset) v cfg) c
  = Z.testbit v c
    && negb (existsb (λ w, bool_decide (wk_row w * 4 + KBC_ROW0_MASK_0 = offset)
                           && (wk_col w =? c)) cfg).
Proof.
  induction cfg as [|w cfg IH]; intros v Hc; cbn [foldl existsb].
  - by rewrite andb_true_r.
  - rewrite IH, clear_wake_bit_testbit by done.
    by rewrite negb_orb, andb_assoc.
Qed.

Lemma wake_key_listed (cfg : list tegra_kbc_wake_key) (r : nat) c :
  existsb (λ w, bool_decide (wk_row w * 4 + KBC_ROW0_MASK_0
                             = KBC_ROW0_MASK_0 + Z.of_nat r * 4)
                && (wk_col w =? c)) cfg
  = bool_decide (WakeKey (Z.of_nat r) c ∈ cfg).
Proof.
  induction cfg as [|[row col] cfg IH]; cbn [existsb wk_row wk_col].
  - symmetry. apply bool_decide_eq_false_2. by intros ?%elem_of_nil.
  - rewrite IH.
    destruct (decide (row = Z.of_nat r ∧ col = c)) as [[-> ->]|Hne].
    + rewrite bool_decide_eq_true_2 by lia. rewrite Z.eqb_refl. cbn [andb orb].
      symmetry. apply bool_decide_eq_true_2. constructor.
    + assert (bool_decide (row * 4 + KBC_ROW0_MASK_0
                           = KBC_ROW0_MASK_0 + Z.of_nat r * 4)
              && (col =? c) = false) as ->.
      { apply andb_false_iff.
        destruct (decide (row = Z.of_nat r)) as [->|Hr].
        - right. apply Z.eqb_neq. intros ->. by apply Hne.
        - left. apply bool_decide_eq_false_2. lia. }
      cbn [orb]. apply bool_decide_ext. split; [by constructor|].
      intros Hin. apply elem_of_cons in Hin as [Heq|Hin]; [|done].
      inversion Heq; subst. exfalso. by apply Hne.
Qed.

(** C8: when the wake list is no longer than [KBC_MAX_KEY], the set-up
    runs to its end, and for every row [r] below [KBC_MAX_ROW] and every
    bit [c] of its mask word: with filtering active and a non-empty wake
    list, the bit is 0 exactly when [(r, c)] is in the wake list and 1 for
    every other position; with filtering inactive, or with an empty wake
    list, the bit is 0. *)
Theorem setup_wakekeys_masks (KBC_MAX_ROW : nat) (KBC_MAX_KEY : Z)
    (filter : bool) (k : tegra_kbc) :
  wake_cnt (pdata k) <= KBC_MAX_KEY →
  ∃ k', tegra_kbc_setup_wakekeys KBC_MAX_ROW KBC_MAX_KEY filter k = Some k' ∧
    ∀ (r : nat) (c : Z), (r < KBC_MAX_ROW)%nat → 0 <= c < 32 →
      Z.testbit (mmio k' (KBC_ROW0_MASK_0 + Z.of_nat r * 4)) c
      = filter && negb (wake_cnt (pdata k) =? 0)
        && negb (bool_decide (WakeKey (Z.of_nat r) c ∈ wake_cfg (pdata k))).
Proof.
  intros Hcnt. unfold tegra_kbc_setup_wakekeys.
  destruct (Z.gtb_spec (wake_cnt (pdata k)) KBC_MAX_KEY) as [|_]; [lia|].
  eexists. split; [done|]. intros r c Hr Hc.
  set (rst_val := if filter && negb (wake_cnt (pdata k) =? 0)
                  then u32 (Z.lnot 0) else 0).
  unfold exec at 1. unfold op_bind at 1.
  destruct (for_op _ O KBC_MAX_ROW tt k) as [[] k1] eqn:Hreset.
  assert (mmio k1 (KBC_ROW0_MASK_0 + Z.of_nat r * 4) = rst_val) as Hk1.
  { pose proof (wake_mask_reset rst_val KBC_MAX_ROW O k
                  (KBC_ROW0_MASK_0 + Z.of_nat r * 4)) as Hm.
    unfold exec in Hm. rewrite Hreset in Hm. cbn [snd] in Hm. rewrite Hm.
    replace (existsb _ _) with true; [done|]. symmetry.
    apply existsb_exists. exists r. split; [apply in_seq; lia|lia]. }
  assert (∀ n : Z, 0 <= n < 32 →
          Z.testbit rst_val n = filter && negb (wake_cnt (pdata k) =? 0))
    as Hrst.
  { intros n Hn. unfold rst_val. destruct (filter && _).
    - unfold u32. rewrite Z.mod_pow2_bits_low, Z.lnot_spec by lia.
      by rewrite Z.testbit_0_l.
    - apply Z.testbit_0_l. }
  destruct filter; cbn [andb] in *.
  - pose proof (wake_mask_clear (wake_cfg (pdata k))
                  (Z.to_nat (wake_cnt (pdata k))) O k1
                  (KBC_ROW0_MASK_0 + Z.of_nat r * 4)) as Hm.
    unfold exec in Hm. cbn [snd]. rewrite Hm
      by (unfold wake_cnt; lia).
    unfold wake_cnt at 1. rewrite Nat2Z.id, drop_0, firstn_all.
    rewrite wake_mask_bits, Hk1, Hrst, wake_key_listed by done. done.
  - cbn [snd op_ret]. rewrite Hk1. apply Z.testbit_0_l.
Qed.

(** ** The claims at concrete inputs *)

(** The three keys (0,0), (0,1) and (1,0) form an L: with the ghost filter
    the sample is dropped, without it the three keys are reported. *)
Example ghost_L_shape_discarded :
  let k := example_kbc 0x10 0x888180 0 true [EvKey 1000 1] [1000] in
  let k' := exec (tegra_kbc_report_keys 128 0x1d0 example_frame) k in
  idev k' = [EvKey 1000 1] ∧ CurrentKeys k' = [1000].
Proof. vm_compute. done. Qed.

Example ghost_L_shape_unfiltered :
  let k := example_kbc 0x10 0x888180 0 false [EvKey 1000 1] [1000] in
  let k' := exec (tegra_kbc_report_keys 128 0x1d0 example_frame) k in
  idev k' = [EvKey 1000 1;
             EvMscScan 0; EvKey 1000 1; EvMscScan 1; EvKey 1001 1;
             EvMscScan 8; EvKey 1008 1; EvSync] ∧
  CurrentKeys k' = [1000; 1001; 1008].
Proof. vm_compute. done. Qed.

(** A key that goes up while another goes down: the release comes first. *)
Example release_before_press :
  let k := example_kbc 0x10 0x89 0 true [EvKey 1000 1] [1000] in
  let k' := exec (tegra_kbc_report_keys 128 0x1d0 example_frame) k in
  idev k' = [EvKey 1000 1; EvKey 1000 0; EvMscScan 9; EvKey 1009 1; EvSync].
Proof. vm_compute. done. Qed.

(** One FIFO entry with the two keys (0,0) and (1,1) down: the occupancy
    count is 1, two keys are down, and the timer is armed with [repoll_dly]
    (5 ms), not with the minimal delay.  The delay is not chosen by the
    number of keys that are down. *)
Lemma keypress_timer_delay_not_by_keys_down :
  ¬ (∀ (KBC_MAX_KEY KEY_FN : Z) (fr : stack_frame) (k : tegra_kbc),
       Z.land (Z.shiftr (mmio k KBC_INT_0) 4) 0xf ≠ 0 →
       let k' := exec (tegra_kbc_keypress_timer KBC_MAX_KEY KEY_FN fr) k in
       (num_pressed_keys k' = 1%nat →
        timer k' = Some (Msecs (repoll_dly k))) ∧
       ((1 < num_pressed_keys k')%nat → timer k' = Some (Msecs 1))).
Proof.
  intros Hclaim.
  destruct (Hclaim 128 0x1d0 example_frame
              (example_kbc 0x10 0x8980 0 false [] [])) as [_ Hmany].
  { vm_compute. discriminate. }
  assert (Some (Msecs 5) = Some (Msecs 1)) as Habs.
  { apply Hmany. vm_compute. lia. }
  discriminate Habs.
Qed.

(** C7: the timer fire at the same input, evaluated.  The interrupt status
    0x10 gives the occupancy count 1, the FIFO entry 0x8980 holds the two
    keys (0,0) and (1,1); after the fire two keys are down and the timer
    is armed with [repoll_dly], which is 5 ms here, where the comment in
    the source and the specification ask for the minimal delay as soon as
    more than one key is pressed. *)
Theorem keypress_timer_two_keys_one_entry :
  let k := example_kbc 0x10 0x8980 0 false [] [] in
  let k' := exec (tegra_kbc_keypress_timer 128 0x1d0 example_frame) k in
  Z.land (Z.shiftr (mmio k KBC_INT_0) 4) 0xf = 1 ∧
  num_pressed_keys k' = 2%nat ∧
  CurrentKeys k' = [1000; 1009] ∧
  repoll_dly k = 5 ∧
  timer k' = Some (Msecs 5).
Proof. vm_compute. done. Qed.

Lemma report_keys_batch_order_witness :
  sample_ghosted 0x1d0 (example_kbc 0x10 0x89808a 0x82000000 true
                          [EvKey 1000 1] [1000]) = false ∧
  CurrentKeys (exec (tegra_kbc_report_keys 128 0x1d0 example_frame)
                 (example_kbc 0x10 0x89808a 0x82000000 true
                    [EvKey 1000 1] [1000]))
  = [1138; 1128; 1137].
Proof.
  split; [reflexivity|].
  exact (proj2 (proj2 (report_keys_batch_order 128 0x1d0 example_frame
                         (example_kbc 0x10 0x89808a 0x82000000 true
                            [EvKey 1000 1] [1000]) eq_refl))).
Defined.

Lemma keypress_timer_zero_occupancy_witness :
  Z.land (Z.shiftr (mmio (example_kbc 0 0 0 true [EvKey 1000 1] [1000])
                      KBC_INT_0) 4) 0xf = 0 ∧
  idev (exec (tegra_kbc_keypress_timer 128 0x1d0 example_frame)
          (example_kbc 0 0 0 true [EvKey 1000 1] [1000]))
  = [EvKey 1000 1; EvKey 1000 0; EvSync].
Proof.
  split; [reflexivity|].
  exact (proj1 (keypress_timer_zero_occupancy 128 0x1d0 example_frame
                  (example_kbc 0 0 0 true [EvKey 1000 1] [1000]) eq_refl)).
Defined.

Lemma alternate_layer_translation_witness :
  0 <= 128 <= 128 ∧
  sample_ghosted 0x1d0 (example_kbc 0x10 0x89808a 0x82000000 true [] [])
    = false ∧
  idev (exec (tegra_kbc_report_keys 128 0x1d0 example_frame)
          (example_kbc 0x10 0x89808a 0x82000000 true [] []))
  = [EvMscScan 138; EvKey 1138 1; EvMscScan 128; EvKey 1128 1;
     EvMscScan 137; EvKey 1137 1; EvSync].
Proof.
  split; [lia|]. split; [reflexivity|].
  exact (proj1 (alternate_layer_translation 128 0x1d0 example_frame
                  (example_kbc 0x10 0x89808a 0x82000000 true [] [])
                  ltac:(lia) eq_refl)).
Defined.

Lemma current_keys_track_sink_witness :
  keys_in_sync (example_kbc 0x10 0x8980 0 true [EvKey 1000 1] [1000]) ∧
  keys_in_sync
    (exec (tegra_kbc_keypress_timer 128 0x1d0 example_frame)
       (example_kbc 0x10 0x8980 0 true [EvKey 1000 1] [1000])).
Proof.
  split; [reflexivity|].
  apply (current_keys_track_sink 128 0x1d0
           (example_kbc 0x10 0x8980 0 true [EvKey 1000 1] [1000]));
    [reflexivity|].
  eapply run_step; [apply step_keypress_timer|apply run_done].
Defined.

Lemma keypress_timer_rearm_witness :
  Z.land (Z.shiftr (mmio (example_kbc 0x20 0x80 0 true [] []) KBC_INT_0) 4)
    0xf ≠ 0 ∧
  timer (exec (tegra_kbc_keypress_timer 128 0x1d0 example_frame)
           (example_kbc 0x20 0x80 0 true [] []))
  = Some (Msecs 1).
Proof.
  assert (Z.land (Z.shiftr (mmio (example_kbc 0x20 0x80 0 true [] [])
                              KBC_INT_0) 4) 0xf ≠ 0) as Hocc
    by (vm_compute; discriminate).
  split; [exact Hocc|].
  exact (proj1 (keypress_timer_rearm 128 0x1d0 example_frame
                  (example_kbc 0x20 0x80 0 true [] []) Hocc)).
Defined.

Lemma setup_wakekeys_masks_witness :
  wake_cnt (pdata (example_kbc 0 0 0 true [] [])) <= 128 ∧
  ∃ k', tegra_kbc_setup_wakekeys 16 128 true (example_kbc 0 0 0 true [] [])
        = Some k' ∧
    ∀ (r : nat) (c : Z), (r < 16)%nat → 0 <= c < 32 →
      Z.testbit (mmio k' (KBC_ROW0_MASK_0 + Z.of_nat r * 4)) c
      = true && negb (wake_cnt (pdata (example_kbc 0 0 0 true [] [])) =? 0)
        && negb (bool_decide
                   (WakeKey (Z.of_nat r) c
                    ∈ wake_cfg (pdata (example_kbc 0 0 0 true [] [])))).
Proof.
  assert (wake_cnt (pdata (example_kbc 0 0 0 true [] [])) <= 128) as Hcnt
    by (vm_compute; discriminate).
  split; [exact Hcnt|].
  exact (setup_wakekeys_masks 16 128 true (example_kbc 0 0 0 true [] []) Hcnt).
Defined.

Lemma isr_acknowledges_status_witness :
  Z.testbit (mmio (example_kbc 0x10 0 0 true [] []) KBC_INT_0) 2 = false ∧
  Z.testbit (mmio (example_kbc 0x10 0 0 true [] []) KBC_INT_0) 0 = false ∧
  bus (exec tegra_kbc_isr (example_kbc 0x10 0 0 true [] []))
  = [BusRead KBC_INT_0; BusWrite 0x10 KBC_INT_0].
Proof.
  split; [reflexivity|]. split; [reflexivity|].
  exact (proj1 (proj2 (isr_acknowledges_status
                         (example_kbc 0x10 0 0 true [] [])) eq_refl eq_refl)).
Defined.

(** ** Further properties of the scan engine *)

Lemma testbit_shiftl_1 (b n : Z) :
  0 <= b → 0 <= n → Z.testbit (Z.shiftl 1 b) n = (n =? b).
Proof.
  intros Hb Hn. rewrite Z.shiftl_1_l, Z.pow2_bits_eqb by done.
  apply Z.eqb_sym.
Qed.

Lemma testbit_set_bit v (b n : Z) :
  0 <= b → 0 <= n →
  Z.testbit (Z.lor v (Z.shiftl 1 b)) n = Z.testbit v n || (n =? b).
Proof. intros. by rewrite Z.lor_spec, testbit_shiftl_1. Qed.

Lemma testbit_clear_bit v (b n : Z) :
  0 <= b → 0 <= n < 32 →
  Z.testbit (Z.land v (u32 (Z.lnot (Z.shiftl 1 b)))) n
  = Z.testbit v n && negb (n =? b).
Proof.
  intros Hb Hn. unfold u32.
  rewrite Z.land_spec, Z.mod_pow2_bits_low, Z.lnot_spec by lia.
  by rewrite testbit_shiftl_1 by lia.
Qed.

(** The control register after [tegra_kbc_set_fifo_interrupt] or
    [tegra_kbc_set_keypress_interrupt]: bit [b] is [enable], the other
    bits are as before. *)
Lemma control_bit_update (enable : bool) v (b n : Z) :
  0 <= b → 0 <= n < 32 →
  Z.testbit (if enable then Z.lor v (Z.shiftl 1 b)
             else Z.land v (u32 (Z.lnot (Z.shiftl 1 b)))) n
  = if n =? b then enable else Z.testbit v n.
Proof.
  intros Hb Hn. destruct enable.
  - rewrite testbit_set_bit by lia.
    destruct (n =? b); [apply orb_true_r|apply orb_false_r].
  - rewrite testbit_clear_bit by lia.
    destruct (n =? b); [apply andb_false_r|apply andb_true_r].
Qed.

Lemma tegra_kbc_set_fifo_interrupt_run enable k :
  exec (tegra_kbc_set_fifo_interrupt enable) k =
    let val := if enable
               then Z.lor (mmio k KBC_CONTROL_0) KBC_CONTROL_FIFO_CNT_INT_EN
               else Z.land (mmio k KBC_CONTROL_0)
                      (u32 (Z.lnot KBC_CONTROL_FIFO_CNT_INT_EN)) in
    set_bus (λ b, b ++ [BusRead KBC_CONTROL_0; BusWrite val KBC_CONTROL_0])
      (set_mmio (λ m, <[KBC_CONTROL_0 := val]> m) k).
Proof.
  kbc_ops. apply tegra_kbc_eq; kbc_fields; try done.
  by rewrite <- app_assoc.
Qed.

(** X1: [tegra_kbc_set_fifo_interrupt] changes one bit of one register. *)
Theorem set_fifo_interrupt_one_bit (enable : bool) (k : tegra_kbc)
    (offset n : Z) :
  0 <= n < 32 →
  let k' := exec (tegra_kbc_set_fifo_interrupt enable) k in
  Z.testbit (mmio k' offset) n
  = if (offset =? KBC_CONTROL_0) && (n =? 3) then enable
    else Z.testbit (mmio k offset) n.
Proof.
  intros Hn k'. unfold k'. rewrite tegra_kbc_set_fifo_interrupt_run.
  cbv zeta. kbc_fields.
  destruct (Z.eqb_spec offset KBC_CONTROL_0) as [->|Hne]; cbn [andb].
  - rewrite fn_lookup_insert. unfold KBC_CONTROL_FIFO_CNT_INT_EN.
    by apply control_bit_update.
  - by rewrite fn_lookup_insert_ne.
Qed.

Lemma tegra_kbc_isr_fifo_run (k : tegra_kbc) :
  Z.testbit (mmio k KBC_INT_0) 2 = true →
  exec tegra_kbc_isr k =
    let val := mmio k KBC_INT_0 in
    let control := Z.land (mmio k KBC_CONTROL_0)
                     (u32 (Z.lnot KBC_CONTROL_FIFO_CNT_INT_EN)) in
    TegraKbc (<[KBC_CONTROL_0 := control]> (<[KBC_INT_0 := val]> (mmio k)))
      (bus k ++ [BusRead KBC_INT_0; BusWrite val KBC_INT_0;
                 BusRead KBC_CONTROL_0; BusWrite control KBC_CONTROL_0])
      (idev k) (irq k) (repoll_dly k) (cp_dly_jiffies k) (use_fn_map k)
      (use_ghost_filter k) (keypress_caused_wake k) (pdata k) (keycode k)
      (current_keys k) (num_pressed_keys k)
      (Some (Jiffies (cp_dly_jiffies k))) (clk k) (is_open k).
Proof.
  intros Hbit. unfold tegra_kbc_isr. kbc_ops.
  unfold KBC_INT_FIFO_CNT_INT_STATUS. rewrite land_bit_testbit by lia.
  rewrite Hbit. kbc_ops.
  apply tegra_kbc_eq; kbc_fields; try done.
  rewrite (fn_lookup_insert_ne _ KBC_INT_0 KBC_CONTROL_0) by done.
  by rewrite <- !app_assoc.
Qed.

(** X2: an interrupt with the FIFO-threshold status set hands over to the
    polling timer, whatever the keypress status.  Its bus accesses are
    the read and the write-back of [KBC_INT_0] and the read and the write
    of [KBC_CONTROL_0], in this order and no other; the write clears the
    FIFO interrupt enable.  Besides the timer and the registers it
    changes no field of the driver state. *)
Theorem isr_fifo_threshold_starts_polling (k : tegra_kbc) :
  Z.testbit (mmio k KBC_INT_0) 2 = true →
  let k' := exec tegra_kbc_isr k in
  timer k' = Some (Jiffies (cp_dly_jiffies k)) ∧
  (∀ n, 0 <= n < 32 →
     Z.testbit (mmio k' KBC_CONTROL_0) n
     = Z.testbit (mmio k KBC_CONTROL_0) n && negb (n =? 3)) ∧
  (∀ offset, offset ≠ KBC_CONTROL_0 → mmio k' offset = mmio k offset) ∧
  keypress_caused_wake k' = keypress_caused_wake k ∧
  idev k' = idev k ∧
  current_keys k' = current_keys k ∧
  num_pressed_keys k' = num_pressed_keys k ∧
  bus k' =
    bus k
    ++ [BusRead KBC_INT_0; BusWrite (mmio k KBC_INT_0) KBC_INT_0;
        BusRead KBC_CONTROL_0;
        BusWrite (Z.land (mmio k KBC_CONTROL_0)
                    (u32 (Z.lnot KBC_CONTROL_FIFO_CNT_INT_EN)))
          KBC_CONTROL_0] ∧
  irq k' = irq k ∧ clk k' = clk k ∧ is_open k' = is_open k ∧
  repoll_dly k' = repoll_dly k ∧ cp_dly_jiffies k' = cp_dly_jiffies k ∧
  use_fn_map k' = use_fn_map k ∧ use_ghost_filter k' = use_ghost_filter k ∧
  pdata k' = pdata k ∧ keycode k' = keycode k.
Proof.
  intros Hbit k'. unfold k'. rewrite tegra_kbc_isr_fifo_run by done.
  cbv zeta. kbc_fields. rewrite fn_lookup_insert. repeat split.
  - intros n Hn. unfold KBC_CONTROL_FIFO_CNT_INT_EN.
    by apply testbit_clear_bit.
  - intros offset Hne. rewrite fn_lookup_insert_ne by done.
    destruct (decide (KBC_INT_0 = offset)) as [<-|Hne'].
    + by rewrite fn_lookup_insert.
    + by rewrite fn_lookup_insert_ne.
Qed.

(** X3: an interrupt with only the keypress status is recorded as the
    cause of a wake-up and changes nothing else.  Its bus accesses are
    the read and the write-back of [KBC_INT_0] and no other, so its only
    store is the acknowledge; every other field of the driver state is
    as before. *)
Theorem isr_keypress_records_wake (k : tegra_kbc) :
  Z.testbit (mmio k KBC_INT_0) 2 = false →
  Z.testbit (mmio k KBC_INT_0) 0 = true →
  let k' := exec tegra_kbc_isr k in
  keypress_caused_wake k' = true ∧
  timer k' = timer k ∧
  (∀ offset, mmio k' offset = mmio k offset) ∧
  idev k' = idev k ∧
  current_keys k' = current_keys k ∧
  num_pressed_keys k' = num_pressed_keys k ∧
  bus k' =
    bus k ++ [BusRead KBC_INT_0; BusWrite (mmio k KBC_INT_0) KBC_INT_0] ∧
  irq k' = irq k ∧ clk k' = clk k ∧ is_open k' = is_open k ∧
  repoll_dly k' = repoll_dly k ∧ cp_dly_jiffies k' = cp_dly_jiffies k ∧
  use_fn_map k' = use_fn_map k ∧ use_ghost_filter k' = use_ghost_filter k ∧
  pdata k' = pdata k ∧ keycode k' = keycode k.
Proof.
  intros Hfifo Hkp k'. unfold k', tegra_kbc_isr. kbc_ops.
  unfold KBC_INT_FIFO_CNT_INT_STATUS, KBC_INT_KEYPRESS_INT_STATUS.
  rewrite !land_bit_testbit by lia. rewrite Hfifo, Hkp. kbc_ops. kbc_fields.
  repeat split.
  - intros offset.
    destruct (decide (KBC_INT_0 = offset)) as [<-|Hne].
    + by rewrite fn_lookup_insert.
    + by rewrite fn_lookup_insert_ne.
  - by rewrite <- app_assoc.
Qed.

(** X4: reporting a sample reads the two FIFO words and nothing else of
    the controller: no register is written, and the interrupt line, the
    timer, the clock and the configuration are left alone. *)
Theorem report_keys_writes_no_register (KBC_MAX_KEY KEY_FN : Z)
    (fr : stack_frame) (k : tegra_kbc) :
  let k' := exec (tegra_kbc_report_keys KBC_MAX_KEY KEY_FN fr) k in
  bus k' = bus k ++ [BusRead KBC_KP_ENT0_0; BusRead KBC_KP_ENT1_0] ∧
  mmio k' = mmio k ∧
  irq k' = irq k ∧ timer k' = timer k ∧ clk k' = clk k ∧
  is_open k' = is_open k ∧
  keypress_caused_wake k' = keypress_caused_wake k ∧
  keycode k' = keycode k ∧ pdata k' = pdata k ∧
  use_fn_map k' = use_fn_map k ∧ use_ghost_filter k' = use_ghost_filter k ∧
  repoll_dly k' = repoll_dly k ∧ cp_dly_jiffies k' = cp_dly_jiffies k.
Proof.
  intros k'.
  destruct (tegra_kbc_report_keys_run KBC_MAX_KEY KEY_FN fr k) as [rest Hrun].
  fold k' in Hrun. cbv zeta in Hrun. rewrite Hrun.
  by destruct (sample_ghosted KEY_FN k).
Qed.

(** The sample depends on the FIFO words, the key map and the Fn setting
    only. *)
Lemma sample_frame (KBC_MAX_KEY KEY_FN : Z) (k k' : tegra_kbc) :
  mmio k' = mmio k → keycode k' = keycode k → use_fn_map k' = use_fn_map k →
  use_ghost_filter k' = use_ghost_filter k →
  sample_scancodes KBC_MAX_KEY KEY_FN k' = sample_scancodes KBC_MAX_KEY KEY_FN k ∧
  sample_keycodes KBC_MAX_KEY KEY_FN k' = sample_keycodes KBC_MAX_KEY KEY_FN k ∧
  sample_ghosted KEY_FN k' = sample_ghosted KEY_FN k.
Proof.
  intros Hm Hk Hf Hg.
  unfold sample_keycodes, sample_scancodes, sample_ghosted, sample_fn,
    sample_positions, lane_is_fn, fifo_lanes.
  by rewrite Hm, Hk, Hf, Hg.
Qed.

Lemma release_events_same (kcs : list Z) : release_events kcs kcs = [].
Proof.
  unfold release_events.
  assert (∀ l, (∀ c, c ∈ l → c ∈ kcs) → List.filter (key_absent kcs) l = [])
    as Hall.
  { induction l as [|c l IH]; intros Hin; cbn [List.filter]; [done|].
    assert (key_absent kcs c = false) as ->.
    { unfold key_absent. apply negb_false_iff, bool_decide_eq_true_2.
      apply Hin. constructor. }
    apply IH. intros c' Hc'. apply Hin. by constructor. }
  by rewrite Hall.
Qed.

Lemma release_events_nil (held : list Z) :
  release_events held [] = map (λ c, EvKey c 0) held.
Proof.
  unfold release_events. f_equal.
  induction held as [|c l IH]; cbn [List.filter]; [done|].
  assert (key_absent [] c = true) as ->.
  { unfold key_absent. apply negb_true_iff, bool_decide_eq_false_2.
    by intros ?%elem_of_nil. }
  by rewrite IH.
Qed.

(** X6: a sample that comes again unchanged gives no release: each key
    still held is pressed again, and [CurrentKeys] stays as it is. *)
Theorem held_keys_are_not_released (KBC_MAX_KEY KEY_FN : Z)
    (fr fr' : stack_frame) (k : tegra_kbc) :
  sample_ghosted KEY_FN k = false →
  let k1 := exec (tegra_kbc_report_keys KBC_MAX_KEY KEY_FN fr) k in
  let k2 := exec (tegra_kbc_report_keys KBC_MAX_KEY KEY_FN fr') k1 in
  idev k2 =
    idev k1
    ++ press_events (sample_scancodes KBC_MAX_KEY KEY_FN k)
         (sample_keycodes KBC_MAX_KEY KEY_FN k)
    ++ [EvSync] ∧
  CurrentKeys k2 = CurrentKeys k1.
Proof.
  intros Hg k1 k2.
  destruct (tegra_kbc_report_keys_run KBC_MAX_KEY KEY_FN fr k) as [rest Hrun].
  fold k1 in Hrun. cbv zeta in Hrun. rewrite Hg in Hrun.
  assert (CurrentKeys k1 = sample_keycodes KBC_MAX_KEY KEY_FN k) as Hc1
    by (rewrite Hrun; by apply (CurrentKeys_app _ rest)).
  destruct (sample_frame KBC_MAX_KEY KEY_FN k k1) as (Hs & Hk & Hg1);
    [by rewrite Hrun..|].
  destruct (tegra_kbc_report_keys_run KBC_MAX_KEY KEY_FN fr' k1)
    as [rest' Hrun'].
  fold k2 in Hrun'. cbv zeta in Hrun'. rewrite Hg1, Hg in Hrun'.
  assert (CurrentKeys k2 = sample_keycodes KBC_MAX_KEY KEY_FN k1) as Hc2
    by (rewrite Hrun'; by apply (CurrentKeys_app _ rest')).
  split; [|by rewrite Hc2, Hk, Hc1].
  rewrite Hrun'. cbn [idev]. unfold sample_batch.
  by rewrite Hc1, Hs, Hk, release_events_same.
Qed.

Lemma sample_empty (KBC_MAX_KEY KEY_FN : Z) (k : tegra_kbc) :
  forallb (λ b, negb (lane_valid b)) (fifo_lanes k) = true →
  sample_scancodes KBC_MAX_KEY KEY_FN k = [] ∧
  sample_keycodes KBC_MAX_KEY KEY_FN k = [] ∧
  sample_ghosted KEY_FN k = false.
Proof.
  intros Hnone.
  assert (sample_positions KEY_FN k = []) as Hp.
  { unfold sample_positions.
    induction (fifo_lanes k) as [|b l IH]; simpl in *; [done|].
    apply andb_true_iff in Hnone as [Hb Hl].
    apply negb_true_iff in Hb. rewrite Hb. cbn [andb]. by apply IH. }
  unfold sample_keycodes, sample_scancodes, sample_ghosted.
  rewrite Hp. cbn [length Nat.leb]. rewrite andb_false_r.
  by destruct (sample_fn KEY_FN k).
Qed.

(** X7: a sample without any valid entry releases every key that was
    held and leaves [CurrentKeys] empty. *)
Theorem empty_sample_releases_all (KBC_MAX_KEY KEY_FN : Z)
    (fr : stack_frame) (k : tegra_kbc) :
  forallb (λ b, negb (lane_valid b)) (fifo_lanes k) = true →
  let k' := exec (tegra_kbc_report_keys KBC_MAX_KEY KEY_FN fr) k in
  idev k' = idev k ++ map (λ c, EvKey c 0) (CurrentKeys k) ++ [EvSync] ∧
  num_pressed_keys k' = O ∧
  CurrentKeys k' = [].
Proof.
  intros Hnone k'.
  destruct (sample_empty KBC_MAX_KEY KEY_FN k Hnone) as (Hs & Hk & Hg).
  destruct (tegra_kbc_report_keys_run KBC_MAX_KEY KEY_FN fr k) as [rest Hrun].
  fold k' in Hrun. cbv zeta in Hrun. rewrite Hg in Hrun. rewrite Hrun.
  unfold CurrentKeys at 2. cbn [idev num_pressed_keys current_keys].
  unfold sample_batch. rewrite Hs, Hk, release_events_nil.
  done.
Qed.

(** X8: the scan-mode cycle.  A threshold interrupt, and then a timer
    fire that finds the FIFO empty (the controller having set [KBC_INT_0]
    to [status] in between), releases every held key, empties
    [CurrentKeys] and leaves the control register with the FIFO interrupt
    enabled and its other bits as they were before the interrupt. *)
Theorem interrupt_then_idle (KBC_MAX_KEY KEY_FN : Z) (fr : stack_frame)
    (k : tegra_kbc) (status : Z) :
  Z.testbit (mmio k KBC_INT_0) 2 = true →
  Z.land (Z.shiftr status 4) 0xf = 0 →
  let k1 := exec tegra_kbc_isr k in
  let k2 := exec (tegra_kbc_keypress_timer KBC_MAX_KEY KEY_FN fr)
              (set_mmio (λ m, <[KBC_INT_0 := status]> m) k1) in
  idev k2 = idev k ++ map (λ c, EvKey c 0) (CurrentKeys k) ++ [EvSync] ∧
  CurrentKeys k2 = [] ∧
  ∀ n, 0 <= n < 32 →
    Z.testbit (mmio k2 KBC_CONTROL_0) n
    = if n =? 3 then true else Z.testbit (mmio k KBC_CONTROL_0) n.
Proof.
  intros Hbit Hocc k1 k2. unfold k2, k1.
  rewrite tegra_kbc_isr_fifo_run by done. cbv zeta.
  rewrite tegra_kbc_keypress_timer_idle
    by (kbc_fields; by rewrite fn_lookup_insert).
  cbv zeta. unfold CurrentKeys. kbc_fields.
  repeat split. intros n Hn.
  rewrite fn_lookup_insert.
  rewrite (fn_lookup_insert_ne _ KBC_INT_0 KBC_CONTROL_0) by done.
  rewrite fn_lookup_insert.
  unfold KBC_CONTROL_FIFO_CNT_INT_EN.
  rewrite testbit_set_bit, testbit_clear_bit by lia.
  destruct (n =? 3); [apply orb_true_r|].
  by rewrite orb_false_r, andb_true_r.
Qed.

(** ** Array bounds *)

Lemma sample_keycodes_length (KBC_MAX_KEY KEY_FN : Z) (k : tegra_kbc) :
  (length (sample_keycodes KBC_MAX_KEY KEY_FN k) ≤ KBC_MAX_KPENT)%nat.
Proof.
  unfold sample_keycodes, sample_scancodes.
  assert (length (sample_positions KEY_FN k) ≤ KBC_MAX_KPENT)%nat as Hp.
  { unfold sample_positions. rewrite length_map.
    etransitivity; [apply filter_length_le|]. done. }
  destruct (sample_fn KEY_FN k); by rewrite !length_map.
Qed.

Lemma memcpy_length {A} (dst src : list A) n :
  length src = n → length dst = n → length (memcpy dst src n) = n.
Proof.
  intros Hs Hd. unfold memcpy. rewrite length_app, length_take, length_drop.
  lia.
Qed.

(** What [tegra_kbc_report_keys] stores in [current_keys]: nothing, or a
    copy of the whole array [keycodes]. *)
Lemma report_keys_current_keys (KBC_MAX_KEY KEY_FN : Z) (fr : stack_frame)
    (k : tegra_kbc) :
  let k' := exec (tegra_kbc_report_keys KBC_MAX_KEY KEY_FN fr) k in
  current_keys k' = current_keys k ∨
  ∃ kcs, length kcs = KBC_MAX_KPENT ∧
         current_keys k' = memcpy (current_keys k) kcs KBC_MAX_KPENT.
Proof.
  unfold tegra_kbc_report_keys, exec, op_bind.
  rewrite report_keys_decode_run.
  pose proof (report_keys_decoded KEY_FN k fr) as Hd.
  match type of Hd with decoded _ _ ?l => set (l1 := l) in * end.
  unfold op_get.
  set (k1 := set_bus _ (set_bus _ k)).
  change (use_ghost_filter k1) with (use_ghost_filter k).
  change (keycode k1) with (keycode k).
  change (current_keys k1) with (current_keys k).
  change (num_pressed_keys k1) with (num_pressed_keys k).
  pose proof (report_keys_ghost_checked KEY_FN k l1 Hd) as Hg.
  pose proof (decoded_num_down KEY_FN k l1 Hd) as Hle.
  destruct Hd as (Hn & Hs & Hk & Hfn & Hls & Hlk & Hr & Hc).
  set (l2 := if use_ghost_filter k && (3 <=? num_down l1)%nat
             then for_ report_keys_ghost O (num_down l1) l1 else l1) in *.
  cbv zeta in Hg. destruct Hg as (Hs2 & Hk2 & Hn2 & Hfn2 & Hgh).
  pose proof (report_keys_translated KBC_MAX_KEY KEY_FN k l2) as Ht.
  cbv zeta in Ht.
  set (l3 := if fn_keypress l2
             then for_ (report_keys_fn KBC_MAX_KEY (keycode k)) O (num_down l2) l2
             else l2) in *.
  destruct Ht as (Hn3 & Hs3 & Hk3 & Hlk3 & Hr3 & Hc3).
  { rewrite Hn2, Hs2. done. }
  { rewrite Hk2, Hs2. congruence. }
  { rewrite Hn2, Hs2. by rewrite array_prefix_take. }
  { rewrite Hn2, Hk2. by rewrite array_prefix_take by lia. }
  { congruence. }
  cbv zeta. destruct (key_in_same_col l3 && key_in_same_row l3).
  - left. unfold op_ret. cbn [snd]. unfold k1. by kbc_fields.
  - right. exists (keycodes l3). split; [by rewrite Hlk3, Hk2, Hlk|].
    unfold op_modify. cbv beta iota zeta. cbn [snd]. by kbc_fields.
Qed.

Lemma report_keys_in_bounds (KBC_MAX_KEY KEY_FN : Z) (fr : stack_frame) k :
  keys_in_bounds k →
  keys_in_bounds (exec (tegra_kbc_report_keys KBC_MAX_KEY KEY_FN fr) k).
Proof.
  intros [Hlen Hnum]. split.
  - destruct (report_keys_current_keys KBC_MAX_KEY KEY_FN fr k)
      as [->|(kcs & Hk & ->)]; [done|]. by apply memcpy_length.
  - destruct (tegra_kbc_report_keys_run KBC_MAX_KEY KEY_FN fr k)
      as [rest Hrun].
    cbv zeta in Hrun. rewrite Hrun.
    destruct (sample_ghosted KEY_FN k); [done|].
    apply sample_keycodes_length.
Qed.

Lemma keys_in_bounds_frame k k' :
  current_keys k' = current_keys k →
  num_pressed_keys k' = num_pressed_keys k →
  keys_in_bounds k → keys_in_bounds k'.
Proof. unfold keys_in_bounds. by intros -> ->. Qed.

Lemma kbc_step_in_bounds (KBC_MAX_KEY KEY_FN : Z) k k' :
  kbc_step KBC_MAX_KEY KEY_FN k k' → keys_in_bounds k → keys_in_bounds k'.
Proof.
  intros Hstep Hb. destruct Hstep as [fr k|fr k|k|k].
  - by apply report_keys_in_bounds.
  - destruct (decide (Z.land (Z.shiftr (mmio k KBC_INT_0) 4) 0xf = 0))
      as [Hz|Hnz].
    + rewrite tegra_kbc_keypress_timer_idle by done. cbv zeta.
      destruct Hb as [Hlen _]. split; [done|]. cbn [num_pressed_keys]. lia.
    + rewrite tegra_kbc_keypress_timer_poll by done. cbv zeta.
      assert (keys_in_bounds (set_bus (λ b, b ++ [BusRead KBC_INT_0]) k))
        as Hbus by (by apply (keys_in_bounds_frame k)).
      apply (report_keys_in_bounds KBC_MAX_KEY KEY_FN fr) in Hbus.
      revert Hbus. generalize (exec (tegra_kbc_report_keys KBC_MAX_KEY KEY_FN fr)
                        (set_bus (λ b, b ++ [BusRead KBC_INT_0]) k)).
      intros polled Hpolled. by apply (keys_in_bounds_frame polled).
  - destruct (tegra_kbc_isr_events k) as (Hi & Hc & Hn).
    by apply (keys_in_bounds_frame k).
  - by apply (keys_in_bounds_frame k).
Qed.

(** X5: the driver never lets [num_pressed_keys] pass the size of
    [current_keys]: with the array at its declared size and
    [num_pressed_keys] within it, both stay so through any sequence of
    reports, timer fires, interrupts and stops. *)
Theorem current_keys_stay_in_bounds (KBC_MAX_KEY KEY_FN : Z)
    (k k' : tegra_kbc) :
  keys_in_bounds k →
  kbc_run KBC_MAX_KEY KEY_FN k k' →
  keys_in_bounds k'.
Proof.
  intros Hb Hrun. induction Hrun as [k|k k' k'' Hstep _ IH]; [done|].
  apply IH. by apply (kbc_step_in_bounds KBC_MAX_KEY KEY_FN k).
Qed.

(** ** The pin configuration *)

Section PinFacts.

Variable KBC_MAX_GPIO : nat.
Variable KBC_MAX_ROW : nat.
Variable KBC_MAX_COL : nat.

Let ok := pin_cfg_ok KBC_MAX_ROW KBC_MAX_COL.

Lemma tegra_kbc_check_pin_cfg_from_spec (pin_cfg : list tegra_kbc_pin_cfg) n :
  ∀ i num_rows, (i + n ≤ length pin_cfg)%nat →
  tegra_kbc_check_pin_cfg_from KBC_MAX_ROW KBC_MAX_COL pin_cfg i n num_rows
  = (forallb ok (take n (drop i pin_cfg)),
     (num_rows + length (List.filter pin_is_row
                           (accepted_pins ok (take n (drop i pin_cfg)))))%nat).
Proof.
  induction n as [|n IH]; intros i num_rows Hlen.
  - simpl. by rewrite Nat.add_0_r.
  - rewrite take_drop_lookup by lia.
    cbn [tegra_kbc_check_pin_cfg_from forallb accepted_pins].
    unfold ok at 1 3, pin_cfg_ok.
    destruct (pin_cfg !!! i) as [[] num] eqn:Hpin; cbn [pc_type pc_num].
    + rewrite IH by lia. cbn [andb List.filter pin_is_row pc_type]. done.
    + destruct (Z.leb_spec (Z.of_nat KBC_MAX_COL) num),
        (Z.ltb_spec num (Z.of_nat KBC_MAX_COL)); try lia.
      * simpl. by rewrite Nat.add_0_r.
      * rewrite IH by lia. cbn [andb List.filter pin_is_row pc_type]. done.
    + destruct (Z.leb_spec (Z.of_nat KBC_MAX_ROW) num),
        (Z.ltb_spec num (Z.of_nat KBC_MAX_ROW)); try lia.
      * simpl. by rewrite Nat.add_0_r.
      * rewrite IH by lia. cbn [andb List.filter pin_is_row pc_type length].
        rewrite Nat.add_succ_r. done.
    + simpl. by rewrite Nat.add_0_r.
Qed.

Lemma accepted_pins_all (l : list tegra_kbc_pin_cfg) :
  forallb ok l = true → accepted_pins ok l = l.
Proof.
  induction l as [|p l IH]; simpl; [done|].
  intros [-> Hl]%andb_true_iff. by rewrite IH.
Qed.

(** X9: the check accepts a pin configuration exactly when every pin is a
    row with a number below [KBC_MAX_ROW], a column with a number below
    [KBC_MAX_COL], or unused; it then counts the row pins, of which there
    are at most [KBC_MAX_GPIO]. *)
Theorem check_pin_cfg_accepts (pin_cfg : list tegra_kbc_pin_cfg) :
  length pin_cfg = KBC_MAX_GPIO →
  let r := tegra_kbc_check_pin_cfg KBC_MAX_GPIO KBC_MAX_ROW KBC_MAX_COL
             pin_cfg in
  r.1 = forallb (pin_cfg_ok KBC_MAX_ROW KBC_MAX_COL) pin_cfg ∧
  (r.1 = true →
   r.2 = length (List.filter pin_is_row pin_cfg) ∧ (r.2 ≤ KBC_MAX_GPIO)%nat).
Proof.
  intros Hlen r. unfold r, tegra_kbc_check_pin_cfg.
  rewrite tegra_kbc_check_pin_cfg_from_spec by lia.
  rewrite drop_0, <- Hlen, firstn_all. cbn [fst snd]. split; [done|].
  intros Hall. rewrite accepted_pins_all by done. split; [done|].
  apply filter_length_le.
Qed.

(** X10: when the check rejects a configuration it stops at the first
    pin it rejects: the row count it leaves is that of the pins before. *)
Theorem check_pin_cfg_stops_at_first_bad (pin_cfg : list tegra_kbc_pin_cfg) :
  length pin_cfg = KBC_MAX_GPIO →
  (tegra_kbc_check_pin_cfg KBC_MAX_GPIO KBC_MAX_ROW KBC_MAX_COL pin_cfg).2
  = length (List.filter pin_is_row
              (accepted_pins (pin_cfg_ok KBC_MAX_ROW KBC_MAX_COL) pin_cfg)).
Proof.
  intros Hlen. unfold tegra_kbc_check_pin_cfg.
  rewrite tegra_kbc_check_pin_cfg_from_spec by lia.
  by rewrite drop_0, <- Hlen, firstn_all.
Qed.

End PinFacts.

(** ** Programming the pin configuration *)

Lemma testbit_u32 v n : 0 <= n < 32 → Z.testbit (u32 v) n = Z.testbit v n.
Proof. intros Hn. unfold u32. by rewrite Z.mod_pow2_bits_low by lia. Qed.

Lemma testbit_field_mask (w s n : Z) :
  0 <= w → 0 <= s → 0 <= n →
  Z.testbit (Z.shiftl (Z.ones w) s) n = (s <=? n) && (n <? s + w).
Proof.
  intros Hw Hs Hn. rewrite Z.shiftl_spec by lia.
  destruct (Z.leb_spec s n); cbn [andb].
  - rewrite Z.testbit_ones_nonneg by lia.
    destruct (Z.ltb_spec (n - s) w), (Z.ltb_spec n (s + w)); (done || lia).
  - apply Z.testbit_neg_r. lia.
Qed.

(** Clearing a field of a configuration word. *)
Lemma testbit_field_clear v (w s n : Z) :
  0 <= w → 0 <= s → 0 <= n < 32 →
  Z.testbit (Z.land v (u32 (Z.lnot (u32 (Z.shiftl (Z.ones w) s))))) n
  = Z.testbit v n && negb ((s <=? n) && (n <? s + w)).
Proof.
  intros Hw Hs Hn.
  rewrite Z.land_spec, testbit_u32, Z.lnot_spec, testbit_u32 by lia.
  by rewrite testbit_field_mask by lia.
Qed.

Lemma testbit_field_value x (s n : Z) :
  0 <= s → 0 <= n < 32 →
  Z.testbit (u32 (Z.shiftl x s)) n = Z.testbit x (n - s).
Proof. intros Hs Hn. by rewrite testbit_u32, Z.shiftl_spec by lia. Qed.

Lemma pin_cfg_code_bits (p : tegra_kbc_pin_cfg) (w n : Z) :
  0 <= pc_num p < 2 ^ (w - 1) → 1 <= w → (n < 0 ∨ w <= n) →
  Z.testbit (pin_cfg_code p) n = false.
Proof.
  intros Hnum Hw [Hn|Hn]; [by apply Z.testbit_neg_r|].
  unfold pin_cfg_code. rewrite Z.lor_spec, Z.shiftl_spec by lia.
  apply orb_false_iff. split.
  - destruct (decide (pc_num p = 0)) as [->|Hne]; [apply Z.testbit_0_l|].
    apply Z.bits_above_log2; [lia|].
    assert (Z.log2 (pc_num p) < w - 1) by (apply Z.log2_lt_pow2; lia). lia.
  - change 1 with (2 ^ 0). apply Z.pow2_bits_false. lia.
Qed.

Lemma land_double_1 x : Z.land (x * 2) 1 = 0.
Proof.
  apply Z.bits_inj'. intros n Hn. rewrite Z.land_spec, Z.testbit_0_l.
  destruct (decide (n = 0)) as [->|Hne].
  - replace (x * 2) with (2 * x) by lia. by rewrite Z.testbit_even_0.
  - change 1 with (2 ^ 0). rewrite Z.pow2_bits_false by lia.
    apply andb_false_r.
Qed.

Lemma pin_cfg_code_add (p : tegra_kbc_pin_cfg) :
  pin_cfg_code p = 2 * pc_num p + 1.
Proof.
  unfold pin_cfg_code. rewrite Z.shiftl_mul_pow2 by lia.
  change (2 ^ 1) with 2.
  rewrite <- Z.lxor_lor, <- Z.add_nocarry_lxor by apply land_double_1. lia.
Qed.

(** What one pin does to bit [n] of the register at [offset]. *)
Lemma tegra_kbc_config_pin_bits (pin_cfg : list tegra_kbc_pin_cfg) (i : nat)
    (k : tegra_kbc) (offset n : Z) :
  (i < 24)%nat → pin_fits (pin_cfg !!! i) → 0 <= n < 32 →
  Z.testbit (mmio (exec (tegra_kbc_config_pin pin_cfg i tt) k) offset) n
  = if row_cfg_bit i offset n then
      pin_is_row (pin_cfg !!! i)
      && Z.testbit (pin_cfg_code (pin_cfg !!! i)) (n - 5 * (Z.of_nat i mod 6))
    else if col_cfg_bit i offset n then
      pin_is_col (pin_cfg !!! i)
      && Z.testbit (pin_cfg_code (pin_cfg !!! i)) (n - 4 * (Z.of_nat i mod 8))
    else Z.testbit (mmio k offset) n.
Proof.
  intros Hi (Hnum & Hrow & Hcol) Hn.
  unfold tegra_kbc_config_pin. kbc_ops. kbc_fields.
  unfold row_cfg_bit, col_cfg_bit, pin_is_row, pin_is_col.
  fold (pin_cfg_code (pin_cfg !!! i)).
  set (p := pin_cfg !!! i) in *.
  assert (0 <= Z.of_nat i mod 6 < 6) as Hm6 by (apply Z.mod_pos_bound; lia).
  assert (0 <= Z.of_nat i mod 8 < 8) as Hm8 by (apply Z.mod_pos_bound; lia).
  assert (0 <= Z.of_nat i / 6 < 4) as Hd6
    by (split; [apply Z.div_pos; lia|apply Z.div_lt_upper_bound; lia]).
  assert (0 <= Z.of_nat i / 8 < 3) as Hd8
    by (split; [apply Z.div_pos; lia|apply Z.div_lt_upper_bound; lia]).
  set (r_offs := Z.of_nat i / 6 * 4 + KBC_ROW_CFG0_0) in *.
  set (c_offs := Z.of_nat i / 8 * 4 + KBC_COL_CFG0_0) in *.
  assert (r_offs ≠ c_offs) as Hoffs
    by (unfold r_offs, c_offs, KBC_ROW_CFG0_0, KBC_COL_CFG0_0; lia).
  destruct (Z.eqb_spec offset c_offs) as [->|Hc]; cbn [andb].
  - rewrite fn_lookup_insert.
    destruct (Z.eqb_spec c_offs r_offs) as [|_]; [congruence|]. cbn [andb].
    change 15 with (Z.ones 4).
    destruct (pc_type p) eqn:Htype.
    1,3,4: rewrite testbit_field_clear by lia;
      destruct ((4 * (Z.of_nat i mod 8) <=? n)
                && (n <? 4 * (Z.of_nat i mod 8) + 4));
      [apply andb_false_r|apply andb_true_r].
    specialize (Hcol eq_refl).
    rewrite Z.lor_spec, testbit_field_clear, testbit_field_value by lia.
    destruct (Z.leb_spec (4 * (Z.of_nat i mod 8)) n),
      (Z.ltb_spec n (4 * (Z.of_nat i mod 8) + 4)); cbn [andb negb].
    all: rewrite ?andb_false_r, ?andb_true_r; cbn [orb]; try done.
    all: rewrite (pin_cfg_code_bits p 4) by (change (2 ^ (4 - 1)) with 8; lia).
    all: apply orb_false_r.
  - rewrite fn_lookup_insert_ne by done.
    destruct (Z.eqb_spec offset r_offs) as [->|Hr]; cbn [andb].
    + rewrite fn_lookup_insert. change 31 with (Z.ones 5).
      destruct (pc_type p) eqn:Htype.
      1,2,4: rewrite testbit_field_clear by lia;
        destruct ((5 * (Z.of_nat i mod 6) <=? n)
                  && (n <? 5 * (Z.of_nat i mod 6) + 5));
        [apply andb_false_r|apply andb_true_r].
      specialize (Hrow eq_refl).
      rewrite Z.lor_spec, testbit_field_clear, testbit_field_value by lia.
      destruct (Z.leb_spec (5 * (Z.of_nat i mod 6)) n),
        (Z.ltb_spec n (5 * (Z.of_nat i mod 6) + 5)); cbn [andb negb].
      all: rewrite ?andb_false_r, ?andb_true_r; cbn [orb]; try done.
      all: rewrite (pin_cfg_code_bits p 5) by (change (2 ^ (5 - 1)) with 16; lia).
      all: apply orb_false_r.
    + by rewrite fn_lookup_insert_ne.
Qed.

(** The fields of two pins do not overlap, and a row field never
    overlaps a column field. *)
Lemma cfg_bits_disjoint (i j : nat) (offset n : Z) :
  (i < 24)%nat → (j < 24)%nat →
  row_cfg_bit i offset n || col_cfg_bit i offset n = true →
  (row_cfg_bit i offset n && col_cfg_bit i offset n = false) ∧
  (i ≠ j → row_cfg_bit j offset n = false ∧ col_cfg_bit j offset n = false) ∧
  (row_cfg_bit i offset n = true → col_cfg_bit j offset n = false) ∧
  (col_cfg_bit i offset n = true → row_cfg_bit j offset n = false).
Proof.
  intros Hi Hj. unfold row_cfg_bit, col_cfg_bit, KBC_ROW_CFG0_0, KBC_COL_CFG0_0.
  rewrite orb_true_iff, !andb_true_iff, !andb_false_iff.
  rewrite !Z.eqb_eq, !Z.eqb_neq, !Z.leb_le, !Z.leb_gt, !Z.ltb_lt, !Z.ltb_ge.
  intros Hin. repeat split; try intros ?;
    Z.div_mod_to_equations; lia.
Qed.

Lemma exec_config_pin_S (pin_cfg : list tegra_kbc_pin_cfg) i n k :
  exec (for_op (tegra_kbc_config_pin pin_cfg) i (S n) tt) k
  = exec (for_op (tegra_kbc_config_pin pin_cfg) (S i) n tt)
      (exec (tegra_kbc_config_pin pin_cfg i tt) k).
Proof.
  rewrite exec_for_op_S. unfold exec.
  by destruct (tegra_kbc_config_pin pin_cfg i tt k).1.
Qed.

(** A bit outside the fields of the pins that are programmed is left as
    it is. *)
Lemma config_pins_other_bits (pin_cfg : list tegra_kbc_pin_cfg) n :
  ∀ i k (offset b : Z),
  (i + n ≤ 24)%nat →
  (∀ j, (i ≤ j < i + n)%nat → pin_fits (pin_cfg !!! j)) →
  0 <= b < 32 →
  (∀ j, (i ≤ j < i + n)%nat →
        row_cfg_bit j offset b = false ∧ col_cfg_bit j offset b = false) →
  Z.testbit (mmio (exec (for_op (tegra_kbc_config_pin pin_cfg) i n tt) k)
               offset) b
  = Z.testbit (mmio k offset) b.
Proof.
  induction n as [|n IH]; intros i k offset b Hlen Hfit Hb Hout; [done|].
  rewrite exec_config_pin_S, IH; [|lia|intros; apply Hfit; lia|done|
                                  intros; apply Hout; lia].
  rewrite tegra_kbc_config_pin_bits by (done || lia || (apply Hfit; lia)).
  destruct (Hout i) as [-> ->]; [lia|done].
Qed.

(** A bit inside a field of a pin that is programmed gets the bit of the
    code of the pin, or 0 if the field does not go with the pin's type. *)
Lemma config_pins_field_bits (pin_cfg : list tegra_kbc_pin_cfg) n :
  ∀ i k (j : nat) (offset b : Z),
  (i + n ≤ 24)%nat →
  (∀ j, (i ≤ j < i + n)%nat → pin_fits (pin_cfg !!! j)) →
  0 <= b < 32 → (i ≤ j < i + n)%nat →
  row_cfg_bit j offset b || col_cfg_bit j offset b = true →
  Z.testbit (mmio (exec (for_op (tegra_kbc_config_pin pin_cfg) i n tt) k)
               offset) b
  = if row_cfg_bit j offset b then
      pin_is_row (pin_cfg !!! j)
      && Z.testbit (pin_cfg_code (pin_cfg !!! j)) (b - 5 * (Z.of_nat j mod 6))
    else
      pin_is_col (pin_cfg !!! j)
      && Z.testbit (pin_cfg_code (pin_cfg !!! j)) (b - 4 * (Z.of_nat j mod 8)).
Proof.
  induction n as [|n IH]; intros i k j offset b Hlen Hfit Hb Hj Hin; [lia|].
  rewrite exec_config_pin_S.
  destruct (decide (j = i)) as [->|Hne].
  - rewrite config_pins_other_bits;
      [|lia|intros; apply Hfit; lia|done|].
    + rewrite tegra_kbc_config_pin_bits by (done || lia || (apply Hfit; lia)).
      destruct (row_cfg_bit i offset b); [done|].
      cbn [orb] in Hin. by rewrite Hin.
    + intros j' Hj'.
      destruct (cfg_bits_disjoint i j' offset b) as (_ & Hd & _);
        [lia..|done|]. apply Hd. lia.
  - apply IH; [lia|intros; apply Hfit; lia|done|lia|done].
Qed.

Lemma testbit_field_read (w s n : Z) (width : Z) :
  0 <= s → 0 <= n → 0 <= width →
  Z.testbit (Z.land (Z.shiftr w s) (Z.ones width)) n
  = Z.testbit w (n + s) && (n <? width).
Proof.
  intros Hs Hn Hw.
  by rewrite Z.land_spec, Z.shiftr_spec, Z.testbit_ones_nonneg by lia.
Qed.

Lemma pin_cfg_ok_fits (KBC_MAX_ROW KBC_MAX_COL : nat) (p : tegra_kbc_pin_cfg) :
  (KBC_MAX_ROW ≤ 16)%nat → (KBC_MAX_COL ≤ 8)%nat → 0 <= pc_num p →
  pin_cfg_ok KBC_MAX_ROW KBC_MAX_COL p = true → pin_fits p.
Proof.
  intros Hr Hc Hnum Hok. unfold pin_cfg_ok in Hok. split; [done|].
  split; intros Htype; rewrite Htype in Hok; apply Z.ltb_lt in Hok; lia.
Qed.

Section ConfigPins.

Variable KBC_MAX_GPIO : nat.
Variable pin_cfg : list tegra_kbc_pin_cfg.
Hypothesis gpio_count : (KBC_MAX_GPIO ≤ 24)%nat.
Hypothesis pins_fit : ∀ j, (j < KBC_MAX_GPIO)%nat → pin_fits (pin_cfg !!! j).

(** The fields of a pin after [tegra_kbc_config_pins]. *)
Lemma config_pins_fields (k : tegra_kbc) (i : nat) :
  (i < KBC_MAX_GPIO)%nat →
  let k' := exec (tegra_kbc_config_pins KBC_MAX_GPIO pin_cfg) k in
  row_cfg_field (mmio k') i
    = (if pin_is_row (pin_cfg !!! i) then pin_cfg_code (pin_cfg !!! i) else 0) ∧
  col_cfg_field (mmio k') i
    = (if pin_is_col (pin_cfg !!! i) then pin_cfg_code (pin_cfg !!! i) else 0).
Proof.
  intros Hi k'. unfold k', tegra_kbc_config_pins, row_cfg_field, col_cfg_field.
  assert (0 <= Z.of_nat i mod 6 < 6) as Hm6 by (apply Z.mod_pos_bound; lia).
  assert (0 <= Z.of_nat i mod 8 < 8) as Hm8 by (apply Z.mod_pos_bound; lia).
  destruct (pins_fit i Hi) as (Hnum & Hrow & Hcol).
  split; apply Z.bits_inj'; intros n Hn.
  - change 31 with (Z.ones 5). rewrite testbit_field_read by lia.
    destruct (Z.ltb_spec n 5) as [Hlt|Hge].
    + rewrite andb_true_r.
      rewrite (config_pins_field_bits pin_cfg KBC_MAX_GPIO O k i);
        [|lia|intros; apply pins_fit; lia|lia|lia|].
      * assert (row_cfg_bit i (Z.of_nat i / 6 * 4 + KBC_ROW_CFG0_0)
                  (n + 5 * (Z.of_nat i mod 6)) = true) as ->.
        { unfold row_cfg_bit. rewrite Z.eqb_refl. cbn [andb].
          apply andb_true_iff. split; [apply Z.leb_le|apply Z.ltb_lt]; lia. }
        replace (n + 5 * (Z.of_nat i mod 6) - 5 * (Z.of_nat i mod 6))
          with n by lia.
        destruct (pin_is_row (pin_cfg !!! i)); [done|].
        by rewrite Z.testbit_0_l.
      * apply orb_true_iff. left. unfold row_cfg_bit.
        rewrite Z.eqb_refl. cbn [andb].
        apply andb_true_iff. split; [apply Z.leb_le|apply Z.ltb_lt]; lia.
    + rewrite andb_false_r. symmetry.
      unfold pin_is_row. destruct (pc_type (pin_cfg !!! i)) eqn:Htype;
        try apply Z.testbit_0_l.
      apply (pin_cfg_code_bits _ 5); [|lia|lia].
      specialize (Hrow eq_refl). change (2 ^ (5 - 1)) with 16. lia.
  - change 15 with (Z.ones 4). rewrite testbit_field_read by lia.
    destruct (Z.ltb_spec n 4) as [Hlt|Hge].
    + rewrite andb_true_r.
      assert (col_cfg_bit i (Z.of_nat i / 8 * 4 + KBC_COL_CFG0_0)
                (n + 4 * (Z.of_nat i mod 8)) = true) as Hcolbit.
      { unfold col_cfg_bit. rewrite Z.eqb_refl. cbn [andb].
        apply andb_true_iff. split; [apply Z.leb_le|apply Z.ltb_lt]; lia. }
      rewrite (config_pins_field_bits pin_cfg KBC_MAX_GPIO O k i);
        [|lia|intros; apply pins_fit; lia|lia|lia|
         by rewrite Hcolbit, orb_true_r].
      destruct (cfg_bits_disjoint i i (Z.of_nat i / 8 * 4 + KBC_COL_CFG0_0)
                  (n + 4 * (Z.of_nat i mod 8))) as (_ & _ & _ & Hd);
        [lia|lia|by rewrite Hcolbit, orb_true_r|].
      rewrite (Hd Hcolbit).
      replace (n + 4 * (Z.of_nat i mod 8) - 4 * (Z.of_nat i mod 8))
        with n by lia.
      destruct (pin_is_col (pin_cfg !!! i)); [done|].
      by rewrite Z.testbit_0_l.
    + rewrite andb_false_r. symmetry.
      unfold pin_is_col. destruct (pc_type (pin_cfg !!! i)) eqn:Htype;
        try apply Z.testbit_0_l.
      apply (pin_cfg_code_bits _ 4); [|lia|lia].
      specialize (Hcol eq_refl). change (2 ^ (4 - 1)) with 8. lia.
Qed.

End ConfigPins.

(** X11: after a pin configuration that passed the check has been
    programmed, the row field of every pin holds [2 * num + 1] if the pin
    is a row and 0 if not, and its column field holds [2 * num + 1] if the
    pin is a column and 0 if not: no field spills into its neighbour, and
    what was in the registers before does not show. *)
Theorem config_pins_encodes_checked_pins (KBC_MAX_GPIO KBC_MAX_ROW
    KBC_MAX_COL : nat) (pin_cfg : list tegra_kbc_pin_cfg) (k : tegra_kbc) :
  (KBC_MAX_GPIO ≤ 24)%nat → (KBC_MAX_ROW ≤ 16)%nat → (KBC_MAX_COL ≤ 8)%nat →
  length pin_cfg = KBC_MAX_GPIO →
  Forall (λ p, 0 <= pc_num p) pin_cfg →
  (tegra_kbc_check_pin_cfg KBC_MAX_GPIO KBC_MAX_ROW KBC_MAX_COL pin_cfg).1
    = true →
  let k' := exec (tegra_kbc_config_pins KBC_MAX_GPIO pin_cfg) k in
  ∀ i, (i < KBC_MAX_GPIO)%nat →
    row_cfg_field (mmio k') i
      = (if pin_is_row (pin_cfg !!! i)
         then 2 * pc_num (pin_cfg !!! i) + 1 else 0) ∧
    col_cfg_field (mmio k') i
      = (if pin_is_col (pin_cfg !!! i)
         then 2 * pc_num (pin_cfg !!! i) + 1 else 0).
Proof.
  intros Hgpio Hrow Hcol Hlen Hnum Hcheck k' i Hi.
  unfold tegra_kbc_check_pin_cfg in Hcheck.
  rewrite tegra_kbc_check_pin_cfg_from_spec in Hcheck by lia.
  rewrite drop_0, <- Hlen, firstn_all in Hcheck. cbn [fst] in Hcheck.
  assert (∀ j, (j < KBC_MAX_GPIO)%nat → pin_fits (pin_cfg !!! j)) as Hfit.
  { intros j Hj.
    assert (pin_cfg !!! j ∈ pin_cfg) as Hin
      by (apply list_elem_of_lookup_total_2; lia).
    apply (pin_cfg_ok_fits KBC_MAX_ROW KBC_MAX_COL); [done..| |].
    - by apply (proj1 (Forall_forall _ _) Hnum).
    - apply (proj1 (forallb_forall _ _) Hcheck). by apply list_elem_of_In. }
  rewrite <- !pin_cfg_code_add.
  by apply config_pins_fields.
Qed.

(** Programming pins only stores into their configuration words. *)
Lemma config_pins_state (pin_cfg : list tegra_kbc_pin_cfg) n : ∀ i k,
  let k' := exec (for_op (tegra_kbc_config_pin pin_cfg) i n tt) k in
  (∀ offset,
     (∀ j, (i ≤ j < i + n)%nat →
           offset ≠ Z.of_nat j / 6 * 4 + KBC_ROW_CFG0_0 ∧
           offset ≠ Z.of_nat j / 8 * 4 + KBC_COL_CFG0_0) →
     mmio k' offset = mmio k offset) ∧
  idev k' = idev k ∧ irq k' = irq k ∧ timer k' = timer k ∧ clk k' = clk k ∧
  is_open k' = is_open k ∧ current_keys k' = current_keys k ∧
  num_pressed_keys k' = num_pressed_keys k ∧
  keypress_caused_wake k' = keypress_caused_wake k.
Proof.
  induction n as [|n IH]; intros i k; [done|]. cbv zeta.
  rewrite exec_config_pin_S.
  destruct (IH (S i) (exec (tegra_kbc_config_pin pin_cfg i tt) k))
    as (Hm & -> & -> & -> & -> & -> & -> & -> & ->).
  split; [|unfold tegra_kbc_config_pin; kbc_ops; by kbc_fields].
  intros offset Hout. rewrite Hm by (intros; apply Hout; lia).
  destruct (Hout i) as [Hr Hc]; [lia|].
  unfold tegra_kbc_config_pin. kbc_ops. kbc_fields.
  by rewrite !fn_lookup_insert_ne.
Qed.

(** X12: [tegra_kbc_config_pins] stores into the four row and the three
    column configuration words and nowhere else; of the row words it
    leaves the two top bits, which belong to no pin; and it leaves the
    events, the keys, the timer and the interrupt line alone. *)
Theorem config_pins_touches_only_pin_fields (KBC_MAX_GPIO : nat)
    (pin_cfg : list tegra_kbc_pin_cfg) (k : tegra_kbc) :
  (KBC_MAX_GPIO ≤ 24)%nat →
  (∀ j, (j < KBC_MAX_GPIO)%nat → pin_fits (pin_cfg !!! j)) →
  let k' := exec (tegra_kbc_config_pins KBC_MAX_GPIO pin_cfg) k in
  (∀ offset, offset < KBC_ROW_CFG0_0 ∨ KBC_TO_CNT_0 <= offset →
             mmio k' offset = mmio k offset) ∧
  (∀ offset n, 30 <= n < 32 → offset < KBC_COL_CFG0_0 →
             Z.testbit (mmio k' offset) n = Z.testbit (mmio k offset) n) ∧
  idev k' = idev k ∧ irq k' = irq k ∧ timer k' = timer k ∧
  current_keys k' = current_keys k ∧
  num_pressed_keys k' = num_pressed_keys k.
Proof.
  intros Hgpio Hfit k'. unfold k', tegra_kbc_config_pins.
  destruct (config_pins_state pin_cfg KBC_MAX_GPIO O k)
    as (Hm & -> & -> & -> & _ & _ & -> & -> & _).
  split; [|split; [|done]].
  - intros offset Hout. apply Hm. intros j Hj.
    unfold KBC_ROW_CFG0_0, KBC_COL_CFG0_0, KBC_TO_CNT_0 in *.
    Z.div_mod_to_equations. lia.
  - intros offset n Hn Hoffs.
    apply config_pins_other_bits; [lia|intros; apply Hfit; lia|lia|].
    intros j Hj. unfold row_cfg_bit, col_cfg_bit.
    unfold KBC_ROW_CFG0_0, KBC_COL_CFG0_0 in *.
    rewrite !andb_false_iff, !Z.eqb_neq, !Z.leb_gt, !Z.ltb_ge.
    split; Z.div_mod_to_equations; lia.
Qed.

(** ** Suspend and resume *)

Lemma same_but_registers_refl k : same_but_registers k k.
Proof. by repeat split. Qed.

Lemma same_but_registers_trans k1 k2 k3 :
  same_but_registers k1 k2 → same_but_registers k2 k3 →
  same_but_registers k1 k3.
Proof.
  unfold same_but_registers. intros H12 H23.
  repeat match goal with H : _ ∧ _ |- _ => destruct H as [? ?] end.
  repeat split; congruence.
Qed.

Lemma same_but_registers_for_op {L} (body : nat → L → kbc_op L) n :
  (∀ i l k, same_but_registers k (body i l k).2) →
  ∀ i l k, same_but_registers k (exec (for_op body i n l) k).
Proof.
  intros Hbody. induction n as [|n IH]; intros i l k.
  - apply same_but_registers_refl.
  - rewrite exec_for_op_S.
    eapply same_but_registers_trans; [apply Hbody|apply IH].
Qed.

Lemma wake_mask_other_offset (cfg : list tegra_kbc_wake_key) offset : ∀ v,
  Forall (λ w, wk_row w * 4 + KBC_ROW0_MASK_0 ≠ offset) cfg →
  foldl (clear_wake_bit offset) v cfg = v.
Proof.
  induction cfg as [|w cfg IH]; intros v Hall; [done|].
  apply Forall_cons in Hall as [Hw Hall]. cbn [foldl].
  unfold clear_wake_bit at 2. rewrite decide_False by done. by apply IH.
Qed.

(** One run of [tegra_kbc_setup_wakekeys]: it ends unless the wake list is
    too long, it only stores into registers, it leaves the mask bits as
    the wake list says and, the rows of the wake list not being negative,
    it leaves the registers below the masks alone. *)
Lemma tegra_kbc_setup_wakekeys_run (KBC_MAX_ROW : nat) (KBC_MAX_KEY : Z)
    (filter : bool) (k : tegra_kbc) :
  wake_cnt (pdata k) <= KBC_MAX_KEY →
  ∃ k', tegra_kbc_setup_wakekeys KBC_MAX_ROW KBC_MAX_KEY filter k = Some k' ∧
    same_but_registers k k' ∧
    (∀ (r : nat) (c : Z), (r < KBC_MAX_ROW)%nat → 0 <= c < 32 →
       Z.testbit (mmio k' (KBC_ROW0_MASK_0 + Z.of_nat r * 4)) c
       = filter && negb (wake_cnt (pdata k) =? 0)
         && negb (bool_decide (WakeKey (Z.of_nat r) c ∈ wake_cfg (pdata k)))) ∧
    (Forall (λ w, 0 <= wk_row w) (wake_cfg (pdata k)) →
     ∀ offset, offset < KBC_ROW0_MASK_0 → mmio k' offset = mmio k offset).
Proof.
  intros Hcnt. unfold tegra_kbc_setup_wakekeys.
  destruct (Z.gtb_spec (wake_cnt (pdata k)) KBC_MAX_KEY) as [|_]; [lia|].
  eexists. split; [done|].
  set (rst_val := if filter && negb (wake_cnt (pdata k) =? 0)
                  then u32 (Z.lnot 0) else 0).
  set (reset := for_op (λ i _, writel rst_val
                                 (KBC_ROW0_MASK_0 + Z.of_nat i * 4))
                  O KBC_MAX_ROW tt).
  set (clear := for_op (λ i _,
                   let w := wake_cfg (pdata k) !!! i in
                   let addr := wk_row w * 4 + KBC_ROW0_MASK_0 in
                   do val <- readl addr;
                   let val := Z.land val
                                (u32 (Z.lnot (Z.shiftl 1 (wk_col w)))) in
                   writel val addr)
                  O (Z.to_nat (wake_cnt (pdata k))) tt).
  assert (exec (do_ reset; if filter then clear else op_ret tt) k
          = if filter then exec clear (exec reset k) else exec reset k) as ->.
  { unfold exec, op_bind. destruct (reset k) as [[] k1].
    by destruct filter. }
  assert (same_but_registers k (exec reset k)) as Hframe1.
  { apply same_but_registers_for_op. intros i l k0. kbc_ops.
    by repeat split. }
  assert (same_but_registers (exec reset k) (exec clear (exec reset k)))
    as Hframe2.
  { apply same_but_registers_for_op. intros i l k0. kbc_ops.
    by repeat split. }
  assert (∀ n : Z, 0 <= n < 32 →
          Z.testbit rst_val n = filter && negb (wake_cnt (pdata k) =? 0))
    as Hrst.
  { intros n Hn. unfold rst_val. destruct (filter && _).
    - rewrite testbit_u32, Z.lnot_spec by lia. by rewrite Z.testbit_0_l.
    - apply Z.testbit_0_l. }
  assert (∀ offset, mmio (exec clear (exec reset k)) offset
          = foldl (clear_wake_bit offset) (mmio (exec reset k) offset)
              (wake_cfg (pdata k))) as Hclear.
  { intros offset. unfold clear. rewrite wake_mask_clear
      by (unfold wake_cnt; lia).
    unfold wake_cnt. by rewrite Nat2Z.id, drop_0, firstn_all. }
  split; [|split].
  - destruct filter; [|done].
    by apply (same_but_registers_trans _ (exec reset k)).
  - intros r c Hr Hc.
    assert (mmio (exec reset k) (KBC_ROW0_MASK_0 + Z.of_nat r * 4) = rst_val)
      as Hk1.
    { unfold reset. rewrite wake_mask_reset.
      replace (existsb _ _) with true; [done|]. symmetry.
      apply existsb_exists. exists r. split; [apply in_seq; lia|lia]. }
    destruct filter; cbn [andb] in *.
    + rewrite Hclear, wake_mask_bits, Hk1, Hrst, wake_key_listed by done.
      done.
    + rewrite Hk1. apply Z.testbit_0_l.
  - intros Hrows offset Hoffs.
    assert (mmio (exec reset k) offset = mmio k offset) as Hk1.
    { unfold reset. rewrite wake_mask_reset.
      replace (existsb _ _) with false; [done|]. symmetry.
      apply not_true_iff_false. intros (r & _ & Heq%Z.eqb_eq)%existsb_exists.
      unfold KBC_ROW0_MASK_0 in *. lia. }
    destruct filter; [|done].
    rewrite Hclear, wake_mask_other_offset; [done|].
    eapply Forall_impl; [exact Hrows|]. intros w Hw. cbv beta in *. lia.
Qed.

Section PowerFacts.

Variable KBC_MAX_ROW : nat.
Variable KBC_MAX_KEY : Z.
Variable tegra_kbc_start : kbc_op Z.

(** The wake path of [tegra_kbc_suspend]. *)
Lemma tegra_kbc_suspend_wake (d : tegra_kbc_device) :
  is_open (kbc d) ≠ 0 → may_wakeup d = true →
  wake_cnt (pdata (kbc d)) <= KBC_MAX_KEY →
  Forall (λ w, 0 <= wk_row w) (wake_cfg (pdata (kbc d))) →
  ∃ k',
    tegra_kbc_suspend KBC_MAX_ROW KBC_MAX_KEY d
    = Some (0, KbcDevice k' (mmio (kbc d) KBC_TO_CNT_0) (wakeup_key d)
                 (may_wakeup d) (users d) (S (irq_wake d))) ∧
    mmio k' KBC_CONTROL_0
    = Z.lor (Z.land (mmio (kbc d) KBC_CONTROL_0)
               (u32 (Z.lnot KBC_CONTROL_FIFO_CNT_INT_EN)))
        KBC_CONTROL_KEYPRESS_INT_EN ∧
    mmio k' KBC_INT_0 = 0x7 ∧
    mmio k' KBC_TO_CNT_0 = 0 ∧
    (∀ (r : nat) (c : Z), (r < KBC_MAX_ROW)%nat → 0 <= c < 32 →
       Z.testbit (mmio k' (KBC_ROW0_MASK_0 + Z.of_nat r * 4)) c
       = negb (wake_cnt (pdata (kbc d)) =? 0)
         && negb (bool_decide
                    (WakeKey (Z.of_nat r) c ∈ wake_cfg (pdata (kbc d))))) ∧
    idev k' = idev (kbc d) ∧ irq k' = irq (kbc d) ∧ timer k' = None ∧
    keypress_caused_wake k' = false ∧ pdata k' = pdata (kbc d) ∧
    current_keys k' = current_keys (kbc d) ∧
    num_pressed_keys k' = num_pressed_keys (kbc d) ∧
    is_open k' = is_open (kbc d).
Proof.
  intros Hopen Hwake Hcnt Hrows. unfold tegra_kbc_suspend.
  apply Z.eqb_neq in Hopen. rewrite Hopen, Hwake.
  kbc_pm_ops. kbc_fields.
  rewrite (fn_lookup_insert_ne _ KBC_INT_0 KBC_TO_CNT_0) by done.
  rewrite (fn_lookup_insert_ne _ KBC_CONTROL_0 KBC_TO_CNT_0) by done.
  match goal with
  | |- context [tegra_kbc_setup_wakekeys _ _ true ?ka] =>
      destruct (tegra_kbc_setup_wakekeys_run KBC_MAX_ROW KBC_MAX_KEY true ka)
        as (kb & -> & Hsame & Hmask & Hlow);
      [exact Hcnt|]; specialize (Hlow Hrows)
  end.
  cbn [pdata wake_cfg] in Hmask.
  destruct Hsame as (Hid & Hirq & _ & _ & _ & _ & _ & Hpd & _ & Hck & Hnp
                     & Htm & _ & Hop).
  cbn [idev irq pdata current_keys num_pressed_keys timer is_open] in *.
  eexists. split; [reflexivity|]. kbc_pm_ops. kbc_fields.
  rewrite !fn_lookup_insert.
  rewrite (fn_lookup_insert_ne _ KBC_CONTROL_0 KBC_INT_0) by done.
  rewrite (fn_lookup_insert_ne _ KBC_CONTROL_0 KBC_TO_CNT_0) by done.
  rewrite !Hlow by done. kbc_fields.
  rewrite (fn_lookup_insert_ne _ KBC_TO_CNT_0 KBC_CONTROL_0) by done.
  rewrite (fn_lookup_insert_ne _ KBC_INT_0 KBC_CONTROL_0) by done.
  rewrite (fn_lookup_insert_ne _ KBC_TO_CNT_0 KBC_INT_0) by done.
  rewrite !fn_lookup_insert.
  rewrite Hid, Hirq, Hpd, Hck, Hnp, Hop.
  repeat split; try done.
  intros r c Hr Hc.
  rewrite fn_lookup_insert_ne by (unfold KBC_CONTROL_0, KBC_ROW0_MASK_0; lia).
  by apply Hmask.
Qed.

(** The wake path of [tegra_kbc_resume]. *)
Lemma tegra_kbc_resume_wake (d : tegra_kbc_device) :
  is_open (kbc d) ≠ 0 → may_wakeup d = true →
  wake_cnt (pdata (kbc d)) <= KBC_MAX_KEY →
  Forall (λ w, 0 <= wk_row w) (wake_cfg (pdata (kbc d))) →
  ∃ k',
    tegra_kbc_resume KBC_MAX_ROW KBC_MAX_KEY tegra_kbc_start d
    = Some (0, KbcDevice k' (cp_to_wkup_dly d) (wakeup_key d)
                 (may_wakeup d) (users d) (Nat.pred (irq_wake d))) ∧
    mmio k' KBC_CONTROL_0
    = Z.lor (Z.land (mmio (kbc d) KBC_CONTROL_0)
               (u32 (Z.lnot KBC_CONTROL_KEYPRESS_INT_EN)))
        KBC_CONTROL_FIFO_CNT_INT_EN ∧
    mmio k' KBC_TO_CNT_0 = cp_to_wkup_dly d ∧
    (∀ (r : nat) (c : Z), (r < KBC_MAX_ROW)%nat → 0 <= c < 32 →
       Z.testbit (mmio k' (KBC_ROW0_MASK_0 + Z.of_nat r * 4)) c = false) ∧
    idev k' =
      idev (kbc d)
      ++ (if keypress_caused_wake (kbc d) && negb (wakeup_key d =? 0)
          then [EvKey (wakeup_key d) 1; EvKey (wakeup_key d) 0; EvSync]
          else []) ∧
    irq k' = irq (kbc d) ∧ timer k' = timer (kbc d) ∧
    current_keys k' = current_keys (kbc d) ∧
    num_pressed_keys k' = num_pressed_keys (kbc d) ∧
    is_open k' = is_open (kbc d).
Proof.
  intros Hopen Hwake Hcnt Hrows. unfold tegra_kbc_resume.
  apply Z.eqb_neq in Hopen. rewrite Hopen, Hwake.
  destruct (tegra_kbc_setup_wakekeys_run KBC_MAX_ROW KBC_MAX_KEY false (kbc d))
    as (kb & -> & Hsame & Hmask & Hlow); [exact Hcnt|].
  specialize (Hlow Hrows).
  destruct Hsame as (Hid & Hirq & _ & _ & _ & _ & Hkc & _ & _ & Hck & Hnp
                     & Htm & _ & Hop).
  eexists. split; [reflexivity|]. kbc_pm_ops. kbc_fields. rewrite Hkc.
  assert (∀ r : nat, KBC_CONTROL_0 ≠ KBC_ROW0_MASK_0 + Z.of_nat r * 4)
    as Hctl by (intros r; unfold KBC_CONTROL_0, KBC_ROW0_MASK_0; lia).
  assert (∀ r : nat, KBC_TO_CNT_0 ≠ KBC_ROW0_MASK_0 + Z.of_nat r * 4)
    as Hto by (intros r; unfold KBC_TO_CNT_0, KBC_ROW0_MASK_0; lia).
  destruct (keypress_caused_wake (kbc d) && negb (wakeup_key d =? 0));
    kbc_pm_ops; kbc_fields;
    rewrite !fn_lookup_insert;
    rewrite (fn_lookup_insert_ne _ KBC_TO_CNT_0 KBC_CONTROL_0) by done;
    rewrite (fn_lookup_insert_ne _ KBC_CONTROL_0 KBC_TO_CNT_0) by done;
    rewrite !fn_lookup_insert;
    rewrite Hlow by done;
    rewrite Hid, Hirq, Hck, Hnp, Htm, Hop;
    repeat split; try done.
  - intros r c Hr Hc. rewrite !fn_lookup_insert_ne by done.
    by rewrite Hmask.
  - unfold input_sync, input_report_key. by rewrite <- !app_assoc.
  - intros r c Hr Hc. rewrite !fn_lookup_insert_ne by done.
    by rewrite Hmask.
  - by rewrite app_nil_r.
Qed.

(** X13: suspending an open device that may wake the system leaves the
    controller armed for wake keys only: polling is off (timer cancelled,
    FIFO interrupt disabled), the keypress interrupt is enabled, the scan
    timeout is saved in [cp_to_wkup_dly] and set to 0, the mask of every
    row blocks exactly the positions outside the wake list (nothing when
    the list is empty), and the interrupt line is enabled as a wake
    source at the depth it had. *)
Theorem suspend_arms_wake_keys (d : tegra_kbc_device) :
  is_open (kbc d) ≠ 0 → may_wakeup d = true →
  wake_cnt (pdata (kbc d)) <= KBC_MAX_KEY →
  Forall (λ w, 0 <= wk_row w) (wake_cfg (pdata (kbc d))) →
  ∃ d',
    tegra_kbc_suspend KBC_MAX_ROW KBC_MAX_KEY d = Some (0, d') ∧
    cp_to_wkup_dly d' = mmio (kbc d) KBC_TO_CNT_0 ∧
    mmio (kbc d') KBC_TO_CNT_0 = 0 ∧
    (∀ n, 0 <= n < 32 →
       Z.testbit (mmio (kbc d') KBC_CONTROL_0) n
       = if n =? 3 then false else if n =? 1 then true
         else Z.testbit (mmio (kbc d) KBC_CONTROL_0) n) ∧
    (∀ (r : nat) (c : Z), (r < KBC_MAX_ROW)%nat → 0 <= c < 32 →
       Z.testbit (mmio (kbc d') (KBC_ROW0_MASK_0 + Z.of_nat r * 4)) c
       = negb (wake_cnt (pdata (kbc d)) =? 0)
         && negb (bool_decide
                    (WakeKey (Z.of_nat r) c ∈ wake_cfg (pdata (kbc d))))) ∧
    timer (kbc d') = None ∧
    keypress_caused_wake (kbc d') = false ∧
    irq (kbc d') = irq (kbc d) ∧
    irq_wake d' = S (irq_wake d) ∧
    idev (kbc d') = idev (kbc d) ∧
    CurrentKeys (kbc d') = CurrentKeys (kbc d).
Proof.
  intros Hopen Hwake Hcnt Hrows.
  destruct (tegra_kbc_suspend_wake d Hopen Hwake Hcnt Hrows)
    as (k' & -> & Hctl & _ & Hto & Hmask & Hid & Hirq & Htm & Hkc & _ & Hck
        & Hnp & _).
  eexists. split; [reflexivity|]. cbn [kbc cp_to_wkup_dly irq_wake].
  unfold CurrentKeys. rewrite Hck, Hnp. repeat split; try done.
  intros n Hn. rewrite Hctl.
  unfold KBC_CONTROL_KEYPRESS_INT_EN, KBC_CONTROL_FIFO_CNT_INT_EN.
  rewrite testbit_set_bit, testbit_clear_bit by lia.
  destruct (Z.eqb_spec n 3) as [->|]; cbn [negb];
    [by rewrite andb_false_r|].
  destruct (n =? 1); [apply orb_true_r|].
  by rewrite orb_false_r, andb_true_r.
Qed.

(** X14: resuming an open device that may wake the system takes the wake
    filter away and goes back to FIFO interrupts: every row mask is
    clear, the keypress interrupt is disabled, the FIFO interrupt
    enabled, the scan timeout is the saved [cp_to_wkup_dly]; and the
    wake-up key is tapped once (press, release, sync) exactly when a
    keypress caused the wake-up and a wake-up key is configured. *)
Theorem resume_restores_polling (d : tegra_kbc_device) :
  is_open (kbc d) ≠ 0 → may_wakeup d = true →
  wake_cnt (pdata (kbc d)) <= KBC_MAX_KEY →
  Forall (λ w, 0 <= wk_row w) (wake_cfg (pdata (kbc d))) →
  ∃ d',
    tegra_kbc_resume KBC_MAX_ROW KBC_MAX_KEY tegra_kbc_start d
    = Some (0, d') ∧
    mmio (kbc d') KBC_TO_CNT_0 = cp_to_wkup_dly d ∧
    (∀ n, 0 <= n < 32 →
       Z.testbit (mmio (kbc d') KBC_CONTROL_0) n
       = if n =? 3 then true else if n =? 1 then false
         else Z.testbit (mmio (kbc d) KBC_CONTROL_0) n) ∧
    (∀ (r : nat) (c : Z), (r < KBC_MAX_ROW)%nat → 0 <= c < 32 →
       Z.testbit (mmio (kbc d') (KBC_ROW0_MASK_0 + Z.of_nat r * 4)) c
       = false) ∧
    idev (kbc d') =
      idev (kbc d)
      ++ (if keypress_caused_wake (kbc d) && negb (wakeup_key d =? 0)
          then [EvKey (wakeup_key d) 1; EvKey (wakeup_key d) 0; EvSync]
          else []) ∧
    irq_wake d' = Nat.pred (irq_wake d) ∧
    CurrentKeys (kbc d') = CurrentKeys (kbc d).
Proof.
  intros Hopen Hwake Hcnt Hrows.
  destruct (tegra_kbc_resume_wake d Hopen Hwake Hcnt Hrows)
    as (k' & -> & Hctl & Hto & Hmask & Hid & _ & _ & Hck & Hnp & _).
  eexists. split; [reflexivity|]. cbn [kbc irq_wake].
  unfold CurrentKeys. rewrite Hck, Hnp. repeat split; try done.
  intros n Hn. rewrite Hctl.
  unfold KBC_CONTROL_KEYPRESS_INT_EN, KBC_CONTROL_FIFO_CNT_INT_EN.
  rewrite testbit_set_bit, testbit_clear_bit by lia.
  destruct (Z.eqb_spec n 3) as [->|]; cbn [negb];
    [apply orb_true_r|]. rewrite orb_false_r.
  destruct (n =? 1); [apply andb_false_r|apply andb_true_r].
Qed.

(** X15: suspend followed by resume, with no interrupt in between, puts
    the scan timeout back, leaves no wake mask, sends no event and keeps
    [CurrentKeys], the disable depth and the wake enable depth of the
    interrupt line; the controller comes back in interrupt mode (FIFO
    interrupt enabled, keypress interrupt disabled, no timer pending),
    whatever mode it was suspended in. *)
Theorem suspend_resume_round_trip (d : tegra_kbc_device) :
  is_open (kbc d) ≠ 0 → may_wakeup d = true →
  wake_cnt (pdata (kbc d)) <= KBC_MAX_KEY →
  Forall (λ w, 0 <= wk_row w) (wake_cfg (pdata (kbc d))) →
  ∃ d1 d2,
    tegra_kbc_suspend KBC_MAX_ROW KBC_MAX_KEY d = Some (0, d1) ∧
    tegra_kbc_resume KBC_MAX_ROW KBC_MAX_KEY tegra_kbc_start d1
    = Some (0, d2) ∧
    mmio (kbc d2) KBC_TO_CNT_0 = mmio (kbc d) KBC_TO_CNT_0 ∧
    (∀ n, 0 <= n < 32 →
       Z.testbit (mmio (kbc d2) KBC_CONTROL_0) n
       = if n =? 3 then true else if n =? 1 then false
         else Z.testbit (mmio (kbc d) KBC_CONTROL_0) n) ∧
    (∀ (r : nat) (c : Z), (r < KBC_MAX_ROW)%nat → 0 <= c < 32 →
       Z.testbit (mmio (kbc d2) (KBC_ROW0_MASK_0 + Z.of_nat r * 4)) c
       = false) ∧
    idev (kbc d2) = idev (kbc d) ∧
    CurrentKeys (kbc d2) = CurrentKeys (kbc d) ∧
    timer (kbc d2) = None ∧
    irq (kbc d2) = irq (kbc d) ∧
    irq_wake d2 = irq_wake d.
Proof.
  intros Hopen Hwake Hcnt Hrows.
  destruct (tegra_kbc_suspend_wake d Hopen Hwake Hcnt Hrows)
    as (k1 & Hs & Hctl1 & _ & Hto1 & _ & Hid1 & Hirq1 & Htm1 & Hkc1 & Hpd1
        & Hck1 & Hnp1 & Hop1).
  set (d1 := KbcDevice k1 (mmio (kbc d) KBC_TO_CNT_0) (wakeup_key d)
               (may_wakeup d) (users d) (S (irq_wake d))) in *.
  destruct (tegra_kbc_resume_wake d1) as
    (k2 & Hr & Hctl2 & Hto2 & Hmask2 & Hid2 & Hirq2 & Htm2 & Hck2 & Hnp2 & _);
    [by (cbn [d1 kbc]; rewrite Hop1)|done|by (cbn [d1 kbc]; rewrite Hpd1)
    |by (cbn [d1 kbc]; rewrite Hpd1)|].
  cbn [d1 kbc cp_to_wkup_dly wakeup_key may_wakeup users irq_wake] in *.
  eexists _, _. split; [exact Hs|]. split; [exact Hr|]. cbn [kbc irq_wake].
  rewrite Hkc1 in Hid2. cbn [andb] in Hid2. rewrite app_nil_r in Hid2.
  unfold CurrentKeys. rewrite Hck2, Hnp2, Hck1, Hnp1.
  repeat split; try congruence; [|exact Hmask2].
  intros n Hn. rewrite Hctl2, Hctl1.
  unfold KBC_CONTROL_KEYPRESS_INT_EN, KBC_CONTROL_FIFO_CNT_INT_EN.
  rewrite testbit_set_bit, testbit_clear_bit by lia.
  rewrite testbit_set_bit, testbit_clear_bit by lia.
  destruct (Z.eqb_spec n 3) as [->|]; [apply orb_true_r|].
  destruct (n =? 1); cbn [negb andb orb];
    [by rewrite orb_false_r, andb_false_r
    |by rewrite !orb_false_r, !andb_true_r].
Qed.

End PowerFacts.

Section WakeFacts.

Variable KBC_MAX_ROW : nat.
Variable KBC_MAX_KEY : Z.
Variable tegra_kbc_start : kbc_op Z.

(** The handler on a keypress interrupt without the FIFO-threshold
    status. *)
Lemma tegra_kbc_isr_keypress_run (k : tegra_kbc) :
  Z.testbit (mmio k KBC_INT_0) 2 = false →
  Z.testbit (mmio k KBC_INT_0) 0 = true →
  let k' := exec tegra_kbc_isr k in
  keypress_caused_wake k' = true ∧
  (∀ offset, mmio k' offset = mmio k offset) ∧
  idev k' = idev k ∧ irq k' = irq k ∧ timer k' = timer k ∧
  pdata k' = pdata k ∧ current_keys k' = current_keys k ∧
  num_pressed_keys k' = num_pressed_keys k ∧ is_open k' = is_open k.
Proof.
  intros Hfifo Hkp k'. unfold k', tegra_kbc_isr. kbc_ops.
  unfold KBC_INT_FIFO_CNT_INT_STATUS, KBC_INT_KEYPRESS_INT_STATUS.
  rewrite !land_bit_testbit by lia. rewrite Hfifo, Hkp. kbc_ops. kbc_fields.
  repeat split. intros offset.
  destruct (decide (KBC_INT_0 = offset)) as [<-|Hne].
  - by rewrite fn_lookup_insert.
  - by rewrite fn_lookup_insert_ne.
Qed.

(** X16: waking by a key.  After suspend, a keypress interrupt (the
    controller having set [KBC_INT_0] to [status], keypress status set
    and FIFO status clear) and then resume: the only events sent are one
    tap of the wake-up key, and none when no wake-up key is configured;
    [CurrentKeys] is kept and the scan timeout is back. *)
Theorem wake_by_key_taps_wakeup_key (d : tegra_kbc_device) (status : Z) :
  is_open (kbc d) ≠ 0 → may_wakeup d = true →
  wake_cnt (pdata (kbc d)) <= KBC_MAX_KEY →
  Forall (λ w, 0 <= wk_row w) (wake_cfg (pdata (kbc d))) →
  Z.testbit status 2 = false → Z.testbit status 0 = true →
  ∃ d1 d2,
    tegra_kbc_suspend KBC_MAX_ROW KBC_MAX_KEY d = Some (0, d1) ∧
    tegra_kbc_resume KBC_MAX_ROW KBC_MAX_KEY tegra_kbc_start
      (set_kbc (exec tegra_kbc_isr
                  (set_mmio (λ m, <[KBC_INT_0 := status]> m) (kbc d1))) d1)
    = Some (0, d2) ∧
    idev (kbc d2) =
      idev (kbc d)
      ++ (if wakeup_key d =? 0 then []
          else [EvKey (wakeup_key d) 1; EvKey (wakeup_key d) 0; EvSync]) ∧
    CurrentKeys (kbc d2) = CurrentKeys (kbc d) ∧
    mmio (kbc d2) KBC_TO_CNT_0 = mmio (kbc d) KBC_TO_CNT_0 ∧
    irq_wake d2 = irq_wake d.
Proof.
  intros Hopen Hwake Hcnt Hrows Hfifo Hkp.
  destruct (tegra_kbc_suspend_wake KBC_MAX_ROW KBC_MAX_KEY d
              Hopen Hwake Hcnt Hrows)
    as (k1 & Hs & _ & _ & _ & _ & Hid1 & _ & _ & _ & Hpd1 & Hck1 & Hnp1
        & Hop1).
  set (d1 := KbcDevice k1 (mmio (kbc d) KBC_TO_CNT_0) (wakeup_key d)
               (may_wakeup d) (users d) (S (irq_wake d))) in *.
  set (k1' := set_mmio (λ m, <[KBC_INT_0 := status]> m) k1).
  destruct (tegra_kbc_isr_keypress_run k1')
    as (Hkc & _ & Hidi & _ & _ & Hpdi & Hcki & Hnpi & Hopi);
    [by (unfold k1'; kbc_fields; rewrite fn_lookup_insert)..|].
  change (idev k1') with (idev k1) in Hidi.
  change (pdata k1') with (pdata k1) in Hpdi.
  change (current_keys k1') with (current_keys k1) in Hcki.
  change (num_pressed_keys k1') with (num_pressed_keys k1) in Hnpi.
  change (is_open k1') with (is_open k1) in Hopi.
  set (ki := exec tegra_kbc_isr k1') in *.
  destruct (tegra_kbc_resume_wake KBC_MAX_ROW KBC_MAX_KEY tegra_kbc_start
              (set_kbc ki d1))
    as (k2 & Hr & _ & Hto2 & _ & Hid2 & _ & _ & Hck2 & Hnp2 & _).
  { cbn [set_kbc kbc]. by rewrite Hopi, Hop1. }
  { done. }
  { cbn [set_kbc kbc]. by rewrite Hpdi, Hpd1. }
  { cbn [set_kbc kbc]. by rewrite Hpdi, Hpd1. }
  cbn [set_kbc d1 kbc cp_to_wkup_dly wakeup_key may_wakeup users irq_wake]
    in *.
  eexists _, _. split; [exact Hs|]. split; [exact Hr|]. cbn [kbc irq_wake].
  rewrite Hkc in Hid2. cbn [andb] in Hid2.
  unfold CurrentKeys. rewrite Hck2, Hnp2, Hcki, Hnpi, Hck1, Hnp1.
  rewrite Hid2, Hidi, Hid1, Hto2.
  repeat split. by destruct (wakeup_key d =? 0).
Qed.

(** X17: without wake-up capability, suspend stops an open device that
    has users, as [tegra_kbc_stop] does (controller disabled, interrupt
    line disabled once more, timer cancelled, clock released, device
    marked closed), and resume then goes through [tegra_kbc_start]
    again. *)
Theorem suspend_without_wake_stops (d : tegra_kbc_device) :
  is_open (kbc d) ≠ 0 → may_wakeup d = false → (0 < users d)%nat →
  ∃ d1,
    tegra_kbc_suspend KBC_MAX_ROW KBC_MAX_KEY d = Some (0, d1) ∧
    Z.testbit (mmio (kbc d1) KBC_CONTROL_0) 0 = false ∧
    timer (kbc d1) = None ∧ is_open (kbc d1) = 0 ∧
    irq (kbc d1) = S (irq (kbc d)) ∧
    clk (kbc d1) = Nat.pred (clk (kbc d)) ∧
    irq_wake d1 = irq_wake d ∧ cp_to_wkup_dly d1 = cp_to_wkup_dly d ∧
    idev (kbc d1) = idev (kbc d) ∧
    tegra_kbc_resume KBC_MAX_ROW KBC_MAX_KEY tegra_kbc_start d1
    = Some ((tegra_kbc_start (kbc d1)).1,
            set_kbc (exec tegra_kbc_start (kbc d1)) d1).
Proof.
  intros Hopen Hwake Husers. unfold tegra_kbc_suspend.
  apply Z.eqb_neq in Hopen. rewrite Hopen, Hwake.
  apply Nat.ltb_lt in Husers. rewrite Husers.
  eexists. split; [reflexivity|].
  unfold tegra_kbc_resume, tegra_kbc_stop. cbn [set_kbc kbc]. kbc_ops.
  kbc_fields. cbn [Z.eqb].
  repeat split.
  - rewrite fn_lookup_insert, Z.land_spec. unfold u32.
    rewrite Z.mod_pow2_bits_low by lia. apply andb_false_r.
  - unfold exec. by destruct (tegra_kbc_start _).
Qed.

End WakeFacts.

(** X18: [tegra_kbc_set_keypress_interrupt] changes bit 1 of the control
    register and nothing else of the register file, so it never undoes
    what [tegra_kbc_set_fifo_interrupt] set. *)
Theorem set_keypress_interrupt_one_bit (enable : bool) (k : tegra_kbc)
    (offset n : Z) :
  0 <= n < 32 →
  let k' := exec (tegra_kbc_set_keypress_interrupt enable) k in
  Z.testbit (mmio k' offset) n
  = if (offset =? KBC_CONTROL_0) && (n =? 1) then enable
    else Z.testbit (mmio k offset) n.
Proof.
  intros Hn k'. unfold k'. kbc_pm_ops. kbc_fields.
  destruct (Z.eqb_spec offset KBC_CONTROL_0) as [->|Hne]; cbn [andb].
  - rewrite fn_lookup_insert. unfold KBC_CONTROL_KEYPRESS_INT_EN.
    by apply control_bit_update.
  - by rewrite fn_lookup_insert_ne.
Qed.

(** ** The theorems above at the example states *)

Lemma set_fifo_interrupt_one_bit_witness :
  0 <= 3 < 32 ∧
  Z.testbit (mmio (exec (tegra_kbc_set_fifo_interrupt true)
                     (example_kbc 0 0 0 true [] [])) KBC_CONTROL_0) 3
  = true.
Proof.
  split; [lia|].
  exact (set_fifo_interrupt_one_bit true (example_kbc 0 0 0 true [] [])
           KBC_CONTROL_0 3 ltac:(lia)).
Defined.

Lemma isr_fifo_threshold_starts_polling_witness :
  Z.testbit (mmio (example_kbc 0x14 0 0 true [] []) KBC_INT_0) 2 = true ∧
  timer (exec tegra_kbc_isr (example_kbc 0x14 0 0 true [] []))
  = Some (Jiffies 3).
Proof.
  split; [reflexivity|].
  exact (proj1 (isr_fifo_threshold_starts_polling
                  (example_kbc 0x14 0 0 true [] []) eq_refl)).
Defined.

Lemma isr_keypress_records_wake_witness :
  Z.testbit (mmio (example_kbc 0x1 0 0 true [] []) KBC_INT_0) 2 = false ∧
  Z.testbit (mmio (example_kbc 0x1 0 0 true [] []) KBC_INT_0) 0 = true ∧
  keypress_caused_wake (exec tegra_kbc_isr (example_kbc 0x1 0 0 true [] []))
  = true.
Proof.
  split; [reflexivity|]. split; [reflexivity|].
  exact (proj1 (isr_keypress_records_wake (example_kbc 0x1 0 0 true [] [])
                  eq_refl eq_refl)).
Defined.

Lemma current_keys_stay_in_bounds_witness :
  keys_in_bounds (example_kbc 0x10 0x8980 0 true [EvKey 1000 1] [1000]) ∧
  keys_in_bounds
    (exec (tegra_kbc_keypress_timer 128 0x1d0 example_frame)
       (example_kbc 0x10 0x8980 0 true [EvKey 1000 1] [1000])).
Proof.
  assert (keys_in_bounds
            (example_kbc 0x10 0x8980 0 true [EvKey 1000 1] [1000])) as Hb
    by (split; [reflexivity|vm_compute; lia]).
  split; [exact Hb|].
  apply (current_keys_stay_in_bounds 128 0x1d0
           (example_kbc 0x10 0x8980 0 true [EvKey 1000 1] [1000]));
    [exact Hb|].
  eapply run_step; [apply step_keypress_timer|apply run_done].
Defined.

Lemma held_keys_are_not_released_witness :
  sample_ghosted 0x1d0 (example_kbc 0x10 0x8980 0 true [] []) = false ∧
  CurrentKeys
    (exec (tegra_kbc_report_keys 128 0x1d0 example_frame)
       (exec (tegra_kbc_report_keys 128 0x1d0 example_frame)
          (example_kbc 0x10 0x8980 0 true [] [])))
  = CurrentKeys
      (exec (tegra_kbc_report_keys 128 0x1d0 example_frame)
         (example_kbc 0x10 0x8980 0 true [] [])).
Proof.
  split; [reflexivity|].
  exact (proj2 (held_keys_are_not_released 128 0x1d0 example_frame
                  example_frame (example_kbc 0x10 0x8980 0 true [] [])
                  eq_refl)).
Defined.

Lemma empty_sample_releases_all_witness :
  forallb (λ b, negb (lane_valid b))
    (fifo_lanes (example_kbc 0x10 0 0 true [EvKey 1000 1] [1000])) = true ∧
  CurrentKeys (exec (tegra_kbc_report_keys 128 0x1d0 example_frame)
                 (example_kbc 0x10 0 0 true [EvKey 1000 1] [1000]))
  = [].
Proof.
  split; [reflexivity|].
  exact (proj2 (proj2 (empty_sample_releases_all 128 0x1d0 example_frame
                         (example_kbc 0x10 0 0 true [EvKey 1000 1] [1000])
                         eq_refl))).
Defined.

Lemma interrupt_then_idle_witness :
  Z.testbit (mmio (example_kbc 0x4 0 0 true [EvKey 1000 1] [1000])
               KBC_INT_0) 2 = true ∧
  Z.land (Z.shiftr 0 4) 0xf = 0 ∧
  CurrentKeys
    (exec (tegra_kbc_keypress_timer 128 0x1d0 example_frame)
       (set_mmio (λ m, <[KBC_INT_0 := 0]> m)
          (exec tegra_kbc_isr
             (example_kbc 0x4 0 0 true [EvKey 1000 1] [1000]))))
  = [].
Proof.
  split; [reflexivity|]. split; [reflexivity|].
  exact (proj1 (proj2 (interrupt_then_idle 128 0x1d0 example_frame
                         (example_kbc 0x4 0 0 true [EvKey 1000 1] [1000]) 0
                         eq_refl eq_refl))).
Defined.

Lemma check_pin_cfg_accepts_witness :
  length example_pin_cfg = 24%nat ∧
  (tegra_kbc_check_pin_cfg 24 16 8 example_pin_cfg).1
  = forallb (pin_cfg_ok 16 8) example_pin_cfg.
Proof.
  split; [reflexivity|].
  exact (proj1 (check_pin_cfg_accepts 24 16 8 example_pin_cfg eq_refl)).
Defined.

Lemma check_pin_cfg_stops_at_first_bad_witness :
  length (PinCfg PIN_CFG_ROW 0 :: PinCfg PIN_CFG_ROW 99
          :: replicate 22 (PinCfg PIN_CFG_ROW 1)) = 24%nat ∧
  (tegra_kbc_check_pin_cfg 24 16 8
     (PinCfg PIN_CFG_ROW 0 :: PinCfg PIN_CFG_ROW 99
      :: replicate 22 (PinCfg PIN_CFG_ROW 1))).2
  = 1%nat.
Proof.
  split; [reflexivity|].
  exact (check_pin_cfg_stops_at_first_bad 24 16 8
           (PinCfg PIN_CFG_ROW 0 :: PinCfg PIN_CFG_ROW 99
            :: replicate 22 (PinCfg PIN_CFG_ROW 1)) eq_refl).
Defined.

Lemma config_pins_encodes_checked_pins_witness :
  length example_pin_cfg = 24%nat ∧
  Forall (λ p, 0 <= pc_num p) example_pin_cfg ∧
  (tegra_kbc_check_pin_cfg 24 16 8 example_pin_cfg).1 = true ∧
  row_cfg_field
    (mmio (exec (tegra_kbc_config_pins 24 example_pin_cfg)
             (example_kbc 0 0 0 true [] []))) 1
  = 3 ∧
  col_cfg_field
    (mmio (exec (tegra_kbc_config_pins 24 example_pin_cfg)
             (example_kbc 0 0 0 true [] []))) 1
  = 0.
Proof.
  assert (Forall (λ p, 0 <= pc_num p) example_pin_cfg) as Hnum
    by (apply Forall_forall; intros p Hp;
        apply elem_of_app in Hp as [Hp|Hp%elem_of_replicate];
        [repeat (apply elem_of_cons in Hp as [->|Hp]; [cbn; lia|]);
         by apply elem_of_nil in Hp
        |destruct Hp as [-> _]; cbn; lia]).
  split; [reflexivity|]. split; [exact Hnum|]. split; [reflexivity|].
  exact (config_pins_encodes_checked_pins 24 16 8 example_pin_cfg
           (example_kbc 0 0 0 true [] []) ltac:(lia) ltac:(lia) ltac:(lia)
           eq_refl Hnum eq_refl 1%nat ltac:(lia)).
Defined.

Lemma config_pins_touches_only_pin_fields_witness :
  (24 ≤ 24)%nat ∧
  mmio (exec (tegra_kbc_config_pins 24 example_pin_cfg)
          (example_kbc 0x10 0 0 true [] [])) KBC_INT_0
  = 0x10.
Proof.
  split; [lia|].
  assert (∀ j, (j < 24)%nat → pin_fits (example_pin_cfg !!! j)) as Hfit.
  { intros j Hj.
    do 24 (destruct j as [|j];
           [unfold pin_fits; cbn; repeat split; intros; lia|]).
    lia. }
  assert (KBC_INT_0 < KBC_ROW_CFG0_0 ∨ KBC_TO_CNT_0 <= KBC_INT_0) as Hoff
    by (left; reflexivity).
  exact (proj1 (config_pins_touches_only_pin_fields 24 example_pin_cfg
                  (example_kbc 0x10 0 0 true [] []) ltac:(lia) Hfit)
           KBC_INT_0 Hoff).
Defined.

Lemma suspend_arms_wake_keys_witness :
  is_open (kbc (example_device (example_kbc 0 0 0 true [] []))) ≠ 0 ∧
  wake_cnt (pdata (kbc (example_device (example_kbc 0 0 0 true [] []))))
    <= 128 ∧
  ∃ d', tegra_kbc_suspend 16 128
          (example_device (example_kbc 0 0 0 true [] [])) = Some (0, d') ∧
        irq_wake d' = 1%nat.
Proof.
  assert (is_open (kbc (example_device (example_kbc 0 0 0 true [] []))) ≠ 0)
    as Hopen by (vm_compute; discriminate).
  assert (wake_cnt (pdata (kbc (example_device
                                  (example_kbc 0 0 0 true [] [])))) <= 128)
    as Hcnt by (vm_compute; discriminate).
  assert (Forall (λ w, 0 <= wk_row w)
            (wake_cfg (pdata (kbc (example_device
                                     (example_kbc 0 0 0 true [] []))))))
    as Hrows by (repeat (apply Forall_cons; split; [cbn; lia|]);
                 apply Forall_nil_2).
  split; [exact Hopen|]. split; [exact Hcnt|].
  destruct (suspend_arms_wake_keys 16 128
              (example_device (example_kbc 0 0 0 true [] []))
              Hopen eq_refl Hcnt Hrows)
    as (d' & Hs & _ & _ & _ & _ & _ & _ & _ & Hw & _).
  exists d'. split; [exact Hs|exact Hw].
Defined.

Lemma resume_restores_polling_witness :
  is_open (kbc (example_device
                  (set_keypress_caused_wake true
                     (example_kbc 0 0 0 true [] [])))) ≠ 0 ∧
  ∃ d', tegra_kbc_resume 16 128 (op_ret 0)
          (example_device
             (set_keypress_caused_wake true (example_kbc 0 0 0 true [] [])))
        = Some (0, d') ∧
        idev (kbc d') = [EvKey 0x8f 1; EvKey 0x8f 0; EvSync].
Proof.
  assert (is_open (kbc (example_device
                          (set_keypress_caused_wake true
                             (example_kbc 0 0 0 true [] [])))) ≠ 0)
    as Hopen by (vm_compute; discriminate).
  assert (wake_cnt (pdata (kbc (example_device
                                  (set_keypress_caused_wake true
                                     (example_kbc 0 0 0 true [] [])))))
          <= 128)
    as Hcnt by (vm_compute; discriminate).
  assert (Forall (λ w, 0 <= wk_row w)
            (wake_cfg (pdata (kbc (example_device
                                     (set_keypress_caused_wake true
                                        (example_kbc 0 0 0 true [] [])))))))
    as Hrows by (repeat (apply Forall_cons; split; [cbn; lia|]);
                 apply Forall_nil_2).
  split; [exact Hopen|].
  destruct (resume_restores_polling 16 128 (op_ret 0)
              (example_device
                 (set_keypress_caused_wake true
                    (example_kbc 0 0 0 true [] [])))
              Hopen eq_refl Hcnt Hrows)
    as (d' & Hr & _ & _ & _ & Hid & _).
  exists d'. split; [exact Hr|exact Hid].
Defined.

Lemma suspend_resume_round_trip_witness :
  is_open (kbc (example_device (example_kbc 0 0 0 true [] []))) ≠ 0 ∧
  ∃ d1 d2,
    tegra_kbc_suspend 16 128 (example_device (example_kbc 0 0 0 true [] []))
    = Some (0, d1) ∧
    tegra_kbc_resume 16 128 (op_ret 0) d1 = Some (0, d2) ∧
    irq_wake d2 = O.
Proof.
  assert (is_open (kbc (example_device (example_kbc 0 0 0 true [] []))) ≠ 0)
    as Hopen by (vm_compute; discriminate).
  assert (wake_cnt (pdata (kbc (example_device
                                  (example_kbc 0 0 0 true [] [])))) <= 128)
    as Hcnt by (vm_compute; discriminate).
  assert (Forall (λ w, 0 <= wk_row w)
            (wake_cfg (pdata (kbc (example_device
                                     (example_kbc 0 0 0 true [] []))))))
    as Hrows by (repeat (apply Forall_cons; split; [cbn; lia|]);
                 apply Forall_nil_2).
  split; [exact Hopen|].
  destruct (suspend_resume_round_trip 16 128 (op_ret 0)
              (example_device (example_kbc 0 0 0 true [] []))
              Hopen eq_refl Hcnt Hrows)
    as (d1 & d2 & Hs & Hr & _ & _ & _ & _ & _ & _ & _ & Hw).
  exists d1, d2. split; [exact Hs|]. split; [exact Hr|exact Hw].
Defined.

Lemma wake_by_key_taps_wakeup_key_witness :
  is_open (kbc (example_device (example_kbc 0 0 0 true [] []))) ≠ 0 ∧
  Z.testbit 1 2 = false ∧ Z.testbit 1 0 = true ∧
  ∃ d1 d2,
    tegra_kbc_suspend 16 128 (example_device (example_kbc 0 0 0 true [] []))
    = Some (0, d1) ∧
    tegra_kbc_resume 16 128 (op_ret 0)
      (set_kbc (exec tegra_kbc_isr
                  (set_mmio (λ m, <[KBC_INT_0 := 1]> m) (kbc d1))) d1)
    = Some (0, d2) ∧
    idev (kbc d2) = [EvKey 0x8f 1; EvKey 0x8f 0; EvSync].
Proof.
  assert (is_open (kbc (example_device (example_kbc 0 0 0 true [] []))) ≠ 0)
    as Hopen by (vm_compute; discriminate).
  assert (wake_cnt (pdata (kbc (example_device
                                  (example_kbc 0 0 0 true [] [])))) <= 128)
    as Hcnt by (vm_compute; discriminate).
  assert (Forall (λ w, 0 <= wk_row w)
            (wake_cfg (pdata (kbc (example_device
                                     (example_kbc 0 0 0 true [] []))))))
    as Hrows by (repeat (apply Forall_cons; split; [cbn; lia|]);
                 apply Forall_nil_2).
  split; [exact Hopen|]. split; [reflexivity|]. split; [reflexivity|].
  destruct (wake_by_key_taps_wakeup_key 16 128 (op_ret 0)
              (example_device (example_kbc 0 0 0 true [] [])) 1
              Hopen eq_refl Hcnt Hrows eq_refl eq_refl)
    as (d1 & d2 & Hs & Hr & Hid & _).
  exists d1, d2. split; [exact Hs|]. split; [exact Hr|exact Hid].
Defined.

Lemma suspend_without_wake_stops_witness :
  is_open (kbc (KbcDevice (example_kbc 0 0 0 true [] []) 0 0x8f false 1 O))
    ≠ 0 ∧
  ∃ d1,
    tegra_kbc_suspend 16 128
      (KbcDevice (example_kbc 0 0 0 true [] []) 0 0x8f false 1 O)
    = Some (0, d1) ∧
    is_open (kbc d1) = 0.
Proof.
  assert (is_open (kbc (KbcDevice (example_kbc 0 0 0 true [] []) 0 0x8f
                          false 1 O)) ≠ 0)
    as Hopen by (vm_compute; discriminate).
  split; [exact Hopen|].
  destruct (suspend_without_wake_stops 16 128 (op_ret 0)
              (KbcDevice (example_kbc 0 0 0 true [] []) 0 0x8f false 1 O)
              Hopen eq_refl ltac:(cbn; lia))
    as (d1 & Hs & _ & _ & Hop & _).
  exists d1. split; [exact Hs|exact Hop].
Defined.

Lemma set_keypress_interrupt_one_bit_witness :
  0 <= 3 < 32 ∧
  Z.testbit (mmio (exec (tegra_kbc_set_keypress_interrupt false)
                     (exec (tegra_kbc_set_fifo_interrupt true)
                        (example_kbc 0 0 0 true [] []))) KBC_CONTROL_0) 3
  = true.
Proof.
  split; [lia|].
  exact (set_keypress_interrupt_one_bit false
           (exec (tegra_kbc_set_fifo_interrupt true)
              (example_kbc 0 0 0 true [] []))
           KBC_CONTROL_0 3 ltac:(lia)).
Defined.
